(** * giphy_adapter: a shallow embedding of the request / retry / transform
      pipeline of [giphy_adapter/adapter.py], of [giphy_adapter/utils.py]
      and of the service layer of [giphy_adapter/service.py].

    The Python code is asynchronous but strictly sequential inside one call;
    it is modelled with explicit state passing.  The state is the outside
    world as one call sees it: the answers the HTTP endpoint gives to the
    successive GET requests, and a log of the requests issued and of the
    back-off sleeps.  Exceptions are values of an inductive type; a raised
    exception keeps the state changes made before it.

    What belongs to the interpreter or to aiohttp rather than to the
    repository is a parameter of the development: the methods of [str],
    which follow the Unicode database, [repr], and the text of a
    [ClientResponseError]. *)

From Stdlib Require Import ZArith List String Ascii Bool Lia QArith.
From Stdlib Require Import DecimalString.
Import ListNotations.

Local Open Scope string_scope.
Local Open Scope Z_scope.

(* ===================================================================== *)
(** ** Python values and the built-ins the adapter relies on             *)
(* ===================================================================== *)

Module Py.

(** A [float]: a finite double is given by the rational it denotes, with
    negative zero apart; then the two infinities and NaN, which
    [json.loads] accepts as well.  Every rational is allowed here, so what
    holds of all of them holds of the doubles. *)
Inductive pyfloat : Type :=
| Finite (q : Q)
| NegZero
| Inf (positive : bool)
| NaN.

(** A parsed JSON document, which is also the shape of every keyword
    argument and configuration entry the adapter looks at.  Dictionaries keep
    insertion order, as Python's do; a JSON number is an [int] or a
    [float]. *)
#[warnings="-register-all"]
Inductive value : Type :=
| VNone
| VBool (b : bool)
| VInt (z : Z)
| VFloat (f : pyfloat)
| VStr (s : string)
| VList (l : list value)
| VDict (kvs : list (string * value)).

(** The exception classes that can reach the adapter's handlers.  The
    aiohttp classes are split the way [_handle_error] tells them apart:
    [ClientResponseError] carries an HTTP status, every other [ClientError]
    (connection refused, reset, DNS failure ...) is a transport fault and
    carries only its text. *)
Inductive exn : Type :=
| AsyncioTimeoutError
| ClientError (text : string)
| ClientResponseError (status : Z) (message : string)
| GiphyError (message : string)
| GiphyTimeout (message : string)
| GiphyValidation (message : string)
| ValueError (text : string)
| TypeError (text : string)
| KeyError (text : string)
| AttributeError (text : string)
| OverflowError (text : string)
| OtherException (text : string).

(** [inl e]: the computation raised [e]; [inr a]: it returned [a]. *)
Definition result (A : Type) : Type := (exn + A)%type.

Definition ok {A} (a : A) : result A := inr a.
Definition throw {A} (e : exn) : result A := inl e.
Definition rbind {A B} (r : result A) (k : A -> result B) : result B :=
  match r with
  | inl e => inl e
  | inr a => k a
  end.

Definition type_name (v : value) : string :=
  match v with
  | VNone => "NoneType"
  | VBool _ => "bool"
  | VInt _ => "int"
  | VFloat _ => "float"
  | VStr _ => "str"
  | VList _ => "list"
  | VDict _ => "dict"
  end.

(** *** Floats against integers *)

(** [f == n] for an integer [n]: the comparison is exact. *)
Definition float_eq_int (f : pyfloat) (n : Z) : bool :=
  match f with
  | Finite q => Qeq_bool q (inject_Z n)
  | NegZero => n =? 0
  | Inf _ | NaN => false
  end.

(** [n < f] for an integer [n]; every comparison with NaN is false. *)
Definition float_gt_int (f : pyfloat) (n : Z) : bool :=
  match f with
  | Finite q => negb (Qle_bool q (inject_Z n))
  | NegZero => n <? 0
  | Inf positive => positive
  | NaN => false
  end.

(** [int(f)]: truncation towards zero; the infinities raise
    [OverflowError], NaN raises [ValueError]. *)
Definition int_of_float (f : pyfloat) : result Z :=
  match f with
  | Finite q => ok (Z.quot (Qnum q) (Zpos (Qden q)))
  | NegZero => ok 0
  | Inf _ => throw (OverflowError "cannot convert float infinity to integer")
  | NaN => throw (ValueError "cannot convert float NaN to integer")
  end.

(** Truth value testing ([if x], [not x], [x and y]). *)
Definition truthy (v : value) : bool :=
  match v with
  | VNone => false
  | VBool b => b
  | VInt z => negb (z =? 0)
  | VFloat f => negb (float_eq_int f 0)
  | VStr s => negb (s =? "")%string
  | VList l => match l with [] => false | _ => true end
  | VDict kvs => match kvs with [] => false | _ => true end
  end.

Definition isinstance_str (v : value) : bool :=
  match v with VStr _ => true | _ => false end.

(** [bool] is a subclass of [int]; [float] is not. *)
Definition isinstance_int (v : value) : bool :=
  match v with VInt _ | VBool _ => true | _ => false end.

(** The integer an [int] instance stands for in comparisons. *)
Definition int_of (v : value) : option Z :=
  match v with
  | VInt z => Some z
  | VBool b => Some (if b then 1 else 0)
  | _ => None
  end.

(** [v == n] for an integer literal [n]: an [int] or a [float] of that
    value; a value of any other type is unequal. *)
Definition eq_int (v : value) (n : Z) : bool :=
  match v with
  | VFloat f => float_eq_int f n
  | _ =>
      match int_of v with
      | Some z => z =? n
      | None => false
      end
  end.

(** Lookup in an insertion-ordered dictionary. *)
Fixpoint assoc (k : string) (kvs : list (string * value)) : option value :=
  match kvs with
  | [] => None
  | (k', v) :: rest => if (k =? k')%string then Some v else assoc k rest
  end.

(** [d[k] = v]: overwrite in place, or append a new key. *)
Fixpoint dict_set (k : string) (v : value) (kvs : list (string * value))
  : list (string * value) :=
  match kvs with
  | [] => [(k, v)]
  | (k', v') :: rest =>
      if (k =? k')%string then (k', v) :: rest
      else (k', v') :: dict_set k v rest
  end.

(** [d.get(k, default)]; only dictionaries have the method. *)
Definition get (d : value) (k : string) (default : value) : result value :=
  match d with
  | VDict kvs =>
      ok (match assoc k kvs with Some v => v | None => default end)
  | _ =>
      throw (AttributeError
               ("'" ++ type_name d ++ "' object has no attribute 'get'"))
  end.

(** *** The methods of [str] *)

(** A Python [str] is a sequence of Unicode code points; [string] is only
    its carrier here.  The model itself compares strings, concatenates them
    and writes ASCII literals, nothing else.  Whatever looks inside a string
    is a built-in of the interpreter and is taken from it: white space,
    letter case and digits are those of the Unicode database, and [int] has
    a limit on the number of digits that depends on the interpreter's
    settings.  [int_of_str s] is the integer [int(s)] returns, or the text
    of the [ValueError] it raises. *)
Class StrMethods : Type := mkStrMethods
  { strip : string -> string;            (* [s.strip()] *)
    lower : string -> string;            (* [s.lower()] *)
    split : string -> list string;       (* [s.split()] *)
    len : string -> nat;                 (* [len(s)] *)
    chars : string -> list string;       (* the characters [for c in s] visits *)
    int_of_str : string -> string + Z }. (* [int(s)] *)

(** [str(n)] for an integer. *)
Definition str_int (z : Z) : string :=
  match z with
  | Z0 => "0"
  | Zpos p => NilEmpty.string_of_uint (Pos.to_uint p)
  | Zneg p => String "-" (NilEmpty.string_of_uint (Pos.to_uint p))
  end.

Section Builtins.

Context {py : StrMethods}.

(** [repr(v)], the interpreter's own rendering of a value (quoting and
    escaping of strings, digits of a float, nesting of containers).  It only
    ever ends up inside message texts. *)
Variable repr : value -> string.

(** What a [for] loop iterates over. *)
Definition iter (v : value) : result (list value) :=
  match v with
  | VList l => ok l
  | VDict kvs => ok (map (fun kv => VStr (fst kv)) kvs)
  | VStr s => ok (map VStr (chars s))
  | _ =>
      throw (TypeError ("'" ++ type_name v ++ "' object is not iterable"))
  end.

(** [str(v)], as an f-string substitutes it. *)
Definition str (v : value) : string :=
  match v with
  | VNone => "None"
  | VBool true => "True"
  | VBool false => "False"
  | VInt z => str_int z
  | VStr s => s
  | VFloat _ | VList _ | VDict _ => repr v
  end.

(** [int(v)]. *)
Definition int (v : value) : result Z :=
  match v with
  | VInt z => ok z
  | VBool b => ok (if b then 1 else 0)
  | VFloat f => int_of_float f
  | VStr s =>
      match int_of_str s with
      | inr z => ok z
      | inl text => throw (ValueError text)
      end
  | _ =>
      throw (TypeError
               ("int() argument must be a string, a bytes-like object or a real number, not '"
                  ++ type_name v ++ "'"))
  end.

End Builtins.

(** [min(v, 50)]: the second argument wins only when [50 < v]; an [int] and
    a [float] can be compared with 50, nothing else can. *)
Definition min_50 (v : value) : result value :=
  match v with
  | VFloat f => ok (if float_gt_int f 50 then VInt 50 else v)
  | _ =>
      match int_of v with
      | Some z => ok (if 50 <? z then VInt 50 else v)
      | None =>
          throw (TypeError
                   ("'<' not supported between instances of 'int' and '"
                      ++ type_name v ++ "'"))
      end
  end.

(** [v in {'g', 'pg', 'pg-13', 'r'}]: hashing comes first, and lists and
    dictionaries are unhashable. *)
Definition in_str_set (v : value) (set : list string) : result bool :=
  match v with
  | VStr s => ok (existsb (String.eqb s) set)
  | VList _ | VDict _ =>
      throw (TypeError ("unhashable type: '" ++ type_name v ++ "'"))
  | _ => ok false
  end.

End Py.

(* ===================================================================== *)
(** ** The [str] methods on ASCII text                                    *)
(* ===================================================================== *)

(** A stand-in for the interpreter's [str] methods, exact on strings of
    ASCII characters (one character per code point): it is what the
    concrete runs below compute with.  No property of the adapter is
    proved from it. *)
Module Plain.
Import Py.

(** The ASCII characters [str.isspace] accepts. *)
Definition is_space (c : ascii) : bool :=
  let n := N_of_ascii c in
  ((9 <=? n) && (n <=? 13) || (28 <=? n) && (n <=? 32))%N.

Fixpoint lstrip (s : string) : string :=
  match s with
  | String c r => if is_space c then lstrip r else s
  | EmptyString => EmptyString
  end.

Fixpoint rstrip (s : string) : string :=
  match s with
  | String c r =>
      match rstrip r with
      | EmptyString => if is_space c then EmptyString else String c EmptyString
      | r' => String c r'
      end
  | EmptyString => EmptyString
  end.

(** [str.strip] *)
Definition strip (s : string) : string := rstrip (lstrip s).

(** [str.lower] *)
Definition lower_char (c : ascii) : ascii :=
  let n := N_of_ascii c in
  if ((65 <=? n) && (n <=? 90))%N then ascii_of_N (n + 32) else c.

Fixpoint lower (s : string) : string :=
  match s with
  | EmptyString => EmptyString
  | String c r => String (lower_char c) (lower r)
  end.

(** [str.split()] with no separator: the maximal runs of characters that are
    not white space. *)
Fixpoint split (s : string) : list string :=
  match s with
  | EmptyString => []
  | String c r =>
      if is_space c then split r
      else
        match r with
        | EmptyString => [String c EmptyString]
        | String c' _ =>
            if is_space c' then String c EmptyString :: split r
            else
              match split r with
              | w :: ws => String c w :: ws
              | [] => [String c EmptyString]
              end
        end
  end.

(** The characters of a string, each as a string of its own. *)
Fixpoint chars (s : string) : list string :=
  match s with
  | EmptyString => []
  | String c r => String c EmptyString :: chars r
  end.

(** The white space [int] skips at either end of its argument: tab, line
    feed, vertical tab, form feed, carriage return and space. *)
Definition is_c_space (c : ascii) : bool :=
  let n := N_of_ascii c in
  ((9 <=? n) && (n <=? 13) || (n =? 32))%N.

Fixpoint skip_c_space (s : string) : string :=
  match s with
  | String c r => if is_c_space c then skip_c_space r else s
  | EmptyString => EmptyString
  end.

Fixpoint all_c_space (s : string) : bool :=
  match s with
  | String c r => is_c_space c && all_c_space r
  | EmptyString => true
  end.

Definition digit_of (c : ascii) : option Z :=
  let n := N_of_ascii c in
  if ((48 <=? n) && (n <=? 57))%N then Some (Z.of_N n - 48) else None.

(** The digit part of an integer literal: decimal digits, single underscores
    allowed between two digits, white space allowed after the last digit.
    [after_digit] tells whether the previous character was a digit. *)
Fixpoint digits (s : string) (acc : Z) (after_digit : bool) : option Z :=
  match s with
  | EmptyString => if after_digit then Some acc else None
  | String c r =>
      match digit_of c with
      | Some d => digits r (10 * acc + d) true
      | None =>
          if (Ascii.eqb c "_" && after_digit)%bool then digits r acc false
          else if (after_digit && is_c_space c && all_c_space r)%bool
               then Some acc
               else None
      end
  end.

(** The number of decimal digits in a string. *)
Fixpoint digit_count (s : string) : nat :=
  match s with
  | EmptyString => 0%nat
  | String c r =>
      match digit_of c with
      | Some _ => S (digit_count r)
      | None => digit_count r
      end
  end.

(** [int(s)] in base 10: surrounding white space, an optional sign, and the
    default limit of 4300 digits.  The adapter only ever sees whether [int]
    raised; in the text the argument is quoted as it stands. *)
Definition int_of_string (s : string) : string + Z :=
  let invalid :=
    inl ("invalid literal for int() with base 10: '" ++ s ++ "'") in
  let read (text : string) (sign : Z) : string + Z :=
    match digits text 0 false with
    | Some z =>
        if (4300 <? digit_count text)%nat then
          inl ("Exceeds the limit (4300 digits) for integer string conversion: value has "
                 ++ str_int (Z.of_nat (digit_count text))
                 ++ " digits; use sys.set_int_max_str_digits() to increase the limit")
        else inr (sign * z)
    | None => invalid
    end in
  match skip_c_space s with
  | String c r =>
      if Ascii.eqb c "-" then read r (-1)
      else if Ascii.eqb c "+" then read r 1
      else read (String c r) 1
  | EmptyString => invalid
  end.

Definition methods : StrMethods :=
  {| Py.strip := strip;
     Py.lower := lower;
     Py.split := split;
     Py.len := String.length;
     Py.chars := chars;
     Py.int_of_str := int_of_string |}.

(** A string of ASCII characters only. *)
Definition is_ascii_char (c : ascii) : bool := (N_of_ascii c <? 128)%N.

Fixpoint is_ascii (s : string) : bool :=
  match s with
  | EmptyString => true
  | String c r => is_ascii_char c && is_ascii r
  end.

(** What is taken for granted of the interpreter where a property depends
    on the letters of a text: on a string of ASCII characters [strip],
    [lower], [split] and [len] are the functions above. *)
Class OnAscii (py : StrMethods) : Prop := mkOnAscii
  { strip_on_ascii : forall s, is_ascii s = true -> Py.strip s = strip s;
    lower_on_ascii : forall s, is_ascii s = true -> Py.lower s = lower s;
    split_on_ascii : forall s, is_ascii s = true -> Py.split s = split s;
    len_on_ascii : forall s, is_ascii s = true -> Py.len s = String.length s }.

(** No character of the string is white space. *)
Fixpoint no_space (s : string) : bool :=
  match s with
  | EmptyString => true
  | String c r => negb (is_space c) && no_space r
  end.

(** A word as [split] produces them: not empty, no white space. *)
Definition is_word (w : string) : bool :=
  negb (w =? "")%string && no_space w.

End Plain.



(* ===================================================================== *)
(** ** [models.py]                                                       *)
(* ===================================================================== *)

Module Models.
Import Py.

Inductive ErrorType : Type :=
| TIMEOUT
| CLIENT_ERROR
| SERVER_ERROR
| NETWORK_ERROR
| VALIDATION_ERROR
| UNKNOWN_ERROR.

(** [ErrorType.X.value] *)
Definition ErrorType_value (t : ErrorType) : string :=
  match t with
  | TIMEOUT => "TIMEOUT"
  | CLIENT_ERROR => "CLIENT_ERROR"
  | SERVER_ERROR => "SERVER_ERROR"
  | NETWORK_ERROR => "NETWORK_ERROR"
  | VALIDATION_ERROR => "VALIDATION_ERROR"
  | UNKNOWN_ERROR => "UNKNOWN_ERROR"
  end.

(** The dataclasses carry type annotations but check nothing at run time:
    a field holds whatever the constructor was given.  [width], [height] and
    [size] always come out of [int(...)]; every other field is the upstream
    value itself. *)
Record GifImage : Type := mkGifImage
  { url : value; width : Z; height : Z; size : Z }.

Record GifData : Type := mkGifData
  { id : value;
    title : value;
    gif_url : value;            (* the field [url] of [GifData] *)
    rating : value;
    created_at : value;
    tags : value;
    original : GifImage;
    preview : GifImage;
    thumbnail : GifImage }.

Record PaginationData : Type := mkPaginationData
  { total : value; count : value; offset : value }.

(** [Optional[Union[List[GifData], GifData]]] *)
Inductive payload : Type :=
| NoData
| GifList (gifs : list GifData)
| OneGif (gif : GifData).

(** The dictionary [_handle_error] builds, key by key. *)
Record error_info : Type := mkErrorInfo
  { err_type : string;
    err_message : string;
    err_method : string;
    err_timestamp : Q }.

Record AdapterResponse : Type := mkAdapterResponse
  { success : bool;
    data : payload;
    pagination : option PaginationData;
    message : string;
    error : option error_info }.

(** Truth value of [result.data]: [None] and the empty list are false, a
    dataclass instance is true. *)
Definition payload_truthy (d : payload) : bool :=
  match d with
  | NoData => false
  | GifList [] => false
  | GifList (_ :: _) => true
  | OneGif _ => true
  end.

End Models.

(* ===================================================================== *)
(** ** [utils.py]                                                        *)
(* ===================================================================== *)

Module Utils.
Import Py.

Definition valid_ratings : list string := ["g"; "pg"; "pg-13"; "r"].

Definition dict_get (params : list (string * value)) (k : string)
  (default : value) : value :=
  match assoc k params with
  | Some v => v
  | None => default
  end.

(** [v < n] and [v > n], which the code evaluates only once [isinstance(v,
    int)] has held. *)
Definition lt_int (v : value) (n : Z) : bool :=
  match int_of v with Some z => z <? n | None => false end.

Definition gt_int (v : value) (n : Z) : bool :=
  match int_of v with Some z => n <? z | None => false end.

(** [validate_search_params], called on its keyword dictionary.  The rating names are joined in
    the iteration order of a Python set, which is unspecified; the text
    below lists them in source order. *)
Definition validate_search_params (params : list (string * value))
  : result unit :=
  let limit := dict_get params "limit" (VInt 10) in
  let offset := dict_get params "offset" (VInt 0) in
  if negb (isinstance_int limit) || lt_int limit 1 || gt_int limit 50 then
    throw (ValueError "Limit must be an integer between 1 and 50")
  else if negb (isinstance_int offset) || lt_int offset 0 then
    throw (ValueError "Offset must be a non-negative integer")
  else
    let rating := dict_get params "rating" (VStr "pg") in
    rbind (in_str_set rating valid_ratings) (fun known =>
    if negb known then
      throw (ValueError
               ("Rating must be one of: " ++ String.concat ", " valid_ratings))
    else ok tt).

End Utils.


(* ===================================================================== *)
(** ** The outside world of one call, and computations over it           *)
(* ===================================================================== *)

Module World.
Import Py.

(** What one [session.get] round trip ends in: an exception raised by the
    transfer, or a response with its status line and whatever
    [response.json()] makes of the body. *)
Inductive http_outcome : Type :=
| Raises (e : exn)
| Responds (status : Z) (reason : string) (body : result value).

Inductive event : Type :=
| Get (url : string) (params : list (string * value))
| Sleep (seconds : Q).

(** [upstream n] is the outcome of the [n]-th GET issued (counting from 0);
    [sent] counts the GETs issued so far; [clock] is what [time.time()]
    reads. *)
Record world : Type := mkWorld
  { upstream : nat -> http_outcome;
    sent : nat;
    log : list event;
    clock : Q }.

Definition M (A : Type) : Type := world -> result A * world.

Definition ret {A} (a : A) : M A := fun w => (inr a, w).

Definition raise {A} (e : exn) : M A := fun w => (inl e, w).

Definition bind {A B} (m : M A) (k : A -> M B) : M B :=
  fun w =>
    match m w with
    | (inl e, w') => (inl e, w')
    | (inr a, w') => k a w'
    end.

(** A pure computation that may raise. *)
Definition lift {A} (r : result A) : M A := fun w => (r, w).

(** [try: m  except Exception as e: ...] seen from the handler's side. *)
Definition try {A} (m : M A) : M (result A) :=
  fun w => let (r, w') := m w in (inr r, w').

(** [session.get(url, params=params)] *)
Definition session_get (url : string) (params : list (string * value))
  : M http_outcome :=
  fun w =>
    (inr (upstream w (sent w)),
     {| upstream := upstream w;
        sent := S (sent w);
        log := log w ++ [Get url params];
        clock := clock w |}).

(** [asyncio.sleep(seconds)] *)
Definition sleep (seconds : Q) : M unit :=
  fun w =>
    (inr tt,
     {| upstream := upstream w;
        sent := sent w;
        log := log w ++ [Sleep seconds];
        clock := clock w |}).

(** [time.time()] *)
Definition time : M Q := fun w => (inr (clock w), w).

(** The GET requests and the sleeps recorded in a log, in order. *)
Definition gets (l : list event) : list (list (string * value)) :=
  flat_map (fun e => match e with Get _ p => [p] | Sleep _ => [] end) l.

Definition sleeps (l : list event) : list Q :=
  flat_map (fun e => match e with Get _ _ => [] | Sleep d => [d] end) l.

(** A world in which nothing has happened yet. *)
Definition fresh (answers : nat -> http_outcome) (now : Q) : world :=
  {| upstream := answers; sent := 0; log := []; clock := now |}.

End World.

Declare Scope world_scope.
Delimit Scope world_scope with world.
Notation "x <- m ;; k" := (World.bind m (fun x => k))
  (at level 61, m at next level, right associativity) : world_scope.
Notation "m ;;; k" := (World.bind m (fun _ => k))
  (at level 61, right associativity) : world_scope.

Declare Scope result_scope.
Delimit Scope result_scope with result.
Notation "x <~ r ;; k" := (Py.rbind r (fun x => k))
  (at level 61, r at next level, right associativity) : result_scope.

(* ===================================================================== *)
(** ** [adapter.py]: class [GiphyAdapter]                                 *)
(* ===================================================================== *)

Module GiphyAdapter.
Import Py Models Utils World.

(** [self.api_key] and [self.config]; the entries ['limit'], ['rating'] and
    ['lang'] are the defaults of the search options. *)
Record config : Type := mkConfig
  { api_key : string;
    cfg_limit : value;
    cfg_rating : value;
    cfg_lang : value;
    timeout : Q;
    retry_attempts : Z;
    retry_delay : Q;
    max_concurrent_requests : Z }.

(** [__init__] with no overrides. *)
Definition init (key : string) : result config :=
  if negb (truthy (VStr key)) then
    throw (GiphyValidation "API key is required")
  else
    ok {| api_key := key;
          cfg_limit := VInt 10;
          cfg_rating := VStr "pg";
          cfg_lang := VStr "en";
          timeout := 5;
          retry_attempts := 3;
          retry_delay := 1;
          max_concurrent_requests := 100 |}.

Definition base_url : string := "https://api.giphy.com/v1/gifs".

(** The keyword arguments of [search_gifs] and [get_random_gif] that the
    code reads; [None] is an absent key. *)
Record options : Type := mkOptions
  { o_limit : option value;
    o_offset : option value;
    o_rating : option value;
    o_lang : option value }.

Definition no_options : options :=
  {| o_limit := None; o_offset := None; o_rating := None; o_lang := None |}.

(** [options.get(key, default)] *)
Definition opt_get (o : option value) (default : value) : value :=
  match o with
  | Some v => v
  | None => default
  end.

Section Adapter.

(** What belongs to the interpreter and to aiohttp: the methods of [str],
    [repr] of a value, and [str] of a [ClientResponseError] built from a
    status and a message. *)
Context {py : StrMethods}.
Variable repr : value -> string.
Variable response_error_str : Z -> string -> string.

(** [str(error)] *)
Definition exn_str (e : exn) : string :=
  match e with
  | AsyncioTimeoutError => ""
  | ClientResponseError status msg => response_error_str status msg
  | GiphyError msg | GiphyTimeout msg | GiphyValidation msg => msg
  | ClientError text | ValueError text | TypeError text | KeyError text
  | AttributeError text | OverflowError text | OtherException text => text
  end.

Local Open Scope world_scope.

(** The body of the [try] inside the retry loop: one GET, the status check,
    the JSON body and the check of [meta.status]. *)
Definition attempt_once (url : string) (params : list (string * value))
  : M value :=
  response <- session_get url params ;;
  match response with
  | Raises e => raise e
  | Responds status reason body =>
      if negb (status =? 200) then
        raise (ClientResponseError status
                 ("HTTP " ++ str_int status ++ ": " ++ reason))
      else
        data <- lift body ;;
        meta <- lift (get data "meta" (VDict [])) ;;
        api_status <- lift (get meta "status" VNone) ;;
        if negb (eq_int api_status 200) then
          meta' <- lift (get data "meta" (VDict [])) ;;
          msg <- lift (get meta' "msg" (VStr "Unknown error")) ;;
          raise (GiphyError ("Giphy API Error: " ++ str repr msg))
        else ret data
  end.

(** The three [except] clauses of the loop: what [last_error] becomes. *)
Definition recorded_error (e : exn) : exn :=
  match e with
  | AsyncioTimeoutError => GiphyTimeout "Request timeout"
  | ClientError _ | ClientResponseError _ _ =>
      GiphyError ("Client error: " ++ exn_str e)
  | _ => e
  end.

(** [range(1, n + 1)] *)
Definition attempt_numbers (n : Z) : list Z :=
  map Z.of_nat (seq 1 (Z.to_nat n)).

(** The [for attempt in ...] loop and the final [raise last_error];
    raising [None] is a [TypeError]. *)
Fixpoint retry_loop (cfg : config) (url : string)
  (params : list (string * value)) (attempts : list Z)
  (last_error : option exn) : M value :=
  match attempts with
  | [] =>
      match last_error with
      | Some e => raise e
      | None => raise (TypeError "exceptions must derive from BaseException")
      end
  | attempt :: rest =>
      outcome <- try (attempt_once url params) ;;
      match outcome with
      | inr data => ret data
      | inl e =>
          (if attempt <? retry_attempts cfg then
             sleep (retry_delay cfg * inject_Z attempt)%Q
           else ret tt) ;;;
          retry_loop cfg url params rest (Some (recorded_error e))
      end
  end.

Definition _make_request (cfg : config) (endpoint : string)
  (params : list (string * value)) : M value :=
  let url := base_url ++ endpoint in
  let params := dict_set "api_key" (VStr (api_key cfg)) params in
  retry_loop cfg url params (attempt_numbers (retry_attempts cfg)) None.

Local Close Scope world_scope.
Local Open Scope result_scope.

(** One [GifImage(...)] call; [preview] and [thumbnail] pass no [size]. *)
Definition read_image (images : value) (key : string) (with_size : bool)
  : result GifImage :=
  u <~ (section <~ get images key (VDict []) ;; get section "url" (VStr "")) ;;
  w <~ (section <~ get images key (VDict []) ;;
        field <~ get section "width" (VInt 0) ;; int field) ;;
  h <~ (section <~ get images key (VDict []) ;;
        field <~ get section "height" (VInt 0) ;; int field) ;;
  s <~ (if with_size then
          section <~ get images key (VDict []) ;;
          field <~ get section "size" (VInt 0) ;; int field
        else ok 0) ;;
  ok {| url := u; width := w; height := h; size := s |}.

(** The body of the [try] inside the loop of [_transform_response]. *)
Definition read_gif (gif_data : value) : result GifData :=
  images <~ get gif_data "images" (VDict []) ;;
  i <~ get gif_data "id" (VStr "") ;;
  t <~ get gif_data "title" (VStr "") ;;
  u <~ get gif_data "url" (VStr "") ;;
  r <~ get gif_data "rating" (VStr "") ;;
  c <~ get gif_data "import_datetime" (VStr "") ;;
  g <~ get gif_data "tags" (VList []) ;;
  o <~ read_image images "original" true ;;
  p <~ read_image images "fixed_height_small" false ;;
  s <~ read_image images "fixed_height_small_still" false ;;
  ok {| id := i; title := t; gif_url := u; rating := r; created_at := c;
        tags := g; original := o; preview := p; thumbnail := s |}.

(** The loop over the records: [ValueError] and [KeyError] skip the record,
    anything else leaves the loop. *)
Fixpoint read_gifs (records : list value) (gifs : list GifData)
  : result (list GifData) :=
  match records with
  | [] => ok gifs
  | gif_data :: rest =>
      match read_gif gif_data with
      | inr gif => read_gifs rest (gifs ++ [gif])
      | inl (ValueError _) | inl (KeyError _) => read_gifs rest gifs
      | inl e => throw e
      end
  end.

Definition _transform_response (giphy_response : value)
  : result AdapterResponse :=
  records <~ (d <~ get giphy_response "data" (VList []) ;; iter d) ;;
  gifs <~ read_gifs records [] ;;
  pagination_data <~ get giphy_response "pagination" (VDict []) ;;
  t <~ get pagination_data "total_count" (VInt 0) ;;
  c <~ get pagination_data "count" (VInt 0) ;;
  o <~ get pagination_data "offset" (VInt 0) ;;
  ok {| success := true;
        data := GifList gifs;
        pagination := Some {| total := t; count := c; offset := o |};
        message := "Found " ++ str_int (Z.of_nat (List.length gifs)) ++ " GIFs";
        error := None |}.

Local Close Scope result_scope.
Local Open Scope world_scope.

(** The [if / elif] chain of [_handle_error]. *)
Definition classify (e : exn) : ErrorType :=
  match e with
  | GiphyTimeout _ => TIMEOUT
  | GiphyValidation _ => VALIDATION_ERROR
  | ClientResponseError status _ =>
      if (400 <=? status) && (status <? 500) then CLIENT_ERROR
      else if (500 <=? status) && (status <? 600) then SERVER_ERROR
      else UNKNOWN_ERROR
  | ClientError _ => NETWORK_ERROR
  | _ => UNKNOWN_ERROR
  end.

Definition _handle_error (e : exn) (method : string) : M AdapterResponse :=
  now <- time ;;
  ret {| success := false;
         data := NoData;
         pagination := None;
         message := "";
         error := Some {| err_type := ErrorType_value (classify e);
                          err_message := exn_str e;
                          err_method := method;
                          err_timestamp := now |} |}.

(** [query.strip()] *)
Definition str_strip (v : value) : result value :=
  match v with
  | VStr s => ok (VStr (strip s))
  | _ =>
      throw (AttributeError
               ("'" ++ type_name v ++ "' object has no attribute 'strip'"))
  end.

Definition search_gifs (cfg : config) (query : value) (opts : options)
  : M AdapterResponse :=
  if negb (truthy query) || negb (isinstance_str query) then
    raise (GiphyValidation "Query parameter is required and must be a string")
  else
    q <- lift (str_strip query) ;;
    l <- lift (min_50 (opt_get (o_limit opts) (cfg_limit cfg))) ;;
    let search_params :=
      [("q", q);
       ("limit", l);
       ("offset", opt_get (o_offset opts) (VInt 0));
       ("rating", opt_get (o_rating opts) (cfg_rating cfg));
       ("lang", opt_get (o_lang opts) (cfg_lang cfg))] in
    lift (validate_search_params search_params) ;;;
    outcome <- try (response_data <- _make_request cfg "/search" search_params ;;
                    lift (_transform_response response_data)) ;;
    match outcome with
    | inr response => ret response
    | inl e => _handle_error e "search_gifs"
    end.

Definition get_random_gif (cfg : config) (query : value) (opts : options)
  : M AdapterResponse :=
  let search_options :=
    {| o_limit := Some (VInt 1);
       o_offset := Some (VInt 0);
       o_rating := o_rating opts;
       o_lang := o_lang opts |} in
  result <- search_gifs cfg query search_options ;;
  if success result && payload_truthy (data result) then
    ret {| success := true;
           data := match data result with
                   | GifList (first :: _) => OneGif first
                   | d => d
                   end;
           pagination := None;
           message := "GIF found";
           error := None |}
  else
    ret {| success := true;
           data := NoData;
           pagination := None;
           message := "No GIF found for query";
           error := None |}.

End Adapter.

End GiphyAdapter.

(* ===================================================================== *)
(** ** [utils.py]: [extract_keywords]                                     *)
(* ===================================================================== *)

Module Keywords.
Import Py.

Definition stop_words : list string :=
  ["the"; "is"; "a"; "an"; "and"; "or"; "but"; "in"; "on"; "at";
   "to"; "for"; "of"; "with"; "by"; "this"; "that"; "these"; "those";
   "i"; "me"; "my"; "you"; "your"; "he"; "she"; "it"; "we"; "they"].

(** [l[:k]]: a negative [k] counts from the end. *)
Definition slice_to {A} (l : list A) (k : Z) : list A :=
  if k <? 0 then firstn (Z.to_nat (Z.of_nat (List.length l) + k)) l
  else firstn (Z.to_nat k) l.

Section Extract.

Context {py : StrMethods}.

(** The condition of the list comprehension. *)
Definition is_keyword (word : string) : bool :=
  (2 <? len word)%nat
  && negb (existsb (String.eqb word) stop_words).

Definition extract_keywords (message : string) (max_keywords : Z) : string :=
  let words := split (strip (lower message)) in
  let keywords := filter is_keyword words in
  match keywords with
  | _ :: _ => String.concat " " (slice_to keywords max_keywords)
  | [] => strip message
  end.

End Extract.

End Keywords.

(* ===================================================================== *)
(** ** [adapter.py]: construction, health check, session and shutdown     *)
(* ===================================================================== *)

Module Lifecycle.
Import Py Models Utils World GiphyAdapter.

(** The keyword arguments of [GiphyAdapter(api_key, ...)] that override an
    entry of the default configuration; [None] is an absent key. *)
Record overrides : Type := mkOverrides
  { ov_limit : option value;
    ov_rating : option value;
    ov_lang : option value;
    ov_timeout : option Q;
    ov_retry_attempts : option Z;
    ov_retry_delay : option Q;
    ov_max_concurrent_requests : option Z }.

Definition no_overrides : overrides :=
  {| ov_limit := None; ov_rating := None; ov_lang := None;
     ov_timeout := None; ov_retry_attempts := None; ov_retry_delay := None;
     ov_max_concurrent_requests := None |}.

Definition or_default {A} (o : option A) (default : A) : A :=
  match o with
  | Some a => a
  | None => default
  end.

(** [GiphyAdapter.__init__]: the defaults, overridden key by key. *)
Definition __init__ (key : string) (options : overrides) : result config :=
  if negb (truthy (VStr key)) then
    throw (GiphyValidation "API key is required")
  else
    ok {| api_key := key;
          cfg_limit := or_default (ov_limit options) (VInt 10);
          cfg_rating := or_default (ov_rating options) (VStr "pg");
          cfg_lang := or_default (ov_lang options) (VStr "en");
          timeout := or_default (ov_timeout options) 5%Q;
          retry_attempts := or_default (ov_retry_attempts options) 3;
          retry_delay := or_default (ov_retry_delay options) 1%Q;
          max_concurrent_requests :=
            or_default (ov_max_concurrent_requests options) 100 |}.

(** The dictionary [health_check] returns; the key ['error'] is there only
    when the check failed. *)
Record health : Type := mkHealth
  { healthy : bool;
    health_error : option string;
    timestamp : Q;
    service : string }.

Section Health.

Context {py : StrMethods}.
Variable repr : value -> string.
Variable response_error_str : Z -> string -> string.

Local Open Scope world_scope.

Definition health_check (cfg : config) : M health :=
  outcome <- try (_make_request repr response_error_str cfg "/search"
                    [("q", VStr "test"); ("limit", VInt 1)]) ;;
  match outcome with
  | inr _ =>
      now <- time ;;
      ret {| healthy := true; health_error := None;
             timestamp := now; service := "giphy" |}
  | inl e =>
      now <- time ;;
      ret {| healthy := false;
             health_error := Some (exn_str response_error_str e);
             timestamp := now; service := "giphy" |}
  end.

Local Close Scope world_scope.

End Health.

(** An [aiohttp.ClientSession], as far as [closed] goes: the property is
    [self._connector is None or self._connector.closed], and the session's
    own [close] closes the connector it was given (it owns it, by default)
    and lets go of it. *)
Record client_session : Type := mkClientSession
  { detached : bool }.            (* its [_connector] is [None] *)

(** The resources an adapter owns: [self._session] ([None] until the first
    request) and [self.connector], with a count of the sessions ever
    created. *)
Record resources : Type := mkResources
  { session : option client_session;
    connector_closed : bool;
    sessions_created : nat }.

(** What [__init__] leaves: a connector and no session. *)
Definition fresh_resources : resources :=
  {| session := None; connector_closed := false; sessions_created := 0 |}.

(** [self._session.closed] *)
Definition session_closed (r : resources) (s : client_session) : bool :=
  detached s || connector_closed r.

(** [self._session is None or self._session.closed] *)
Definition needs_session (r : resources) : bool :=
  match session r with
  | None => true
  | Some s => session_closed r s
  end.

(** [_get_session]: a session is created, on the adapter's connector, only
    when there is none or the one there is closed. *)
Definition _get_session (r : resources) : resources :=
  if needs_session r then
    {| session := Some {| detached := false |};
       connector_closed := connector_closed r;
       sessions_created := S (sessions_created r) |}
  else r.

(** [close]: the session is closed if there is one that is not closed yet,
    then the connector. *)
Definition close (r : resources) : resources :=
  let r1 :=
    if needs_session r then r
    else {| session := Some {| detached := true |};
            connector_closed := true;
            sessions_created := sessions_created r |} in
  {| session := session r1;
     connector_closed := true;
     sessions_created := sessions_created r1 |}.

End Lifecycle.

(* ===================================================================== *)
(** ** [service.py]: class [GifService]                                   *)
(* ===================================================================== *)

Module GifService.
Import Py Models Utils World GiphyAdapter Keywords Lifecycle.

(** [GifService.__init__]: the service's own defaults sit between the
    caller's configuration and the adapter's defaults. *)
Definition service_config (config : overrides) : overrides :=
  {| ov_limit := Some (or_default (ov_limit config) (VInt 5));
     ov_rating := Some (or_default (ov_rating config) (VStr "pg"));
     ov_lang := ov_lang config;
     ov_timeout := Some (or_default (ov_timeout config) 3%Q);
     ov_retry_attempts := Some (or_default (ov_retry_attempts config) 2);
     ov_retry_delay := ov_retry_delay config;
     ov_max_concurrent_requests := ov_max_concurrent_requests config |}.

Definition __init__ (giphy_api_key : string) (config : overrides)
  : result GiphyAdapter.config :=
  Lifecycle.__init__ giphy_api_key (service_config config).

(** The dictionary [get_gif_for_message] returns. *)
Record message_gif : Type := mkMessageGif
  { mg_type : string;
    mg_id : value;
    mg_title : value;
    mg_url : value;
    mg_preview_url : value;
    mg_thumbnail_url : value;
    mg_width : Z;
    mg_height : Z;
    mg_rating : value;
    mg_query_used : string }.

(** One entry of the list under ['gifs'], and the dictionary
    [GifService.search_gifs] returns. *)
Record listed_gif : Type := mkListedGif
  { lg_id : value;
    lg_title : value;
    lg_url : value;
    lg_preview_url : value;
    lg_thumbnail_url : value;
    lg_width : Z;
    lg_height : Z;
    lg_rating : value }.

Record search_summary : Type := mkSearchSummary
  { ss_query : value;
    ss_total_results : value;
    ss_returned_count : Z;
    ss_gifs : list listed_gif }.

(** Reading the attributes of [result.data] as one [GifData]. *)
Definition as_gif (d : payload) : result GifData :=
  match d with
  | OneGif gif => ok gif
  | GifList _ => throw (AttributeError "'list' object has no attribute 'id'")
  | NoData =>
      throw (AttributeError "'NoneType' object has no attribute 'id'")
  end.

(** [len(result.data)] and the iteration over it, as a list. *)
Definition as_list (d : payload) : result (list GifData) :=
  match d with
  | GifList gifs => ok gifs
  | OneGif _ => throw (TypeError "object of type 'GifData' has no len()")
  | NoData => throw (TypeError "object of type 'NoneType' has no len()")
  end.

Definition listed (gif : GifData) : listed_gif :=
  {| lg_id := id gif;
     lg_title := title gif;
     lg_url := url (original gif);
     lg_preview_url := url (preview gif);
     lg_thumbnail_url := url (thumbnail gif);
     lg_width := width (original gif);
     lg_height := height (original gif);
     lg_rating := rating gif |}.

Section Service.

Context {py : StrMethods}.
Variable repr : value -> string.
Variable response_error_str : Z -> string -> string.

Local Open Scope world_scope.

(** The body of the [try] of [get_gif_for_message]. *)
Definition message_body (cfg : config) (user_message : string)
  (opts : options) : M (option message_gif) :=
  let query := extract_keywords user_message 3 in
  result <- get_random_gif repr response_error_str cfg (VStr query) opts ;;
  if success result && payload_truthy (data result) then
    gif <- lift (as_gif (data result)) ;;
    ret (Some {| mg_type := "gif";
                 mg_id := id gif;
                 mg_title := title gif;
                 mg_url := url (original gif);
                 mg_preview_url := url (preview gif);
                 mg_thumbnail_url := url (thumbnail gif);
                 mg_width := width (original gif);
                 mg_height := height (original gif);
                 mg_rating := rating gif;
                 mg_query_used := query |})
  else ret None.

Definition get_gif_for_message (cfg : config) (user_message : value)
  (opts : options) : M (option message_gif) :=
  match user_message with
  | VStr text =>
      if negb (truthy user_message) then ret None
      else
        outcome <- try (message_body cfg text opts) ;;
        match outcome with
        | inr answer => ret answer
        | inl _ => ret None
        end
  | _ => ret None
  end.

(** The body of the [try] of [GifService.search_gifs]. *)
Definition search_body (cfg : config) (query : value) (opts : options)
  : M (option search_summary) :=
  result <- GiphyAdapter.search_gifs repr response_error_str cfg query opts ;;
  if success result && payload_truthy (data result) then
    gifs <- lift (as_list (data result)) ;;
    ret (Some {| ss_query := query;
                 ss_total_results :=
                   match pagination result with
                   | Some p => total p
                   | None => VInt 0
                   end;
                 ss_returned_count := Z.of_nat (List.length gifs);
                 ss_gifs := map listed gifs |})
  else ret None.

Definition search_gifs (cfg : config) (query : value) (opts : options)
  : M (option search_summary) :=
  outcome <- try (search_body cfg query opts) ;;
  match outcome with
  | inr answer => ret answer
  | inl _ => ret None
  end.

Local Close Scope world_scope.

End Service.

End GifService.

(* ===================================================================== *)
(** ** Concrete inputs                                                   *)
(* ===================================================================== *)

Module Sample.
Import Py Models Utils World GiphyAdapter.

(** Stand-ins for the two renderings, for runs on concrete inputs. *)
Definition repr (v : value) : string :=
  match v with
  | VStr s => "'" ++ s ++ "'"
  | VFloat (Finite q) =>
      str_int (Qnum q) ++ "/" ++ str_int (Zpos (Qden q))
  | VFloat NegZero => "-0.0"
  | VFloat (Inf true) => "inf"
  | VFloat (Inf false) => "-inf"
  | VFloat NaN => "nan"
  | VList _ => "[...]"
  | VDict _ => "{...}"
  | _ => str (fun _ => "") v
  end.

Definition response_error_str (status : Z) (msg : string) : string :=
  str_int status ++ ", message='" ++ msg
    ++ "', url='https://api.giphy.com/v1/gifs/search'".

(** The configuration [GiphyAdapter("key")] ends up with. *)
Definition cfg : config :=
  {| api_key := "key";
     cfg_limit := VInt 10;
     cfg_rating := VStr "pg";
     cfg_lang := VStr "en";
     timeout := 5;
     retry_attempts := 3;
     retry_delay := 1;
     max_concurrent_requests := 100 |}.

(** [GiphyAdapter("test_api_key", timeout=1.0, retry_attempts=1)], the
    adapter of the test suite. *)
Definition test_cfg : config :=
  {| api_key := "test_api_key";
     cfg_limit := VInt 10;
     cfg_rating := VStr "pg";
     cfg_lang := VStr "en";
     timeout := 1;
     retry_attempts := 1;
     retry_delay := 1;
     max_concurrent_requests := 100 |}.

(** Every connection attempt fails below HTTP; the texts differ so that
    the attempts can be told apart. *)
Definition unreachable (n : nat) : http_outcome :=
  Raises (ClientError ("Cannot connect to host api.giphy.com, try "
                         ++ str_int (Z.of_nat n + 1))).

(** Every request is answered with the same status line and JSON body. *)
Definition always (status : Z) (reason : string) (body : value)
  (n : nat) : http_outcome :=
  Responds status reason (inr body).

Definition small_image (u w h : string) : value :=
  VDict [("url", VStr u); ("width", VStr w); ("height", VStr h)].

(** The record of [test_search_gifs_success]. *)
Definition test_gif : value :=
  VDict
    [("id", VStr "test123");
     ("title", VStr "Test GIF");
     ("url", VStr "https://giphy.com/gifs/test123");
     ("rating", VStr "pg");
     ("import_datetime", VStr "2024-01-01 12:00:00");
     ("tags", VList [VStr "test"; VStr "funny"]);
     ("images",
      VDict
        [("original",
          VDict [("url", VStr "https://media.giphy.com/test.gif");
                 ("width", VStr "480");
                 ("height", VStr "270");
                 ("size", VStr "1000000")]);
         ("fixed_height_small",
          small_image "https://media.giphy.com/test_small.gif" "200" "113");
         ("fixed_height_small_still",
          small_image "https://media.giphy.com/test_thumb.gif" "200" "113")])].

(** What [test_gif] is transformed into. *)
Definition test_item : GifData :=
  {| id := VStr "test123";
     title := VStr "Test GIF";
     gif_url := VStr "https://giphy.com/gifs/test123";
     rating := VStr "pg";
     created_at := VStr "2024-01-01 12:00:00";
     tags := VList [VStr "test"; VStr "funny"];
     original := {| url := VStr "https://media.giphy.com/test.gif";
                    width := 480; height := 270; size := 1000000 |};
     preview := {| url := VStr "https://media.giphy.com/test_small.gif";
                   width := 200; height := 113; size := 0 |};
     thumbnail := {| url := VStr "https://media.giphy.com/test_thumb.gif";
                     width := 200; height := 113; size := 0 |} |}.

(** A record with only an [original] section, whose width is [w]. *)
Definition gif_with_width (w : value) : value :=
  VDict
    [("id", VStr "broken");
     ("images",
      VDict [("original",
              VDict [("url", VStr "https://media.giphy.com/b.gif");
                     ("width", w);
                     ("height", VStr "270")])])].

(** A record that has no image sections. *)
Definition bare_gif : value :=
  VDict [("id", VStr "bare"); ("title", VStr "No images")].

Definition envelope (records : list value) (declared : Z) (off : Z) : value :=
  VDict
    [("data", VList records);
     ("pagination",
      VDict [("total_count", VInt 100);
             ("count", VInt declared);
             ("offset", VInt off)]);
     ("meta", VDict [("status", VInt 200); ("msg", VStr "OK")])].

(** A 200 response whose body reports a failure of its own. *)
Definition rate_limited : value :=
  VDict [("data", VList []);
         ("meta", VDict [("status", VInt 429); ("msg", VStr "Rate limited")])].

(** Fresh worlds: one where no connection can be made, one where every
    request is answered 200 with the given body. *)
Definition offline : world := fresh unreachable 0.

Definition answering (body : value) : world := fresh (always 200 "OK" body) 0.

(** Caller options that ask for a page far beyond the maximum. *)
Definition greedy : options :=
  {| o_limit := Some (VInt 100);
     o_offset := Some (VInt 7);
     o_rating := None;
     o_lang := None |}.

(** Runs on the stand-in [str] methods. *)
Definition search (query : value) (opts : options) (w : world) :=
  search_gifs (py := Plain.methods) repr response_error_str cfg query opts w.

Definition single (query : value) (opts : options) (w : world) :=
  get_random_gif (py := Plain.methods) repr response_error_str cfg query opts w.

End Sample.

(* ===================================================================== *)
(** ** Notions the properties are stated with                            *)
(* ===================================================================== *)

(** None of these is part of the program: they name the worlds a run passes
    through, the arguments a search accepts, and the envelopes it may
    return. *)
Module Notions.
Import Py Models Utils World GiphyAdapter.

(** The world right after one more GET, and after one more sleep. *)
Definition after_get (url : string) (params : list (string * value))
  (w : world) : world :=
  {| upstream := upstream w;
     sent := S (sent w);
     log := log w ++ [Get url params];
     clock := clock w |}.

Definition after_sleep (d : Q) (w : world) : world :=
  {| upstream := upstream w;
     sent := sent w;
     log := log w ++ [Sleep d];
     clock := clock w |}.

(** The back-off step between two attempts. *)
Definition after_backoff (cfg : config) (attempt : Z) (w : world) : world :=
  if attempt <? retry_attempts cfg then
    after_sleep (retry_delay cfg * inject_Z attempt)%Q w
  else w.

(** The dictionary [search_gifs] hands to [_make_request]. *)
Definition search_params (cfg : config) (q l : value) (opts : options)
  : list (string * value) :=
  [("q", q);
   ("limit", l);
   ("offset", opt_get (o_offset opts) (VInt 0));
   ("rating", opt_get (o_rating opts) (cfg_rating cfg));
   ("lang", opt_get (o_lang opts) (cfg_lang cfg))].

(** The options [get_random_gif] passes on. *)
Definition forced (opts : options) : options :=
  {| o_limit := Some (VInt 1);
     o_offset := Some (VInt 0);
     o_rating := o_rating opts;
     o_lang := o_lang opts |}.

Definition no_gif_found : AdapterResponse :=
  {| success := true;
     data := NoData;
     pagination := None;
     message := "No GIF found for query";
     error := None |}.

(** The image of a section that is not there. *)
Definition blank_image : GifImage :=
  {| url := VStr ""; width := 0; height := 0; size := 0 |}.

(** The preconditions of a search, on the values the checks look at: the
    query, and the limit, offset and rating after the defaults are filled
    in.  A limit above 50 is no violation: it is clamped before the check,
    be it an integer or a float. *)
Definition query_ok (query : value) : bool :=
  match query with
  | VStr s => negb (s =? "")%string
  | _ => false
  end.

Definition limit_ok (limit : value) : bool :=
  match limit with
  | VFloat f => float_gt_int f 50
  | _ =>
      match int_of limit with
      | Some z => 1 <=? z
      | None => false
      end
  end.

Definition offset_ok (offset : value) : bool :=
  match int_of offset with
  | Some z => 0 <=? z
  | None => false
  end.

Definition rating_ok (rating : value) : bool :=
  match rating with
  | VStr s => existsb (String.eqb s) valid_ratings
  | _ => false
  end.

(** A limit that can be compared with 50 and is then turned down: an
    integer below 1, or a float that is not above 50. *)
Definition limit_too_low (limit : value) : bool :=
  match limit with
  | VFloat f => negb (float_gt_int f 50)
  | _ =>
      match int_of limit with
      | Some z => z <? 1
      | None => false
      end
  end.

(** Values that can be looked up in a set. *)
Definition hashable (v : value) : bool :=
  match v with
  | VList _ | VDict _ => false
  | _ => true
  end.

(** A failure carries no data (and no pagination) but an error; a success
    carries no error. *)
Definition envelope_ok (r : AdapterResponse) : Prop :=
  (success r = false ->
   data r = NoData /\ pagination r = None /\ error r <> None)
  /\ (success r = true -> error r = None).

(** [record['images'][key][name]], each step with its default: the upstream
    value an image field is read from. *)
Definition upstream_field (record : value) (key name : string)
  (default : value) : result value :=
  rbind (get record "images" (VDict [])) (fun images =>
  rbind (get images key (VDict [])) (fun section =>
  get section name default)).

Section Signs.

Context {py : StrMethods}.

(** The upstream value is a negative integer, a float at or below -1, or a
    string that [int] reads as a negative integer. *)
Definition sends_negative (v : value) : bool :=
  match v with
  | VInt z => z <? 0
  | VFloat (Finite q) => Qle_bool q (inject_Z (-1))
  | VStr s =>
      match int_of_str s with
      | inr z => z <? 0
      | inl _ => false
      end
  | _ => false
  end.

(** [n] is [int] of the upstream field [name] of the image section [key],
    0 standing in for a field that is not there. *)
Definition read_from (record : value) (key name : string) (n : Z) : Prop :=
  exists v,
    upstream_field record key name (VInt 0) = ok v /\ int v = ok n.

End Signs.

End Notions.


(* ===================================================================== *)
(** ** Further notions: the retry schedule, the loop over the records     *)
(* ===================================================================== *)

Module Schedule.
Import Py Models Utils World GiphyAdapter Notions.

(** What the body of the [try] in the retry loop makes of one outcome of
    [session.get]: the JSON body it returns, or the exception it raises. *)
Definition verdict (repr : value -> string) (o : http_outcome)
  : result value :=
  fst (attempt_once repr "" [] (fresh (fun _ => o) 0)).

(** The sleep that follows failed attempt number [j] (counted from 1). *)
Definition delay (cfg : config) (j : nat) : Q :=
  (retry_delay cfg * inject_Z (Z.of_nat j))%Q.

(** The sleeps after failed attempts [1 .. k]. *)
Definition backoff (cfg : config) (k : nat) : list Q :=
  map (delay cfg) (seq 1 k).

(** The parameters [_make_request] sends. *)
Definition with_key (cfg : config) (params : list (string * value))
  : list (string * value) :=
  dict_set "api_key" (VStr (api_key cfg)) params.

(** The records the loop of [_transform_response] keeps, in order. *)
Definition kept {py : StrMethods} (records : list value) : list GifData :=
  flat_map (fun r => match read_gif r with
                     | inr gif => [gif]
                     | inl _ => []
                     end) records.

(** An exception the loop of [_transform_response] swallows. *)
Definition skipped (e : exn) : bool :=
  match e with
  | ValueError _ | KeyError _ => true
  | _ => false
  end.

(** The limit is an integer between 1 and 50. *)
Definition limit_in_range (limit : value) : bool :=
  match int_of limit with
  | Some z => (1 <=? z) && (z <=? 50)
  | None => false
  end.

(** What [g] attempts in a row write to the log, the first of them being
    attempt number [a]: a request each, and a sleep of [delay a],
    [delay (a + 1)], ... between one request and the next. *)
Fixpoint trace (cfg : config) (url : string) (params : list (string * value))
  (a g : nat) : list event :=
  match g with
  | O => []
  | S O => [Get url params]
  | S g' => Get url params :: Sleep (delay cfg a) :: trace cfg url params (S a) g'
  end.

End Schedule.

(* ===================================================================== *)
(** ** Further concrete inputs                                           *)
(* ===================================================================== *)

Module Cases.
Import Py Models Utils World GiphyAdapter Lifecycle.

(** The first connection is reset, every later request is answered. *)
Definition flaky (n : nat) : http_outcome :=
  match n with
  | O => Raises (ClientError "Connection reset by peer")
  | S _ => Responds 200 "OK" (inr (Sample.envelope [Sample.test_gif] 1 0))
  end.

(** No request is answered in time. *)
Definition stalled : world := fresh (fun _ => Raises AsyncioTimeoutError) 0.

(** [GiphyAdapter("key", retry_attempts=0)] *)
Definition no_attempts : config :=
  {| api_key := "key";
     cfg_limit := VInt 10;
     cfg_rating := VStr "pg";
     cfg_lang := VStr "en";
     timeout := 5;
     retry_attempts := 0;
     retry_delay := 1;
     max_concurrent_requests := 100 |}.

(** [GifService("test_api_key")]: the adapter configuration it builds. *)
Definition service_cfg : config :=
  {| api_key := "test_api_key";
     cfg_limit := VInt 5;
     cfg_rating := VStr "pg";
     cfg_lang := VStr "en";
     timeout := 3;
     retry_attempts := 2;
     retry_delay := 1;
     max_concurrent_requests := 100 |}.

(** The upstream body with one good record and one whose width is text. *)
Definition mixed : value :=
  Sample.envelope [Sample.test_gif; Sample.gif_with_width (VStr "wide")] 2 0.

End Cases.
(* ===================================================================== *)
(** ** The built-ins and the validation on the inputs of the test suite   *)
(* ===================================================================== *)

Example int_of_string_480 : Plain.int_of_string "480" = inr 480.
Proof. reflexivity. Qed.
Example int_of_string_ws : Plain.int_of_string "  -1_000 " = inr (-1000).
Proof. reflexivity. Qed.
Example int_of_string_bad :
  Plain.int_of_string "4_"
  = inl "invalid literal for int() with base 10: '4_'".
Proof. reflexivity. Qed.
Example int_of_string_abc :
  Plain.int_of_string "abc"
  = inl "invalid literal for int() with base 10: 'abc'".
Proof. reflexivity. Qed.
Example int_of_string_empty :
  Plain.int_of_string "" = inl "invalid literal for int() with base 10: ''".
Proof. reflexivity. Qed.
Example str_int_270 : Py.str_int 270 = "270".
Proof. reflexivity. Qed.
Example strip_ex : Plain.strip "  funny cats
" = "funny cats".
Proof. reflexivity. Qed.
Example int_of_float_down : Py.int_of_float (Py.Finite (11 # 2)) = Py.ok 5.
Proof. reflexivity. Qed.
Example int_of_float_up : Py.int_of_float (Py.Finite (-11 # 2)) = Py.ok (-5).
Proof. reflexivity. Qed.
Example eq_int_float : Py.eq_int (Py.VFloat (Py.Finite (400 # 2))) 200 = true.
Proof. reflexivity. Qed.

(** The cases of [test_validate_search_params]. *)
Example validate_ok :
  Utils.validate_search_params
    [("limit", Py.VInt 10); ("offset", Py.VInt 0); ("rating", Py.VStr "pg")]
  = Py.ok tt.
Proof. reflexivity. Qed.
Example validate_limit_low :
  Utils.validate_search_params [("limit", Py.VInt 0)]
  = Py.throw (Py.ValueError "Limit must be an integer between 1 and 50").
Proof. reflexivity. Qed.
Example validate_limit_high :
  Utils.validate_search_params [("limit", Py.VInt 100)]
  = Py.throw (Py.ValueError "Limit must be an integer between 1 and 50").
Proof. reflexivity. Qed.
Example validate_limit_str :
  Utils.validate_search_params [("limit", Py.VStr "10")]
  = Py.throw (Py.ValueError "Limit must be an integer between 1 and 50").
Proof. reflexivity. Qed.
Example validate_offset_neg :
  Utils.validate_search_params [("offset", Py.VInt (-1))]
  = Py.throw (Py.ValueError "Offset must be a non-negative integer").
Proof. reflexivity. Qed.
Example validate_rating_bad :
  Utils.validate_search_params [("rating", Py.VStr "invalid")]
  = Py.throw (Py.ValueError "Rating must be one of: g, pg, pg-13, r").
Proof. reflexivity. Qed.
Example validate_edges :
  Utils.validate_search_params
    [("limit", Py.VInt 50); ("offset", Py.VInt 1000); ("rating", Py.VStr "r")]
  = Py.ok tt.
Proof. reflexivity. Qed.

Example read_test_gif :
  GiphyAdapter.read_gif (py := Plain.methods) Sample.test_gif
  = Py.ok Sample.test_item.
Proof. reflexivity. Qed.

(* ===================================================================== *)
(** ** Properties                                                        *)
(* ===================================================================== *)

Section Properties.
Import Py Models Utils World GiphyAdapter Notions.

Context {py : StrMethods}.
Variable repr : value -> string.
Variable response_error_str : Z -> string -> string.

Ltac case_step :=
  match goal with
  | |- context [match ?x with _ => _ end] => destruct x eqn:?; simpl
  end.

(** *** Sequencing *)

Lemma bind_lift {A B} (r : result A) (k : A -> M B) w :
  bind (lift r) k w
  = match r with
    | inl e => (inl e, w)
    | inr a => k a w
    end.
Proof. unfold bind, lift. destruct r; reflexivity. Qed.

(** *** One attempt *)

Lemma attempt_once_world url params w :
  snd (attempt_once repr url params w) = after_get url params w.
Proof.
  unfold attempt_once, bind, session_get, lift, raise, ret; simpl.
  repeat case_step; reflexivity.
Qed.

Lemma attempt_once_raises url params w e :
  upstream w (sent w) = Raises e ->
  attempt_once repr url params w = (inl e, after_get url params w).
Proof.
  intros H. unfold attempt_once, bind, session_get, raise; simpl.
  rewrite H. reflexivity.
Qed.

Lemma attempt_once_status url params w status reason body :
  upstream w (sent w) = Responds status reason body ->
  status <> 200 ->
  attempt_once repr url params w
  = (inl (ClientResponseError status
            ("HTTP " ++ str_int status ++ ": " ++ reason)),
     after_get url params w).
Proof.
  intros H Hs. unfold attempt_once, bind, session_get, raise; simpl.
  rewrite H. apply Z.eqb_neq in Hs. rewrite Hs. reflexivity.
Qed.

Lemma attempt_once_accepts url params w reason kvs meta :
  upstream w (sent w) = Responds 200 reason (inr (VDict kvs)) ->
  assoc "meta" kvs = Some (VDict meta) ->
  (exists st, assoc "status" meta = Some st /\ eq_int st 200 = true) ->
  attempt_once repr url params w
  = (inr (VDict kvs), after_get url params w).
Proof.
  intros H Hm (st & Hst & Heq).
  unfold attempt_once, bind, session_get, lift, raise, ret; simpl.
  rewrite H; simpl. rewrite Hm; simpl. rewrite Hst, Heq. reflexivity.
Qed.

(** *** The retry loop *)

Lemma retry_loop_returns cfg url params attempt rest last w data w1 :
  attempt_once repr url params w = (inr data, w1) ->
  retry_loop repr response_error_str cfg url params (attempt :: rest) last w
  = (inr data, w1).
Proof.
  intros H. simpl. unfold bind, try. rewrite H. reflexivity.
Qed.

Lemma retry_loop_retries cfg url params attempt rest last w e w1 :
  attempt_once repr url params w = (inl e, w1) ->
  retry_loop repr response_error_str cfg url params (attempt :: rest) last w
  = retry_loop repr response_error_str cfg url params rest
      (Some (recorded_error response_error_str e))
      (after_backoff cfg attempt w1).
Proof.
  intros H. simpl. unfold bind, try, after_backoff. rewrite H.
  destruct (attempt <? retry_attempts cfg); reflexivity.
Qed.

(** Whatever the loop records is a [GiphyError], a [GiphyTimeout] or an
    exception foreign to aiohttp: the three branches of [_handle_error]
    that look at aiohttp classes never see it. *)
Lemma recorded_error_class e :
  let t := classify (recorded_error response_error_str e) in
  t <> CLIENT_ERROR /\ t <> SERVER_ERROR /\ t <> NETWORK_ERROR.
Proof.
  destruct e; simpl; repeat split; discriminate.
Qed.

(** *** [search_gifs] once its arguments are accepted *)

Lemma search_gifs_unfold cfg q opts w :
  q <> "" ->
  search_gifs repr response_error_str cfg (VStr q) opts w
  = match min_50 (opt_get (o_limit opts) (cfg_limit cfg)) with
    | inl e => (inl e, w)
    | inr l =>
        let params := search_params cfg (VStr (strip q)) l opts in
        match validate_search_params params with
        | inl e => (inl e, w)
        | inr _ =>
            match _make_request repr response_error_str cfg "/search"
                    params w with
            | (inr response_data, w1) =>
                match _transform_response response_data with
                | inr response => (inr response, w1)
                | inl e => _handle_error response_error_str e "search_gifs" w1
                end
            | (inl e, w1) =>
                _handle_error response_error_str e "search_gifs" w1
            end
        end
    end.
Proof.
  intros Hq. unfold search_gifs.
  cbn [truthy isinstance_str negb orb str_strip].
  destruct (String.eqb_spec q "") as [->|_]; [contradiction|].
  cbn [negb orb].
  rewrite bind_lift. unfold ok at 1. rewrite bind_lift.
  destruct (min_50 _) as [e|l]; [reflexivity|].
  fold (search_params cfg (VStr (strip q)) l opts).
  rewrite bind_lift. cbv zeta.
  destruct (validate_search_params _) as [e|u]; [reflexivity|].
  unfold bind, try, lift.
  destruct (_make_request _ _ _ _ _ w) as [[e|d] w1]; [reflexivity|].
  destruct (_transform_response d); reflexivity.
Qed.

Lemma search_gifs_accepted cfg q opts l w :
  q <> "" ->
  min_50 (opt_get (o_limit opts) (cfg_limit cfg)) = ok l ->
  validate_search_params (search_params cfg (VStr (strip q)) l opts) = ok tt ->
  search_gifs repr response_error_str cfg (VStr q) opts w
  = match _make_request repr response_error_str cfg "/search"
            (search_params cfg (VStr (strip q)) l opts) w with
    | (inr response_data, w1) =>
        match _transform_response response_data with
        | inr response => (inr response, w1)
        | inl e => _handle_error response_error_str e "search_gifs" w1
        end
    | (inl e, w1) => _handle_error response_error_str e "search_gifs" w1
    end.
Proof.
  intros Hq Hl Hv. rewrite search_gifs_unfold by assumption.
  unfold ok in *. rewrite Hl. cbv zeta. rewrite Hv. reflexivity.
Qed.

(** C1 (defect).  With three attempts configured and a connection that
    fails below HTTP every time, [search_gifs] makes exactly three requests,
    sleeps [retry_delay * 1] and [retry_delay * 2] between them and reports
    the text of the third failure -- but the kind it reports is
    [UNKNOWN_ERROR], not [NETWORK_ERROR]: the loop has wrapped the aiohttp
    exception in a [GiphyError] before [_handle_error] sees it. *)
Theorem search_three_transport_faults_unknown_error :
  exists response w',
    search_gifs repr response_error_str Sample.cfg (VStr "funny cats")
      no_options (fresh Sample.unreachable 0)
    = (inr response, w')
    /\ success response = false
    /\ option_map err_type (error response)
       = Some (ErrorType_value UNKNOWN_ERROR)
    /\ option_map err_type (error response)
       <> Some (ErrorType_value NETWORK_ERROR)
    /\ option_map err_message (error response)
       = Some "Client error: Cannot connect to host api.giphy.com, try 3"
    /\ List.length (gets (log w')) = 3%nat
    /\ sleeps (log w')
       = [(retry_delay Sample.cfg * 1)%Q; (retry_delay Sample.cfg * 2)%Q]
    /\ (exists p, log w' = [Get (base_url ++ "/search") p;
                            Sleep (retry_delay Sample.cfg * 1)%Q;
                            Get (base_url ++ "/search") p;
                            Sleep (retry_delay Sample.cfg * 2)%Q;
                            Get (base_url ++ "/search") p]).
Proof.
  eexists. eexists. split; [ cbv; reflexivity | ].
  cbv. repeat split; try discriminate. eexists. reflexivity.
Qed.

(** C2 (defect).  A final attempt answered with HTTP 404, respectively 503,
    ends in a failure envelope of kind [UNKNOWN_ERROR] -- neither
    [CLIENT_ERROR] nor [SERVER_ERROR]: the [ClientResponseError] raised for
    the status is caught by the [except aiohttp.ClientError] clause of the
    retry loop and replaced by a [GiphyError] that carries no status. *)
Theorem search_http_status_unknown_error :
  (exists response w',
      search_gifs repr response_error_str Sample.test_cfg (VStr "funny cats")
        no_options (fresh (Sample.always 404 "Not Found" VNone) 0)
      = (inr response, w')
      /\ success response = false
      /\ option_map err_type (error response)
         = Some (ErrorType_value UNKNOWN_ERROR)
      /\ option_map err_type (error response)
         <> Some (ErrorType_value CLIENT_ERROR)
      /\ List.length (gets (log w')) = 1%nat)
  /\
  (exists response w',
      search_gifs repr response_error_str Sample.cfg (VStr "funny cats")
        no_options (fresh (Sample.always 503 "Service Unavailable" VNone) 0)
      = (inr response, w')
      /\ success response = false
      /\ option_map err_type (error response)
         = Some (ErrorType_value UNKNOWN_ERROR)
      /\ option_map err_type (error response)
         <> Some (ErrorType_value SERVER_ERROR)
      /\ List.length (gets (log w')) = 3%nat).
Proof.
  split.
  - eexists. eexists. split; [ cbv; reflexivity | ].
    cbv. repeat split; discriminate.
  - eexists. eexists. split; [ cbv; reflexivity | ].
    cbv. repeat split; discriminate.
Qed.

(** The classifier on its own does map a status to the kinds the claim
    names; the retry loop never lets such an exception through. *)
Lemma classify_status status msg :
  (400 <= status < 500 ->
   classify (ClientResponseError status msg) = CLIENT_ERROR)
  /\ (500 <= status < 600 ->
      classify (ClientResponseError status msg) = SERVER_ERROR).
Proof.
  split; intros H; simpl.
  - replace (400 <=? status) with true by (symmetry; apply Z.leb_le; lia).
    replace (status <? 500) with true by (symmetry; apply Z.ltb_lt; lia).
    reflexivity.
  - replace (400 <=? status) with true by (symmetry; apply Z.leb_le; lia).
    replace (status <? 500) with false by (symmetry; apply Z.ltb_ge; lia).
    replace (500 <=? status) with true by (symmetry; apply Z.leb_le; lia).
    replace (status <? 600) with true by (symmetry; apply Z.ltb_lt; lia).
    reflexivity.
Qed.

(** C4.  An attempt answered with HTTP 200 whose body carries a
    [meta.status] other than 200 is a failed attempt: it raises a
    [GiphyError] of its own ("Giphy API Error: ..."), which the loop records
    unchanged -- it is not the wrapped error a transport fault leaves -- and
    the loop moves on to the remaining attempts (after the back-off sleep)
    instead of returning the body. *)
Theorem api_level_error_uses_up_an_attempt
  cfg url params w reason kvs meta st attempt rest last :
  upstream w (sent w) = Responds 200 reason (inr (VDict kvs)) ->
  assoc "meta" kvs = Some (VDict meta) ->
  assoc "status" meta = Some st ->
  eq_int st 200 = false ->
  let api_error :=
    GiphyError ("Giphy API Error: "
                  ++ str repr (dict_get meta "msg" (VStr "Unknown error"))) in
  attempt_once repr url params w = (inl api_error, after_get url params w)
  /\ recorded_error response_error_str api_error = api_error
  /\ (forall e text,
         e = ClientError text \/ (exists s, e = ClientResponseError s text) ->
         recorded_error response_error_str e <> api_error)
  /\ retry_loop repr response_error_str cfg url params (attempt :: rest) last w
     = retry_loop repr response_error_str cfg url params rest (Some api_error)
         (after_backoff cfg attempt (after_get url params w)).
Proof.
  intros Hup Hmeta Hst Hne api_error.
  assert (Hone : attempt_once repr url params w
                 = (inl api_error, after_get url params w)).
  { unfold attempt_once, bind, session_get, lift, raise, ret; simpl.
    rewrite Hup; simpl. rewrite Hmeta; simpl. rewrite Hst, Hne; simpl.
    reflexivity. }
  split; [exact Hone|]. split; [reflexivity|]. split.
  - intros e text [-> | [s ->]]; simpl; unfold api_error; intros H;
      injection H; discriminate.
  - rewrite (retry_loop_retries _ _ _ _ _ _ _ _ _ Hone). reflexivity.
Qed.

(** When every attempt is answered that way the budget runs out: the
    search makes [retry_attempts] requests and returns a failure. *)
Lemma retry_loop_all_api_errors cfg url params reason kvs meta st :
  assoc "meta" kvs = Some (VDict meta) ->
  assoc "status" meta = Some st ->
  eq_int st 200 = false ->
  forall attempts last w,
    (forall n, upstream w n = Responds 200 reason (inr (VDict kvs))) ->
    attempts <> [] ->
    exists w',
      retry_loop repr response_error_str cfg url params attempts last w
      = (inl (GiphyError
                ("Giphy API Error: "
                   ++ str repr (dict_get meta "msg" (VStr "Unknown error")))),
         w')
      /\ sent w' = (sent w + List.length attempts)%nat.
Proof.
  intros Hmeta Hst Hne attempts.
  induction attempts as [|a rest IH]; intros last w Hup Hnil; [congruence|].
  assert (Hone : attempt_once repr url params w
                 = (inl (GiphyError
                           ("Giphy API Error: "
                              ++ str repr
                                   (dict_get meta "msg" (VStr "Unknown error")))),
                    after_get url params w)).
  { unfold attempt_once, bind, session_get, lift, raise, ret; simpl.
    rewrite (Hup (sent w)); simpl. rewrite Hmeta; simpl.
    rewrite Hst, Hne; simpl. reflexivity. }
  rewrite (retry_loop_retries _ _ _ _ _ _ _ _ _ Hone). simpl recorded_error.
  set (w1 := after_backoff cfg a (after_get url params w)).
  assert (Hup1 : forall n, upstream w1 n = Responds 200 reason (inr (VDict kvs))).
  { intros n. unfold w1, after_backoff.
    destruct (a <? retry_attempts cfg); simpl; apply Hup. }
  assert (Hsent : sent w1 = S (sent w)).
  { unfold w1, after_backoff. destruct (a <? retry_attempts cfg); reflexivity. }
  destruct rest as [|b rest'].
  - simpl. unfold raise. eexists. split; [reflexivity|].
    rewrite Hsent. simpl. lia.
  - destruct (IH (Some (GiphyError
                ("Giphy API Error: "
                   ++ str repr (dict_get meta "msg" (VStr "Unknown error")))))
                w1 Hup1) as (w' & Hrun & Hcount); [discriminate|].
    exists w'. split; [exact Hrun|]. rewrite Hcount, Hsent. simpl. lia.
Qed.

(** *** Arguments [search_gifs] turns down *)

Lemma query_ok_spec query :
  query_ok query = negb (negb (truthy query) || negb (isinstance_str query)).
Proof.
  destruct query as [|b|z|f|s|l|kvs]; simpl; try reflexivity.
  - destruct b; reflexivity.
  - destruct (z =? 0); reflexivity.
  - rewrite orb_true_r. reflexivity.
  - destruct (s =? "")%string; reflexivity.
  - destruct l; reflexivity.
  - destruct kvs; reflexivity.
Qed.

Lemma min_50_ok limit :
  limit_ok limit = true ->
  exists l, min_50 limit = ok l
            /\ isinstance_int l = true
            /\ lt_int l 1 = false /\ gt_int l 50 = false
            /\ (forall z, limit = VInt z -> 50 < z -> l = VInt 50).
Proof.
  unfold limit_ok, min_50, lt_int, gt_int.
  destruct limit as [|b|z|f|s|l|kvs]; simpl; try discriminate; intros H.
  - destruct b; [|discriminate]. eexists. split; [reflexivity|].
    simpl. repeat split. intros z Hz. discriminate.
  - destruct (50 <? z) eqn:Hc; eexists; (split; [reflexivity|]); simpl.
    + repeat split.
    + apply Z.leb_le in H. apply Z.ltb_ge in Hc.
      repeat split.
      * apply Z.ltb_ge. lia.
      * apply Z.ltb_ge. lia.
      * intros z' Hz Hgt. injection Hz as <-. lia.
  - rewrite H. eexists. split; [reflexivity|]. simpl.
    repeat split.
Qed.

Lemma validate_accepts q l lang offset rating :
  isinstance_int l = true -> lt_int l 1 = false -> gt_int l 50 = false ->
  offset_ok offset = true ->
  rating_ok rating = true ->
  validate_search_params
    [("q", q); ("limit", l); ("offset", offset); ("rating", rating);
     ("lang", lang)]
  = ok tt.
Proof.
  intros Hi Hl Hg Ho Hr. unfold validate_search_params, dict_get. simpl.
  rewrite Hi, Hl, Hg. simpl.
  unfold offset_ok in Ho. unfold lt_int.
  destruct offset as [|b|z|f|s|l'|kvs]; simpl in *; try discriminate.
  - destruct rating; simpl in *; try discriminate.
    rewrite Hr. destruct b; reflexivity.
  - apply Z.leb_le in Ho.
    replace (z <? 0) with false by (symmetry; apply Z.ltb_ge; lia).
    destruct rating; simpl in *; try discriminate.
    rewrite Hr. reflexivity.
Qed.

Lemma validate_unfold q l lang offset rating :
  validate_search_params
    [("q", q); ("limit", l); ("offset", offset); ("rating", rating);
     ("lang", lang)]
  = if negb (isinstance_int l) || lt_int l 1 || gt_int l 50 then
      throw (ValueError "Limit must be an integer between 1 and 50")
    else if negb (isinstance_int offset) || lt_int offset 0 then
      throw (ValueError "Offset must be a non-negative integer")
    else
      rbind (in_str_set rating valid_ratings) (fun known =>
      if negb known then
        throw (ValueError "Rating must be one of: g, pg, pg-13, r")
      else ok tt).
Proof. reflexivity. Qed.

Lemma offset_check offset :
  negb (isinstance_int offset) || lt_int offset 0 = negb (offset_ok offset).
Proof.
  unfold offset_ok, lt_int.
  destruct offset as [|b|z|f|s|l|kvs]; simpl; try reflexivity.
  - destruct b; reflexivity.
  - rewrite Z.leb_antisym, negb_involutive. reflexivity.
Qed.

Lemma validate_ok_inv q l lang offset rating :
  validate_search_params
    [("q", q); ("limit", l); ("offset", offset); ("rating", rating);
     ("lang", lang)]
  = ok tt ->
  isinstance_int l = true /\ lt_int l 1 = false /\ gt_int l 50 = false
  /\ offset_ok offset = true /\ rating_ok rating = true.
Proof.
  rewrite validate_unfold.
  destruct (isinstance_int l); cbn [negb orb]; [|discriminate].
  destruct (lt_int l 1); cbn [negb orb]; [discriminate|].
  destruct (gt_int l 50); cbn [negb orb]; [discriminate|].
  rewrite offset_check.
  destruct (offset_ok offset); cbn [negb]; [|discriminate].
  intros H. repeat split.
  unfold rating_ok. unfold in_str_set, rbind in H.
  destruct rating as [|b|z|f|s|l'|kvs]; try discriminate.
  destruct (existsb (String.eqb s) valid_ratings); [reflexivity|discriminate].
Qed.

Lemma min_50_inv limit l :
  min_50 limit = ok l -> isinstance_int l = true -> lt_int l 1 = false ->
  limit_ok limit = true.
Proof.
  unfold min_50, limit_ok, lt_int.
  destruct limit as [|b|z|f|s|l'|kvs]; simpl; try discriminate;
    intros H; injection H as <-.
  - destruct b; simpl; [reflexivity|discriminate].
  - destruct (50 <? z) eqn:Hz; simpl; intros _ Hl.
    + apply Z.leb_le. apply Z.ltb_lt in Hz. lia.
    + apply Z.leb_le. apply Z.ltb_ge in Hl. lia.
  - destruct (float_gt_int f 50); simpl; [reflexivity|discriminate].
Qed.

(** A limit that is too low gets past [min] and is turned down by the
    check. *)
Lemma min_50_too_low limit :
  limit_too_low limit = true ->
  exists l, min_50 limit = ok l
            /\ negb (isinstance_int l) || lt_int l 1 || gt_int l 50 = true.
Proof.
  unfold limit_too_low, min_50, lt_int, gt_int.
  destruct limit as [|b|z|f|s|l|kvs]; simpl; try discriminate; intros H.
  - destruct b; [discriminate|]. eexists. split; reflexivity.
  - apply Z.ltb_lt in H.
    replace (50 <? z) with false by (symmetry; apply Z.ltb_ge; lia).
    eexists. split; [reflexivity|]. simpl.
    replace (z <? 1) with true by (symmetry; apply Z.ltb_lt; lia).
    reflexivity.
  - apply negb_true_iff in H. rewrite H.
    eexists. split; reflexivity.
Qed.

(** Whatever the arguments, [search_gifs] either raises before touching the
    world, or its arguments are accepted and a request goes out. *)
Lemma search_gifs_cases cfg query opts w :
  (exists e,
      search_gifs repr response_error_str cfg query opts w = (inl e, w)
      /\ (query_ok query = false ->
          e = GiphyValidation
                "Query parameter is required and must be a string"))
  \/ (exists q l,
        query = VStr q /\ q <> ""
        /\ min_50 (opt_get (o_limit opts) (cfg_limit cfg)) = ok l
        /\ validate_search_params (search_params cfg (VStr (strip q)) l opts)
           = ok tt).
Proof.
  destruct (query_ok query) eqn:Hq.
  - destruct query as [| | | |q| |]; simpl in Hq; try discriminate.
    assert (Hne : q <> "").
    { intros ->. discriminate. }
    destruct (min_50 (opt_get (o_limit opts) (cfg_limit cfg))) as [e|l] eqn:Hl.
    + left. exists e. rewrite search_gifs_unfold, Hl by assumption.
      split; [reflexivity|discriminate].
    + destruct (validate_search_params
                  (search_params cfg (VStr (strip q)) l opts)) as [e|[]] eqn:Hv.
      * left. exists e. rewrite search_gifs_unfold, Hl by assumption.
        cbv zeta. rewrite Hv.
        split; [reflexivity|discriminate].
      * right. exists q, l. repeat split; assumption.
  - left. eexists. split; [|reflexivity].
    unfold search_gifs. rewrite query_ok_spec in Hq.
    apply negb_false_iff in Hq. rewrite Hq. reflexivity.
Qed.

(** Arguments that violate a precondition are not accepted. *)
Lemma violation_is_raised cfg query opts w :
  query_ok query = false
  \/ limit_ok (opt_get (o_limit opts) (cfg_limit cfg)) = false
  \/ offset_ok (opt_get (o_offset opts) (VInt 0)) = false
  \/ rating_ok (opt_get (o_rating opts) (cfg_rating cfg)) = false ->
  exists e,
    search_gifs repr response_error_str cfg query opts w = (inl e, w).
Proof.
  intros Hbad.
  destruct (search_gifs_cases cfg query opts w)
    as [(e & Hrun & _) | (q & l & -> & Hq & Hl & Hv)]; [eauto|].
  exfalso.
  apply validate_ok_inv in Hv. destruct Hv as (Hi & Hlt & _ & Ho & Hr).
  apply min_50_inv in Hl; [|exact Hi|exact Hlt].
  destruct Hbad as [H | [H | [H | H]]]; try congruence.
  simpl in H. destruct (String.eqb_spec q ""); [contradiction|discriminate].
Qed.

Lemma search_gifs_bad_query cfg query opts w :
  query_ok query = false ->
  search_gifs repr response_error_str cfg query opts w
  = (inl (GiphyValidation "Query parameter is required and must be a string"),
     w).
Proof.
  intros Hq. unfold search_gifs. rewrite query_ok_spec in Hq.
  apply negb_false_iff in Hq. rewrite Hq. reflexivity.
Qed.

Lemma search_gifs_low_limit cfg q opts w :
  q <> "" ->
  limit_too_low (opt_get (o_limit opts) (cfg_limit cfg)) = true ->
  search_gifs repr response_error_str cfg (VStr q) opts w
  = (inl (ValueError "Limit must be an integer between 1 and 50"), w).
Proof.
  intros Hq Hlow. rewrite search_gifs_unfold by exact Hq.
  destruct (min_50_too_low _ Hlow) as (l & -> & Hcheck).
  unfold ok. cbv beta iota zeta. unfold search_params. rewrite validate_unfold, Hcheck.
  reflexivity.
Qed.

Lemma search_gifs_bad_offset cfg q opts w :
  q <> "" ->
  limit_ok (opt_get (o_limit opts) (cfg_limit cfg)) = true ->
  offset_ok (opt_get (o_offset opts) (VInt 0)) = false ->
  search_gifs repr response_error_str cfg (VStr q) opts w
  = (inl (ValueError "Offset must be a non-negative integer"), w).
Proof.
  intros Hq Hl Ho. rewrite search_gifs_unfold by exact Hq.
  destruct (min_50_ok _ Hl) as (l & -> & Hi & Hlt & Hgt & _).
  unfold ok. cbv beta iota zeta. unfold search_params.
  rewrite validate_unfold, Hi, Hlt, Hgt, offset_check, Ho. reflexivity.
Qed.

Lemma search_gifs_bad_rating cfg q opts w :
  q <> "" ->
  limit_ok (opt_get (o_limit opts) (cfg_limit cfg)) = true ->
  offset_ok (opt_get (o_offset opts) (VInt 0)) = true ->
  rating_ok (opt_get (o_rating opts) (cfg_rating cfg)) = false ->
  hashable (opt_get (o_rating opts) (cfg_rating cfg)) = true ->
  search_gifs repr response_error_str cfg (VStr q) opts w
  = (inl (ValueError ("Rating must be one of: "
                        ++ String.concat ", " valid_ratings)), w).
Proof.
  intros Hq Hl Ho Hr Hh. rewrite search_gifs_unfold by exact Hq.
  destruct (min_50_ok _ Hl) as (l & -> & Hi & Hlt & Hgt & _).
  unfold ok. cbv beta iota zeta. unfold search_params.
  rewrite validate_unfold, Hi, Hlt, Hgt, offset_check, Ho.
  cbn [negb orb]. unfold in_str_set, rating_ok, hashable in *.
  destruct (opt_get (o_rating opts) (cfg_rating cfg));
    try discriminate; try reflexivity.
  rewrite Hr. reflexivity.
Qed.

(** C3 (as amended).  Arguments that violate a precondition make
    [search_gifs] raise to its caller, with the world untouched: no request
    is sent and nothing is slept.  An empty or non-string query raises
    [GiphyValidation]; with a query that passes, a limit below 1 raises
    [ValueError] with the text about the limit; with a limit that passes, an
    offset that is not a non-negative integer raises [ValueError] with the
    text about the offset; and with both passing, a rating outside the four
    names raises [ValueError] with the text about the rating. *)
Theorem invalid_arguments_raise_before_any_request cfg query opts w :
  let limit := opt_get (o_limit opts) (cfg_limit cfg) in
  let offset := opt_get (o_offset opts) (VInt 0) in
  let rating := opt_get (o_rating opts) (cfg_rating cfg) in
  (query_ok query = false \/ limit_ok limit = false
   \/ offset_ok offset = false \/ rating_ok rating = false ->
   exists e,
     search_gifs repr response_error_str cfg query opts w = (inl e, w))
  /\ (query_ok query = false ->
      search_gifs repr response_error_str cfg query opts w
      = (inl (GiphyValidation
                "Query parameter is required and must be a string"), w))
  /\ (query_ok query = true ->
      limit_too_low limit = true ->
      search_gifs repr response_error_str cfg query opts w
      = (inl (ValueError "Limit must be an integer between 1 and 50"), w))
  /\ (query_ok query = true ->
      limit_ok limit = true ->
      offset_ok offset = false ->
      search_gifs repr response_error_str cfg query opts w
      = (inl (ValueError "Offset must be a non-negative integer"), w))
  /\ (query_ok query = true ->
      limit_ok limit = true ->
      offset_ok offset = true ->
      rating_ok rating = false ->
      hashable rating = true ->
      exists names,
        search_gifs repr response_error_str cfg query opts w
        = (inl (ValueError ("Rating must be one of: " ++ names)), w)).
Proof.
  cbv zeta.
  assert (Hstr : query_ok query = true -> exists q, query = VStr q /\ q <> "").
  { destruct query as [| | | |q| |]; simpl; try discriminate.
    intros H. exists q. split; [reflexivity|]. intros ->. discriminate. }
  split; [apply violation_is_raised|].
  split; [apply search_gifs_bad_query|].
  split; [|split].
  - intros Hq Hlow. destruct (Hstr Hq) as (q & -> & Hne).
    apply search_gifs_low_limit; assumption.
  - intros Hq Hl Ho. destruct (Hstr Hq) as (q & -> & Hne).
    apply search_gifs_bad_offset; assumption.
  - intros Hq Hl Ho Hr Hh. destruct (Hstr Hq) as (q & -> & Hne).
    eexists. apply search_gifs_bad_rating; assumption.
Qed.

(** *** What a search writes to the log *)

Lemma gets_app l1 l2 : gets (l1 ++ l2) = (gets l1 ++ gets l2)%list.
Proof. unfold gets. apply flat_map_app. Qed.

Lemma sleeps_app l1 l2 : sleeps (l1 ++ l2) = (sleeps l1 ++ sleeps l2)%list.
Proof. unfold sleeps. apply flat_map_app. Qed.

(** Every request of one [_make_request] carries the same parameters, and
    with a non-empty list of attempts at least one request is sent. *)
Lemma retry_loop_log cfg url params attempts :
  forall last w,
  exists evs,
    log (snd (retry_loop repr response_error_str cfg url params attempts
                last w))
    = (log w ++ evs)%list
    /\ (forall p, In p (gets evs) -> p = params)
    /\ (attempts <> [] -> gets evs <> []).
Proof.
  induction attempts as [|a rest IH]; intros last w.
  - exists []. simpl. destruct last; simpl; rewrite List.app_nil_r;
      repeat split; try contradiction; congruence.
  - pose proof (attempt_once_world url params w) as Hw.
    destruct (attempt_once repr url params w) as [[e|d] w1] eqn:Hone;
      simpl in Hw; subst w1.
    + rewrite (retry_loop_retries _ _ _ _ _ _ _ _ _ Hone).
      destruct (IH (Some (recorded_error response_error_str e))
                  (after_backoff cfg a (after_get url params w)))
        as (evs & Hlog & Hall & _).
      unfold after_backoff in *.
      destruct (a <? retry_attempts cfg); simpl in Hlog.
      * exists ([Get url params]
                  ++ [Sleep (retry_delay cfg * inject_Z a)%Q] ++ evs)%list.
        rewrite Hlog, <- !List.app_assoc. split; [reflexivity|].
        split; [|discriminate].
        intros p [<-|Hin]; [reflexivity|]. apply Hall. exact Hin.
      * exists ([Get url params] ++ evs)%list.
        rewrite Hlog, <- !List.app_assoc. split; [reflexivity|].
        split; [|discriminate].
        intros p [<-|Hin]; [reflexivity|]. apply Hall. exact Hin.
    + rewrite (retry_loop_returns _ _ _ _ _ _ _ _ _ Hone). simpl.
      exists [Get url params]. split; [reflexivity|].
      split; [|discriminate].
      intros p [<-|[]]. reflexivity.
Qed.

Lemma attempt_numbers_nonempty n : 1 <= n -> attempt_numbers n <> [].
Proof.
  intros H. unfold attempt_numbers.
  destruct (Z.to_nat n) eqn:Hn; [lia|]. discriminate.
Qed.

(** The requests of one search all carry the limit and the offset
    [search_gifs] settled on. *)
Lemma search_gifs_log cfg query opts w :
  exists evs,
    log (snd (search_gifs repr response_error_str cfg query opts w))
    = (log w ++ evs)%list
    /\ (forall p, In p (gets evs) ->
          assoc "offset" p = Some (opt_get (o_offset opts) (VInt 0))
          /\ exists l,
               min_50 (opt_get (o_limit opts) (cfg_limit cfg)) = ok l
               /\ assoc "limit" p = Some l)
    /\ (query_ok query = true ->
        limit_ok (opt_get (o_limit opts) (cfg_limit cfg)) = true ->
        offset_ok (opt_get (o_offset opts) (VInt 0)) = true ->
        rating_ok (opt_get (o_rating opts) (cfg_rating cfg)) = true ->
        1 <= retry_attempts cfg ->
        gets evs <> []
        /\ exists response,
             fst (search_gifs repr response_error_str cfg query opts w)
             = inr response).
Proof.
  destruct (search_gifs_cases cfg query opts w)
    as [(e & Hrun & Hq) | (q & l & -> & Hq & Hl & Hv)].
  - exists []. rewrite Hrun. simpl. rewrite List.app_nil_r.
    split; [reflexivity|]. split; [intros p []|].
    intros H1 H2 H3 H4 _. exfalso.
    (* the arguments are fine, so the search cannot have raised *)
    destruct query as [| | | |q| |]; simpl in H1; try discriminate.
    assert (Hne : q <> "") by (intros ->; discriminate).
    destruct (min_50_ok _ H2) as (l & Hl & Hi & Hlt & Hgt & _).
    pose proof (validate_accepts (VStr (strip q)) l
                  (opt_get (o_lang opts) (cfg_lang cfg)) _ _
                  Hi Hlt Hgt H3 H4) as Hv.
    rewrite (search_gifs_accepted cfg q opts l w Hne Hl Hv) in Hrun.
    destruct (_make_request _ _ _ _ _ w) as [[e1|d] w1].
    + discriminate.
    + destruct (_transform_response d); discriminate.
  - rewrite (search_gifs_accepted cfg q opts l w Hq Hl Hv).
    unfold _make_request.
    set (params := dict_set "api_key" (VStr (api_key cfg))
                     (search_params cfg (VStr (strip q)) l opts)).
    destruct (retry_loop_log cfg (base_url ++ "/search") params
                (attempt_numbers (retry_attempts cfg)) None w)
      as (evs & Hlog & Hall & Hne).
    exists evs.
    destruct (retry_loop _ _ _ _ _ _ _ w) as [[e|d] w1]; simpl in Hlog.
    + simpl. split; [exact Hlog|]. split.
      * intros p Hin. rewrite (Hall p Hin). split; [reflexivity|].
        exists l. split; [exact Hl|reflexivity].
      * intros _ _ _ _ Hn. split.
        -- apply Hne, attempt_numbers_nonempty, Hn.
        -- eexists. reflexivity.
    + destruct (_transform_response d) as [e|r]; simpl.
      * split; [exact Hlog|]. split.
        -- intros p Hin. rewrite (Hall p Hin). split; [reflexivity|].
           exists l. split; [exact Hl|reflexivity].
        -- intros _ _ _ _ Hn. split.
           ++ apply Hne, attempt_numbers_nonempty, Hn.
           ++ eexists. reflexivity.
      * split; [exact Hlog|]. split.
        -- intros p Hin. rewrite (Hall p Hin). split; [reflexivity|].
           exists l. split; [exact Hl|reflexivity].
        -- intros _ _ _ _ Hn. split.
           ++ apply Hne, attempt_numbers_nonempty, Hn.
           ++ eexists. reflexivity.
Qed.

(** *** Reading image sections *)

Lemma read_image_section imgs key sec with_size :
  assoc key imgs = Some (VDict sec) ->
  read_image (VDict imgs) key with_size
  = rbind (int (dict_get sec "width" (VInt 0))) (fun w =>
    rbind (int (dict_get sec "height" (VInt 0))) (fun h =>
    rbind (if with_size then int (dict_get sec "size" (VInt 0))
           else ok 0) (fun s =>
    ok {| url := dict_get sec "url" (VStr "");
          width := w; height := h; size := s |}))).
Proof.
  intros H. unfold read_image, get, dict_get, rbind, ok. rewrite H.
  destruct with_size; reflexivity.
Qed.

Lemma read_image_missing imgs key with_size :
  assoc key imgs = None ->
  read_image (VDict imgs) key with_size
  = ok {| url := VStr ""; width := 0; height := 0; size := 0 |}.
Proof.
  intros H. unfold read_image, get, rbind, ok. rewrite H. simpl.
  destruct with_size; reflexivity.
Qed.

(** The same with the defaults of [dict.get] folded in. *)
Lemma read_image_dict imgs key sec with_size :
  dict_get imgs key (VDict []) = VDict sec ->
  read_image (VDict imgs) key with_size
  = rbind (int (dict_get sec "width" (VInt 0))) (fun w =>
    rbind (int (dict_get sec "height" (VInt 0))) (fun h =>
    rbind (if with_size then int (dict_get sec "size" (VInt 0))
           else ok 0) (fun s =>
    ok {| url := dict_get sec "url" (VStr "");
          width := w; height := h; size := s |}))).
Proof.
  unfold dict_get. destruct (assoc key imgs) as [v|] eqn:Hk.
  - intros ->. apply read_image_section. exact Hk.
  - intros H. injection H as <-. rewrite (read_image_missing _ _ _ Hk).
    destruct with_size; reflexivity.
Qed.

(** What a readable image was read from. *)
Lemma read_image_inv images key with_size img :
  read_image images key with_size = ok img ->
  exists imgs sec,
    images = VDict imgs
    /\ dict_get imgs key (VDict []) = VDict sec
    /\ url img = dict_get sec "url" (VStr "")
    /\ int (dict_get sec "width" (VInt 0)) = ok (width img)
    /\ int (dict_get sec "height" (VInt 0)) = ok (height img)
    /\ (if with_size then int (dict_get sec "size" (VInt 0)) = ok (size img)
        else size img = 0).
Proof.
  destruct images as [| | | | | |imgs];
    try (unfold read_image, get, rbind, throw; discriminate).
  destruct (dict_get imgs key (VDict [])) as [| | | | | |sec] eqn:Hsec;
    try (unfold read_image, get, rbind, throw, ok, dict_get in *;
         rewrite Hsec; discriminate).
  rewrite (read_image_dict _ _ _ _ Hsec). unfold rbind.
  destruct (int (dict_get sec "width" (VInt 0))) as [e|a] eqn:Ha;
    [discriminate|].
  destruct (int (dict_get sec "height" (VInt 0))) as [e|b] eqn:Hb;
    [discriminate|].
  destruct with_size.
  - destruct (int (dict_get sec "size" (VInt 0))) as [e|c] eqn:Hc;
      [discriminate|].
    intros H. injection H as <-. exists imgs, sec. repeat split; assumption.
  - intros H. injection H as <-. exists imgs, sec. repeat split; assumption.
Qed.

Lemma read_gif_unfold kvs :
  read_gif (VDict kvs)
  = let images := dict_get kvs "images" (VDict []) in
    rbind (read_image images "original" true) (fun o =>
    rbind (read_image images "fixed_height_small" false) (fun p =>
    rbind (read_image images "fixed_height_small_still" false) (fun s =>
    ok {| id := dict_get kvs "id" (VStr "");
          title := dict_get kvs "title" (VStr "");
          gif_url := dict_get kvs "url" (VStr "");
          rating := dict_get kvs "rating" (VStr "");
          created_at := dict_get kvs "import_datetime" (VStr "");
          tags := dict_get kvs "tags" (VList []);
          original := o; preview := p; thumbnail := s |}))).
Proof. reflexivity. Qed.

(** What a readable record was read from. *)
Lemma read_gif_inv record item :
  read_gif record = ok item ->
  exists kvs,
    record = VDict kvs
    /\ id item = dict_get kvs "id" (VStr "")
    /\ title item = dict_get kvs "title" (VStr "")
    /\ gif_url item = dict_get kvs "url" (VStr "")
    /\ rating item = dict_get kvs "rating" (VStr "")
    /\ created_at item = dict_get kvs "import_datetime" (VStr "")
    /\ tags item = dict_get kvs "tags" (VList [])
    /\ read_image (dict_get kvs "images" (VDict [])) "original" true
       = ok (original item)
    /\ read_image (dict_get kvs "images" (VDict [])) "fixed_height_small"
         false
       = ok (preview item)
    /\ read_image (dict_get kvs "images" (VDict []))
         "fixed_height_small_still" false
       = ok (thumbnail item).
Proof.
  destruct record as [| | | | | |kvs];
    try (unfold read_gif, get, rbind, throw; discriminate).
  rewrite read_gif_unfold. cbv zeta. unfold rbind.
  destruct (read_image _ "original" true) as [e|o] eqn:Ho; [discriminate|].
  destruct (read_image _ "fixed_height_small" false) as [e|p] eqn:Hp;
    [discriminate|].
  destruct (read_image _ "fixed_height_small_still" false) as [e|s] eqn:Hs;
    [discriminate|].
  intros H. injection H as <-. exists kvs. repeat split; assumption.
Qed.

(** *** [get_random_gif] *)

Lemma get_random_gif_unfold cfg query opts w :
  get_random_gif repr response_error_str cfg query opts w
  = match search_gifs repr response_error_str cfg query (forced opts) w with
    | (inl e, w') => (inl e, w')
    | (inr result, w') =>
        (inr (if success result && payload_truthy (data result) then
                {| success := true;
                   data := match data result with
                           | GifList (first :: _) => OneGif first
                           | d => d
                           end;
                   pagination := None;
                   message := "GIF found";
                   error := None |}
              else no_gif_found),
         w')
    end.
Proof.
  unfold get_random_gif, bind. fold (forced opts).
  destruct (search_gifs _ _ cfg query (forced opts) w) as [[e|r] w'];
    [reflexivity|].
  destruct (success r && payload_truthy (data r)); reflexivity.
Qed.

(** C7.  [get_random_gif] is a search with [limit = 1] and [offset = 0],
    whatever limit and offset the caller passed: it leaves the world the
    delegated search leaves, every request it sends carries that limit and
    that offset, an exception of the search is passed on, and a successful
    search with no item gives the success envelope with no data and the
    note "No GIF found for query". *)
Theorem get_random_gif_delegates cfg query opts w :
  snd (get_random_gif repr response_error_str cfg query opts w)
  = snd (search_gifs repr response_error_str cfg query (forced opts) w)
  /\ (exists evs,
        log (snd (get_random_gif repr response_error_str cfg query opts w))
        = (log w ++ evs)%list
        /\ forall p, In p (gets evs) ->
             assoc "limit" p = Some (VInt 1)
             /\ assoc "offset" p = Some (VInt 0))
  /\ (forall e w',
        search_gifs repr response_error_str cfg query (forced opts) w
        = (inl e, w') ->
        get_random_gif repr response_error_str cfg query opts w = (inl e, w'))
  /\ (forall result w',
        search_gifs repr response_error_str cfg query (forced opts) w
        = (inr result, w') ->
        success result = true ->
        data result = GifList [] ->
        get_random_gif repr response_error_str cfg query opts w
        = (inr no_gif_found, w')
        /\ success no_gif_found = true).
Proof.
  assert (Hsnd :
    snd (get_random_gif repr response_error_str cfg query opts w)
    = snd (search_gifs repr response_error_str cfg query (forced opts) w)).
  { rewrite get_random_gif_unfold.
    destruct (search_gifs _ _ cfg query (forced opts) w) as [[e|r] w'];
      reflexivity. }
  split; [exact Hsnd|]. split; [|split].
  - rewrite Hsnd.
    destruct (search_gifs_log cfg query (forced opts) w)
      as (evs & Hlog & Hall & _).
    exists evs. split; [exact Hlog|].
    intros p Hin. destruct (Hall p Hin) as (Hoff & l & Hl & Hp).
    simpl in Hoff, Hl. injection Hl as <-. split; assumption.
  - intros e w' Hrun. rewrite get_random_gif_unfold, Hrun. reflexivity.
  - intros result w' Hrun Hs Hd.
    rewrite get_random_gif_unfold, Hrun, Hs, Hd. split; reflexivity.
Qed.

(** C10.  [get_random_gif] never returns a failure envelope: whatever it
    returns has [success = True] and no error, and a failure envelope of the
    delegated search is replaced by the success envelope with no data and
    the note "No GIF found for query" -- kind and message are gone. *)
Theorem get_random_gif_never_returns_failure cfg query opts w :
  (forall response w',
      get_random_gif repr response_error_str cfg query opts w
      = (inr response, w') ->
      success response = true /\ error response = None)
  /\ (forall result w',
        search_gifs repr response_error_str cfg query (forced opts) w
        = (inr result, w') ->
        success result = false ->
        get_random_gif repr response_error_str cfg query opts w
        = (inr no_gif_found, w')
        /\ error no_gif_found = None
        /\ message no_gif_found = "No GIF found for query").
Proof.
  split.
  - intros response w'. rewrite get_random_gif_unfold.
    destruct (search_gifs _ _ cfg query (forced opts) w) as [[e|r] w1];
      [discriminate|].
    intros H. injection H as <- _.
    destruct (success r && payload_truthy (data r)); split; reflexivity.
  - intros result w' Hrun Hs.
    rewrite get_random_gif_unfold, Hrun, Hs. repeat split.
Qed.

(** *** [_transform_response] *)

Lemma transform_response_unfold body records pag :
  assoc "data" body = Some (VList records) ->
  assoc "pagination" body = Some (VDict pag) \/
  (assoc "pagination" body = None /\ pag = []) ->
  _transform_response (VDict body)
  = rbind (read_gifs records []) (fun gifs =>
    ok {| success := true;
          data := GifList gifs;
          pagination :=
            Some {| total := dict_get pag "total_count" (VInt 0);
                    count := dict_get pag "count" (VInt 0);
                    offset := dict_get pag "offset" (VInt 0) |};
          message := "Found " ++ str_int (Z.of_nat (List.length gifs))
                       ++ " GIFs";
          error := None |}).
Proof.
  intros Hd Hp. unfold _transform_response, get, iter, rbind, ok, dict_get.
  rewrite Hd. destruct (read_gifs records []); [reflexivity|].
  destruct Hp as [-> | [-> ->]]; reflexivity.
Qed.

Lemma read_gifs_keeps gif_data gif rest gifs :
  read_gif gif_data = ok gif ->
  read_gifs (gif_data :: rest) gifs
  = read_gifs rest (gifs ++ [gif]).
Proof. intros H. simpl. rewrite H. reflexivity. Qed.

Lemma read_gifs_skips gif_data text rest gifs :
  read_gif gif_data = throw (ValueError text) ->
  read_gifs (gif_data :: rest) gifs = read_gifs rest gifs.
Proof. intros H. simpl. rewrite H. reflexivity. Qed.

(** Any exception other than [ValueError] and [KeyError] leaves the loop. *)
Lemma read_gifs_propagates gif_data e rest gifs :
  read_gif gif_data = throw e ->
  (forall t, e <> ValueError t) -> (forall t, e <> KeyError t) ->
  read_gifs (gif_data :: rest) gifs = throw e.
Proof.
  intros H Hv Hk. simpl. rewrite H. unfold throw.
  destruct e; try reflexivity; [destruct (Hv text) | destruct (Hk text)];
    reflexivity.
Qed.

(** C8.  An image section that is missing reads as the image with an empty
    URL and zero width, height and size; a record with none of the three
    sections (or with no [images] entry at all) is transformed into an item
    with three such images, the loop keeps it, and a response made of that
    record is a success with that one item. *)
Theorem missing_image_sections_default kvs :
  (forall imgs key with_size,
      assoc key imgs = None ->
      read_image (VDict imgs) key with_size = ok blank_image)
  /\ (assoc "images" kvs = None
      \/ (exists imgs,
            assoc "images" kvs = Some (VDict imgs)
            /\ assoc "original" imgs = None
            /\ assoc "fixed_height_small" imgs = None
            /\ assoc "fixed_height_small_still" imgs = None) ->
      exists gif,
        read_gif (VDict kvs) = ok gif
        /\ original gif = blank_image
        /\ preview gif = blank_image
        /\ thumbnail gif = blank_image
        /\ (forall rest gifs,
              read_gifs (VDict kvs :: rest) gifs
              = read_gifs rest (gifs ++ [gif]))
        /\ (forall body pag,
              assoc "data" body = Some (VList [VDict kvs]) ->
              assoc "pagination" body = Some (VDict pag) ->
              exists response,
                _transform_response (VDict body) = ok response
                /\ success response = true
                /\ data response = GifList [gif])).
Proof.
  split; [intros imgs key with_size; apply read_image_missing|].
  intros Hmissing.
  assert (Hread : exists gif,
             read_gif (VDict kvs) = ok gif
             /\ original gif = blank_image
             /\ preview gif = blank_image
             /\ thumbnail gif = blank_image).
  { unfold read_gif, get. unfold rbind at 1, ok at 1.
    destruct Hmissing as [-> | (imgs & -> & Ho & Hp & Ht)].
    - rewrite !read_image_missing by reflexivity.
      eexists. split; [reflexivity|]. repeat split.
    - rewrite !read_image_missing by assumption.
      eexists. split; [reflexivity|]. repeat split. }
  destruct Hread as (gif & Hgif & Ho & Hp & Ht).
  exists gif. repeat split; try assumption.
  - intros rest gifs. apply read_gifs_keeps, Hgif.
  - intros body pag Hd Hpag.
    rewrite (transform_response_unfold body _ pag Hd (or_introl Hpag)).
    rewrite (read_gifs_keeps _ _ _ _ Hgif). simpl.
    eexists. split; [reflexivity|]. split; reflexivity.
Qed.

(** *** A search whose first request is answered *)

Lemma attempt_numbers_first n :
  1 <= n -> exists rest, attempt_numbers n = 1 :: rest.
Proof.
  intros H. unfold attempt_numbers.
  destruct (Z.to_nat n) eqn:Hn; [lia|]. simpl. eauto.
Qed.

Lemma make_request_first_answer cfg endpoint params w reason kvs meta :
  1 <= retry_attempts cfg ->
  upstream w (sent w) = Responds 200 reason (inr (VDict kvs)) ->
  assoc "meta" kvs = Some (VDict meta) ->
  (exists st, assoc "status" meta = Some st /\ eq_int st 200 = true) ->
  _make_request repr response_error_str cfg endpoint params w
  = (inr (VDict kvs),
     after_get (base_url ++ endpoint)
       (dict_set "api_key" (VStr (api_key cfg)) params) w).
Proof.
  intros Hn Hup Hmeta Hst. unfold _make_request.
  destruct (attempt_numbers_first _ Hn) as (rest & ->).
  apply retry_loop_returns.
  apply attempt_once_accepts with (reason := reason) (meta := meta);
    assumption.
Qed.

(** A field for which [int] raises [ValueError]: a string that is not an
    integer literal. *)
Lemma read_gif_bad_width kvs imgs sec s text :
  assoc "images" kvs = Some (VDict imgs) ->
  assoc "original" imgs = Some (VDict sec) ->
  assoc "width" sec = Some (VStr s) ->
  int_of_str s = inl text ->
  read_gif (VDict kvs) = throw (ValueError text).
Proof.
  intros Hi Ho Hw Hs. rewrite read_gif_unfold. unfold dict_get at 1.
  rewrite Hi. cbv zeta. rewrite (read_image_section _ _ _ _ Ho).
  unfold dict_get at 1. rewrite Hw. unfold int at 1. rewrite Hs. reflexivity.
Qed.

(** A field for which [int] raises [TypeError]: [null]. *)
Lemma read_gif_null_width kvs imgs sec :
  assoc "images" kvs = Some (VDict imgs) ->
  assoc "original" imgs = Some (VDict sec) ->
  assoc "width" sec = Some VNone ->
  read_gif (VDict kvs)
  = throw (TypeError
             "int() argument must be a string, a bytes-like object or a real number, not 'NoneType'").
Proof.
  intros Hi Ho Hw. rewrite read_gif_unfold. unfold dict_get at 1.
  rewrite Hi. cbv zeta. rewrite (read_image_section _ _ _ _ Ho).
  unfold dict_get at 1. rewrite Hw. reflexivity.
Qed.

(** An accepted search whose first request is answered with a body that
    passes the status checks. *)
Lemma search_gifs_first_answer cfg q opts l w reason body meta :
  q <> "" ->
  min_50 (opt_get (o_limit opts) (cfg_limit cfg)) = ok l ->
  validate_search_params (search_params cfg (VStr (strip q)) l opts) = ok tt ->
  1 <= retry_attempts cfg ->
  upstream w (sent w) = Responds 200 reason (inr (VDict body)) ->
  assoc "meta" body = Some (VDict meta) ->
  assoc "status" meta = Some (VInt 200) ->
  let w1 := after_get (base_url ++ "/search")
              (dict_set "api_key" (VStr (api_key cfg))
                 (search_params cfg (VStr (strip q)) l opts)) w in
  search_gifs repr response_error_str cfg (VStr q) opts w
  = match _transform_response (VDict body) with
    | inr response => (inr response, w1)
    | inl e => _handle_error response_error_str e "search_gifs" w1
    end.
Proof.
  intros Hq Hl Hv Hn Hup Hmeta Hst w1.
  rewrite (search_gifs_accepted cfg q opts l w Hq Hl Hv).
  rewrite (make_request_first_answer cfg "/search" _ w reason body meta
             Hn Hup Hmeta)
    by (exists (VInt 200); split; [exact Hst|reflexivity]).
  reflexivity.
Qed.

(** C5 (defect).  The loop of [_transform_response] is written to skip a
    record that cannot be parsed: when the first request of an accepted
    search is answered with two records, one that transforms cleanly and one
    for which an [int(...)] raises [ValueError], the search returns a success
    with exactly the clean item, the note "Found 1 GIFs" and the pagination
    count the upstream declared.  But a field that fails integer coercion
    with a [TypeError] -- a width of [null] -- is not caught: on such an
    answer the whole search is a failure of kind [UNKNOWN_ERROR] that carries
    no item, although the other record is fine. *)
Theorem null_width_fails_the_whole_search
  cfg q opts l w reason body meta pag good bad item :
  q <> "" ->
  min_50 (opt_get (o_limit opts) (cfg_limit cfg)) = ok l ->
  validate_search_params (search_params cfg (VStr (strip q)) l opts) = ok tt ->
  1 <= retry_attempts cfg ->
  upstream w (sent w) = Responds 200 reason (inr (VDict body)) ->
  assoc "meta" body = Some (VDict meta) ->
  assoc "status" meta = Some (VInt 200) ->
  assoc "data" body = Some (VList [good; VDict bad])
  \/ assoc "data" body = Some (VList [VDict bad; good]) ->
  assoc "pagination" body = Some (VDict pag) ->
  assoc "count" pag = Some (VInt 2) ->
  read_gif good = ok item ->
  (forall text,
      read_gif (VDict bad) = throw (ValueError text) ->
      exists response w',
        search_gifs repr response_error_str cfg (VStr q) opts w
        = (inr response, w')
        /\ success response = true
        /\ data response = GifList [item]
        /\ option_map count (pagination response) = Some (VInt 2)
        /\ message response = "Found 1 GIFs"
        /\ error response = None
        /\ sent w' = S (sent w))
  /\ (forall imgs sec,
        assoc "images" bad = Some (VDict imgs) ->
        assoc "original" imgs = Some (VDict sec) ->
        assoc "width" sec = Some VNone ->
        exists info response w',
          search_gifs repr response_error_str cfg (VStr q) opts w
          = (inr response, w')
          /\ success response = false
          /\ data response = NoData
          /\ pagination response = None
          /\ error response = Some info
          /\ err_type info = ErrorType_value UNKNOWN_ERROR
          /\ err_message info
             = "int() argument must be a string, a bytes-like object or a real number, not 'NoneType'"
          /\ sent w' = S (sent w)).
Proof.
  intros Hq Hl Hv Hn Hup Hmeta Hst Hdata Hpag Hcount Hgood.
  rewrite (search_gifs_first_answer cfg q opts l w reason body meta
             Hq Hl Hv Hn Hup Hmeta Hst).
  cbv zeta. split.
  - intros text Hbad.
    assert (Hgifs : exists records,
               assoc "data" body = Some (VList records)
               /\ read_gifs records [] = ok [item]).
    { destruct Hdata as [Hd|Hd]; eexists; (split; [exact Hd|]).
      - rewrite (read_gifs_keeps _ _ _ _ Hgood).
        rewrite (read_gifs_skips _ _ _ _ Hbad). reflexivity.
      - rewrite (read_gifs_skips _ _ _ _ Hbad).
        rewrite (read_gifs_keeps _ _ _ _ Hgood). reflexivity. }
    destruct Hgifs as (records & Hd & Hread).
    rewrite (transform_response_unfold body records pag Hd (or_introl Hpag)).
    rewrite Hread. unfold rbind, ok.
    eexists. eexists. split; [reflexivity|]. simpl.
    repeat split. unfold dict_get. rewrite Hcount. reflexivity.
  - intros imgs sec Hi Ho Hw.
    pose proof (read_gif_null_width bad imgs sec Hi Ho Hw) as Hbad.
    assert (Hgifs : exists records,
               assoc "data" body = Some (VList records)
               /\ read_gifs records []
                  = throw (TypeError
                             "int() argument must be a string, a bytes-like object or a real number, not 'NoneType'")).
    { destruct Hdata as [Hd|Hd]; eexists; (split; [exact Hd|]).
      - rewrite (read_gifs_keeps _ _ _ _ Hgood).
        apply (read_gifs_propagates _ _ _ _ Hbad); discriminate.
      - apply (read_gifs_propagates _ _ _ _ Hbad); discriminate. }
    destruct Hgifs as (records & Hd & Hread).
    rewrite (transform_response_unfold body records pag Hd (or_introl Hpag)).
    rewrite Hread. unfold rbind, throw.
    eexists. eexists. eexists. split; [reflexivity|]. simpl.
    repeat split.
Qed.

(** C6.  A limit above 50 is cut down to 50 before the check, the check
    accepts it, and every request of the search carries [limit = 50].  And
    when the first request of such a search is answered with one record
    whose original width and height are strings that [int] reads as [a] and
    [b], the search returns a success with exactly one item, and the
    original image of that item has width [a] and height [b]. *)
Theorem limit_above_50_is_clamped cfg q opts z w :
  q <> "" ->
  o_limit opts = Some (VInt z) ->
  50 < z ->
  offset_ok (opt_get (o_offset opts) (VInt 0)) = true ->
  rating_ok (opt_get (o_rating opts) (cfg_rating cfg)) = true ->
  1 <= retry_attempts cfg ->
  (min_50 (VInt z) = ok (VInt 50)
   /\ validate_search_params
        (search_params cfg (VStr (strip q)) (VInt 50) opts) = ok tt)
  /\ (exists response w' evs,
        search_gifs repr response_error_str cfg (VStr q) opts w
        = (inr response, w')
        /\ log w' = (log w ++ evs)%list
        /\ gets evs <> []
        /\ forall p, In p (gets evs) -> assoc "limit" p = Some (VInt 50))
  /\ (forall reason body meta pag record imgs sec sw sh a b c p t,
        upstream w (sent w) = Responds 200 reason (inr (VDict body)) ->
        assoc "meta" body = Some (VDict meta) ->
        assoc "status" meta = Some (VInt 200) ->
        assoc "data" body = Some (VList [VDict record]) ->
        dict_get body "pagination" (VDict []) = VDict pag ->
        assoc "images" record = Some (VDict imgs) ->
        assoc "original" imgs = Some (VDict sec) ->
        assoc "width" sec = Some (VStr sw) ->
        int_of_str sw = inr a ->
        assoc "height" sec = Some (VStr sh) ->
        int_of_str sh = inr b ->
        int (dict_get sec "size" (VInt 0)) = ok c ->
        read_image (VDict imgs) "fixed_height_small" false = ok p ->
        read_image (VDict imgs) "fixed_height_small_still" false = ok t ->
        exists response w',
          search_gifs repr response_error_str cfg (VStr q) opts w
          = (inr response, w')
          /\ success response = true
          /\ data response
             = GifList
                 [{| id := dict_get record "id" (VStr "");
                     title := dict_get record "title" (VStr "");
                     gif_url := dict_get record "url" (VStr "");
                     rating := dict_get record "rating" (VStr "");
                     created_at :=
                       dict_get record "import_datetime" (VStr "");
                     tags := dict_get record "tags" (VList []);
                     original := {| url := dict_get sec "url" (VStr "");
                                    width := a;
                                    height := b;
                                    size := c |};
                     preview := p;
                     thumbnail := t |}]
          /\ message response = "Found 1 GIFs"
          /\ sent w' = S (sent w)).
Proof.
  intros Hq Hlimit Hz Ho Hr Hn.
  assert (Hmin : min_50 (VInt z) = ok (VInt 50)).
  { unfold min_50. simpl.
    replace (50 <? z) with true by (symmetry; apply Z.ltb_lt; exact Hz).
    reflexivity. }
  assert (Hv : validate_search_params
                 (search_params cfg (VStr (strip q)) (VInt 50) opts) = ok tt).
  { apply validate_accepts; try assumption; reflexivity. }
  split; [split; assumption|split].
  - destruct (search_gifs_log cfg (VStr q) opts w) as (evs & Hlog & Hall & Hsent).
    assert (Hqok : query_ok (VStr q) = true).
    { simpl. destruct (String.eqb_spec q ""); [contradiction|reflexivity]. }
    assert (Hlok : limit_ok (opt_get (o_limit opts) (cfg_limit cfg)) = true).
    { rewrite Hlimit. unfold limit_ok. simpl. apply Z.leb_le. lia. }
    destruct (Hsent Hqok Hlok Ho Hr Hn) as (Hne & response & Hresp).
    destruct (search_gifs _ _ cfg (VStr q) opts w) as [r w'] eqn:Hrun.
    simpl in Hlog, Hresp. subst r.
    exists response, w', evs. repeat split; try assumption.
    intros p0 Hin. destruct (Hall p0 Hin) as (_ & l & Hl & Hp).
    rewrite Hlimit in Hl. cbn [opt_get] in Hl. rewrite Hmin in Hl.
    injection Hl as <-. exact Hp.
  - intros reason body meta pag record imgs sec sw sh a b c p t
      Hup Hmeta Hst Hdata Hpag Hi Hsec Hw Ha Hh Hb Hc Hp Ht.
    assert (Hl : min_50 (opt_get (o_limit opts) (cfg_limit cfg))
                 = ok (VInt 50)).
    { rewrite Hlimit. exact Hmin. }
    rewrite (search_gifs_first_answer cfg q opts (VInt 50) w reason body meta
               Hq Hl Hv Hn Hup Hmeta Hst).
    cbv zeta.
    assert (Hread : read_gif (VDict record)
                    = ok {| id := dict_get record "id" (VStr "");
                            title := dict_get record "title" (VStr "");
                            gif_url := dict_get record "url" (VStr "");
                            rating := dict_get record "rating" (VStr "");
                            created_at :=
                              dict_get record "import_datetime" (VStr "");
                            tags := dict_get record "tags" (VList []);
                            original :=
                              {| url := dict_get sec "url" (VStr "");
                                 width := a; height := b; size := c |};
                            preview := p;
                            thumbnail := t |}).
    { rewrite read_gif_unfold. unfold dict_get at 1. rewrite Hi. cbv zeta.
      rewrite (read_image_section _ _ _ _ Hsec), Hp, Ht.
      unfold dict_get at 1. rewrite Hw. unfold dict_get at 1. rewrite Hh.
      unfold int at 1 2. rewrite Ha, Hb, Hc. reflexivity. }
    assert (Hpag' : assoc "pagination" body = Some (VDict pag)
                    \/ (assoc "pagination" body = None /\ pag = [])).
    { unfold dict_get in Hpag.
      destruct (assoc "pagination" body) as [v|]; [left|right].
      - rewrite Hpag. reflexivity.
      - injection Hpag as <-. split; reflexivity. }
    rewrite (transform_response_unfold body _ pag Hdata Hpag').
    rewrite (read_gifs_keeps _ _ _ _ Hread). simpl.
    eexists. eexists. split; [reflexivity|]. repeat split.
Qed.

(** *** The shape of an envelope *)

Lemma transform_response_shape v r :
  _transform_response v = ok r ->
  success r = true /\ error r = None.
Proof.
  unfold _transform_response, rbind, ok.
  repeat case_step; intros H; try discriminate;
    injection H as <-; split; reflexivity.
Qed.

Lemma search_gifs_envelope cfg query opts w response w' :
  search_gifs repr response_error_str cfg query opts w = (inr response, w') ->
  envelope_ok response.
Proof.
  destruct (search_gifs_cases cfg query opts w)
    as [(e & Hrun & _) | (q & l & -> & Hq & Hl & Hv)].
  - rewrite Hrun. discriminate.
  - rewrite (search_gifs_accepted cfg q opts l w Hq Hl Hv).
    destruct (_make_request _ _ _ _ _ w) as [[e|d] w1].
    + intros H. injection H as <- _. split; simpl.
      * intros _. repeat split. discriminate.
      * discriminate.
    + destruct (_transform_response d) as [e|r] eqn:Ht.
      * intros H. injection H as <- _. split; simpl.
        -- intros _. repeat split. discriminate.
        -- discriminate.
      * intros H. injection H as <- _.
        destruct (transform_response_shape _ _ Ht) as [Hs He].
        split; [congruence|intros _; exact He].
Qed.


(* ===================================================================== *)
(** ** Further properties                                                *)
(* ===================================================================== *)

Import Keywords Lifecycle Schedule.

(** *** The retry loop, in general *)

Lemma attempt_once_verdict url params w :
  attempt_once repr url params w
  = (verdict repr (upstream w (sent w)), after_get url params w).
Proof.
  unfold verdict, attempt_once, bind, session_get, lift, raise, ret; simpl.
  repeat case_step; reflexivity.
Qed.

Lemma after_backoff_facts cfg a w :
  upstream (after_backoff cfg a w) = upstream w
  /\ sent (after_backoff cfg a w) = sent w
  /\ clock (after_backoff cfg a w) = clock w.
Proof.
  unfold after_backoff. destruct (a <? retry_attempts cfg); repeat split.
Qed.

Lemma delay_seq cfg a k :
  map (fun j => (retry_delay cfg * inject_Z j)%Q) (map Z.of_nat (seq a k))
  = map (delay cfg) (seq a k).
Proof. rewrite map_map. reflexivity. Qed.

(** The loop over the attempts [a, a+1, ..., a+m-1], the last of which is
    attempt number [retry_attempts]: [g] requests go out, at least one
    unless the list is empty, and each failed attempt but the last of the
    list is followed by its sleep. *)
Lemma retry_loop_schedule cfg url params :
  forall m a last w,
    (m <> 0%nat -> Z.of_nat a + Z.of_nat m = retry_attempts cfg + 1) ->
    exists g evs r w',
      retry_loop repr response_error_str cfg url params
        (map Z.of_nat (seq a m)) last w = (r, w')
      /\ (g <= m)%nat
      /\ (m <> 0%nat -> g <> 0%nat)
      /\ log w' = (log w ++ evs)%list
      /\ gets evs = repeat params g
      /\ sleeps evs = map (delay cfg) (seq a (pred g))
      /\ sent w' = (sent w + g)%nat
      /\ upstream w' = upstream w
      /\ clock w' = clock w
      /\ evs = trace cfg url params a g.
Proof.
  induction m as [|m IH]; intros a last w Hlast.
  - exists 0%nat, []. simpl. destruct last; unfold raise;
      eexists; eexists; (split; [reflexivity|]);
      rewrite List.app_nil_r, Nat.add_0_r; repeat split;
      try reflexivity; try lia; intros H; exact H.
  - assert (Hsum : Z.of_nat a + Z.of_nat (S m) = retry_attempts cfg + 1)
      by (apply Hlast; discriminate).
    cbn [seq map].
    pose proof (attempt_once_verdict url params w) as Hone.
    destruct (verdict repr (upstream w (sent w))) as [e|d] eqn:Hv.
    + rewrite (retry_loop_retries _ _ _ _ _ _ _ _ _ Hone).
      destruct m as [|m'].
      * (* this was attempt number [retry_attempts]: no sleep, the loop ends *)
        assert (Ha : (Z.of_nat a <? retry_attempts cfg) = false)
          by (apply Z.ltb_ge; lia).
        unfold after_backoff. rewrite Ha. simpl. unfold raise.
        exists 1%nat, [Get url params]. eexists. eexists.
        split; [reflexivity|]. simpl.
        repeat split; try reflexivity; try lia.
      * assert (Ha : (Z.of_nat a <? retry_attempts cfg) = true)
          by (apply Z.ltb_lt; lia).
        unfold after_backoff. rewrite Ha.
        destruct (IH (S a) (Some (recorded_error response_error_str e))
                    (after_sleep (retry_delay cfg * inject_Z (Z.of_nat a))%Q
                       (after_get url params w)))
          as (g & evs & r & w' & Hrun & Hg & Hg0 & Hlog & Hgets & Hsleeps
              & Hsent & Hup & Hck & Htr).
        { intros _. lia. }
        assert (Hg1 : g <> 0%nat) by (apply Hg0; discriminate).
        exists (S g),
          (Get url params
             :: Sleep (retry_delay cfg * inject_Z (Z.of_nat a))%Q :: evs),
          r, w'.
        split; [exact Hrun|]. simpl in Hlog, Hsent, Hup, Hck.
        split; [lia|]. split; [discriminate|].
        split; [rewrite Hlog, <- !List.app_assoc; reflexivity|].
        split; [simpl; rewrite Hgets; reflexivity|].
        split.
        { simpl. rewrite Hsleeps. destruct g as [|g']; [congruence|].
          reflexivity. }
        split; [rewrite Hsent; lia|]. split; [assumption|].
        split; [assumption|].
        rewrite Htr. destruct g as [|g']; [congruence|]. reflexivity.
    + rewrite (retry_loop_returns _ _ _ _ _ _ _ _ _ Hone).
      exists 1%nat, [Get url params]. eexists. eexists.
      split; [reflexivity|]. simpl.
      repeat split; try reflexivity; try lia.
Qed.

Lemma retry_loop_first_accepted cfg url params data :
  forall k attempts last w,
    (k < List.length attempts)%nat ->
    (forall j, (j < k)%nat ->
       exists e, verdict repr (upstream w (sent w + j)) = inl e) ->
    verdict repr (upstream w (sent w + k)) = inr data ->
    exists w',
      retry_loop repr response_error_str cfg url params attempts last w
      = (inr data, w')
      /\ sent w' = (sent w + S k)%nat.
Proof.
  induction k as [|k IH]; intros attempts last w Hlen Hfail Hok;
    destruct attempts as [|a rest]; simpl in Hlen; try lia;
    pose proof (attempt_once_verdict url params w) as Hone.
  - rewrite Nat.add_0_r in Hok. rewrite Hok in Hone.
    rewrite (retry_loop_returns _ _ _ _ _ _ _ _ _ Hone).
    eexists. split; [reflexivity|]. simpl. lia.
  - destruct (Hfail 0%nat) as (e & He); [lia|].
    rewrite Nat.add_0_r in He. rewrite He in Hone.
    rewrite (retry_loop_retries _ _ _ _ _ _ _ _ _ Hone).
    destruct (after_backoff_facts cfg a (after_get url params w))
      as (Hup & Hsent & _).
    destruct (IH rest (Some (recorded_error response_error_str e))
                (after_backoff cfg a (after_get url params w)))
      as (w' & Hrun & Hcount).
    + lia.
    + intros j Hj. rewrite Hup, Hsent. simpl.
      destruct (Hfail (S j)) as (e' & He'); [lia|].
      exists e'. rewrite <- He'. f_equal. f_equal. lia.
    + rewrite Hup, Hsent. simpl. rewrite <- Hok. f_equal. f_equal. lia.
    + exists w'. split; [exact Hrun|]. rewrite Hcount, Hsent. simpl. lia.
Qed.

Lemma retry_loop_exhausted cfg url params :
  forall attempts last w e,
    attempts <> [] ->
    (forall j, (j < List.length attempts)%nat ->
       exists e', verdict repr (upstream w (sent w + j)) = inl e') ->
    verdict repr (upstream w (sent w + pred (List.length attempts))) = inl e ->
    exists w',
      retry_loop repr response_error_str cfg url params attempts last w
      = (inl (recorded_error response_error_str e), w')
      /\ sent w' = (sent w + List.length attempts)%nat.
Proof.
  induction attempts as [|a rest IH]; intros last w e Hne Hfail Hlast;
    [congruence|].
  pose proof (attempt_once_verdict url params w) as Hone.
  destruct (Hfail 0%nat) as (e0 & He0); [simpl; lia|].
  rewrite Nat.add_0_r in He0. rewrite He0 in Hone.
  rewrite (retry_loop_retries _ _ _ _ _ _ _ _ _ Hone).
  destruct (after_backoff_facts cfg a (after_get url params w))
    as (Hup & Hsent & _).
  destruct rest as [|b rest'].
  - simpl in Hlast. rewrite Nat.add_0_r, He0 in Hlast.
    injection Hlast as <-. simpl. unfold raise.
    eexists. split; [reflexivity|]. rewrite Hsent. simpl. lia.
  - destruct (IH (Some (recorded_error response_error_str e0))
                (after_backoff cfg a (after_get url params w)) e)
      as (w' & Hrun & Hcount).
    + discriminate.
    + intros j Hj. rewrite Hup, Hsent. simpl.
      destruct (Hfail (S j)) as (e' & He'); [simpl in *; lia|].
      exists e'. rewrite <- He'. f_equal. f_equal. lia.
    + rewrite Hup, Hsent. rewrite <- Hlast. simpl. f_equal. f_equal. lia.
    + exists w'. split; [exact Hrun|]. rewrite Hcount, Hsent. simpl. lia.
Qed.

Lemma attempt_numbers_length n :
  List.length (attempt_numbers n) = Z.to_nat n.
Proof. unfold attempt_numbers. rewrite length_map, length_seq. reflexivity. Qed.

(** One run of [_make_request], whatever the upstream does. *)
Lemma make_request_run cfg endpoint params w :
  exists g evs r w',
    _make_request repr response_error_str cfg endpoint params w = (r, w')
    /\ log w' = (log w ++ evs)%list
    /\ gets evs = repeat (with_key cfg params) g
    /\ sleeps evs = backoff cfg (pred g)
    /\ (g <= Z.to_nat (retry_attempts cfg))%nat
    /\ (1 <= retry_attempts cfg -> (1 <= g)%nat)
    /\ sent w' = (sent w + g)%nat
    /\ upstream w' = upstream w
    /\ clock w' = clock w
    /\ evs = trace cfg (base_url ++ endpoint) (with_key cfg params) 1 g.
Proof.
  unfold _make_request, attempt_numbers.
  destruct (retry_loop_schedule cfg (base_url ++ endpoint)
              (with_key cfg params) (Z.to_nat (retry_attempts cfg)) 1 None w)
    as (g & evs & r & w' & Hrun & Hg & Hg0 & Hlog & Hgets & Hsleeps
        & Hsent & Hup & Hck & Htr).
  { intros Hm. lia. }
  exists g, evs, r, w'. unfold with_key in *.
  split; [exact Hrun|]. split; [exact Hlog|]. split; [exact Hgets|].
  split; [exact Hsleeps|]. split; [exact Hg|].
  split; [|repeat split; assumption].
  intros Hn. assert (g <> 0%nat) by (apply Hg0; lia). lia.
Qed.

(** X1.  Whatever the upstream does, what [_make_request] adds to the log
    is a request, then -- as long as another attempt follows -- a sleep and
    a request again: [g] requests in all, each with the caller's parameters
    plus the API key, with a sleep of [retry_delay * j] between request [j]
    and request [j + 1] and nothing after the last request.  [g] is at most
    [retry_attempts], and at least 1 when an attempt is allowed. *)
Theorem make_request_backs_off_linearly cfg endpoint params w :
  exists g,
    log (snd (_make_request repr response_error_str cfg endpoint params w))
    = (log w
         ++ trace cfg (base_url ++ endpoint) (with_key cfg params) 1 g)%list
    /\ sent (snd (_make_request repr response_error_str cfg endpoint
                    params w))
       = (sent w + g)%nat
    /\ (g <= Z.to_nat (retry_attempts cfg))%nat
    /\ (1 <= retry_attempts cfg -> (1 <= g)%nat)
    /\ (forall url p a,
          trace cfg url p a 0 = []
          /\ trace cfg url p a 1 = [Get url p]
          /\ forall n,
               trace cfg url p a (S (S n))
               = Get url p :: Sleep (retry_delay cfg * inject_Z (Z.of_nat a))%Q
                   :: trace cfg url p (S a) (S n)).
Proof.
  destruct (make_request_run cfg endpoint params w)
    as (g & evs & r & w' & Hrun & Hlog & _ & _ & Hg & Hg1 & Hsent & _ & _
        & Htr).
  exists g. rewrite Hrun. simpl. rewrite Hlog, Htr.
  repeat split; try assumption.
Qed.

(** X2.  The first answer the attempt accepts ends the loop: when the
    answers to the first [k] requests are turned down and the next one is
    accepted, with [k] below [retry_attempts], [_make_request] returns that
    body after exactly [k + 1] requests and the sleeps
    [retry_delay * 1 .. retry_delay * k]. *)
Theorem make_request_returns_first_accepted cfg endpoint params w k data :
  Z.of_nat k < retry_attempts cfg ->
  (forall j, (j < k)%nat ->
     exists e, verdict repr (upstream w (sent w + j)) = inl e) ->
  verdict repr (upstream w (sent w + k)) = inr data ->
  exists evs w',
    _make_request repr response_error_str cfg endpoint params w
    = (inr data, w')
    /\ log w' = (log w ++ evs)%list
    /\ gets evs = repeat (with_key cfg params) (S k)
    /\ sleeps evs = backoff cfg k
    /\ sent w' = (sent w + S k)%nat.
Proof.
  intros Hk Hfail Hok.
  destruct (make_request_run cfg endpoint params w)
    as (g & evs & r & w' & Hrun & Hlog & Hgets & Hsleeps & _ & _ & Hsent & _).
  destruct (retry_loop_first_accepted cfg (base_url ++ endpoint)
              (with_key cfg params) data k
              (attempt_numbers (retry_attempts cfg)) None w)
    as (w1 & Hrun1 & Hsent1); try assumption.
  { rewrite attempt_numbers_length. lia. }
  unfold _make_request in Hrun. fold (with_key cfg params) in Hrun.
  rewrite Hrun1 in Hrun. injection Hrun as <- <-.
  assert (g = S k) by lia. subst g.
  exists evs, w1. repeat split; assumption.
Qed.

(** X3.  When every one of the [retry_attempts] answers is turned down,
    [_make_request] raises what the loop recorded for the last of them, after
    exactly [retry_attempts] requests and the sleeps
    [retry_delay * 1 .. retry_delay * (retry_attempts - 1)]. *)
Theorem make_request_raises_the_last_failure cfg endpoint params w e :
  1 <= retry_attempts cfg ->
  (forall j, (j < Z.to_nat (retry_attempts cfg))%nat ->
     exists e', verdict repr (upstream w (sent w + j)) = inl e') ->
  verdict repr (upstream w (sent w + pred (Z.to_nat (retry_attempts cfg))))
  = inl e ->
  exists evs w',
    _make_request repr response_error_str cfg endpoint params w
    = (inl (recorded_error response_error_str e), w')
    /\ log w' = (log w ++ evs)%list
    /\ gets evs
       = repeat (with_key cfg params) (Z.to_nat (retry_attempts cfg))
    /\ sleeps evs = backoff cfg (pred (Z.to_nat (retry_attempts cfg)))
    /\ sent w' = (sent w + Z.to_nat (retry_attempts cfg))%nat.
Proof.
  intros Hn Hfail Hlast.
  destruct (make_request_run cfg endpoint params w)
    as (g & evs & r & w' & Hrun & Hlog & Hgets & Hsleeps & _ & _ & Hsent & _).
  destruct (retry_loop_exhausted cfg (base_url ++ endpoint)
              (with_key cfg params)
              (attempt_numbers (retry_attempts cfg)) None w e)
    as (w1 & Hrun1 & Hsent1).
  { apply attempt_numbers_nonempty. exact Hn. }
  { rewrite attempt_numbers_length. exact Hfail. }
  { rewrite attempt_numbers_length. exact Hlast. }
  rewrite attempt_numbers_length in Hsent1.
  unfold _make_request in Hrun. fold (with_key cfg params) in Hrun.
  rewrite Hrun1 in Hrun. injection Hrun as <- <-.
  assert (g = Z.to_nat (retry_attempts cfg)) by lia. subst g.
  exists evs, w1. repeat split; assumption.
Qed.

(** *** Searches that run out of attempts *)

Lemma accepted_args cfg q opts :
  q <> "" ->
  limit_ok (opt_get (o_limit opts) (cfg_limit cfg)) = true ->
  offset_ok (opt_get (o_offset opts) (VInt 0)) = true ->
  rating_ok (opt_get (o_rating opts) (cfg_rating cfg)) = true ->
  exists l,
    min_50 (opt_get (o_limit opts) (cfg_limit cfg)) = ok l
    /\ validate_search_params (search_params cfg (VStr (strip q)) l opts)
       = ok tt.
Proof.
  intros Hq Hl Ho Hr.
  destruct (min_50_ok _ Hl) as (l & Hmin & Hi & Hlt & Hgt & _).
  exists l. split; [exact Hmin|].
  apply validate_accepts; assumption.
Qed.

Lemma verdict_raises e : verdict repr (Raises e) = inl e.
Proof. reflexivity. Qed.

(** X4.  When the arguments are accepted and each of the [retry_attempts]
    requests times out, the search returns a failure envelope of kind
    [TIMEOUT] with the message "Request timeout", after exactly
    [retry_attempts] requests. *)
Theorem search_reports_timeouts cfg q opts w :
  q <> "" ->
  limit_ok (opt_get (o_limit opts) (cfg_limit cfg)) = true ->
  offset_ok (opt_get (o_offset opts) (VInt 0)) = true ->
  rating_ok (opt_get (o_rating opts) (cfg_rating cfg)) = true ->
  1 <= retry_attempts cfg ->
  (forall j, (j < Z.to_nat (retry_attempts cfg))%nat ->
     upstream w (sent w + j) = Raises AsyncioTimeoutError) ->
  exists info response w',
    search_gifs repr response_error_str cfg (VStr q) opts w
    = (inr response, w')
    /\ success response = false
    /\ data response = NoData
    /\ error response = Some info
    /\ err_type info = ErrorType_value TIMEOUT
    /\ err_message info = "Request timeout"
    /\ err_method info = "search_gifs"
    /\ sent w' = (sent w + Z.to_nat (retry_attempts cfg))%nat.
Proof.
  intros Hq Hl Ho Hr Hn Hup.
  destruct (accepted_args cfg q opts Hq Hl Ho Hr) as (l & Hmin & Hv).
  rewrite (search_gifs_accepted cfg q opts l w Hq Hmin Hv).
  destruct (retry_loop_exhausted cfg (base_url ++ "/search")
              (with_key cfg (search_params cfg (VStr (strip q)) l opts))
              (attempt_numbers (retry_attempts cfg)) None w
              AsyncioTimeoutError)
    as (w1 & Hrun & Hsent).
  { apply attempt_numbers_nonempty. exact Hn. }
  { rewrite attempt_numbers_length. intros j Hj.
    rewrite (Hup j Hj). eexists. apply verdict_raises. }
  { rewrite attempt_numbers_length, Hup by lia. apply verdict_raises. }
  unfold _make_request. fold (with_key cfg (search_params cfg (VStr (strip q)) l opts)).
  rewrite Hrun. simpl.
  eexists. eexists. eexists. split; [reflexivity|]. simpl.
  rewrite attempt_numbers_length in Hsent.
  repeat split. exact Hsent.
Qed.

(** X5.  With [retry_attempts] at zero or below, no request is ever sent:
    the loop body never runs, [raise last_error] raises a [TypeError], and
    an accepted search returns a failure envelope of kind [UNKNOWN_ERROR]
    with the world untouched. *)
Theorem search_without_attempts_fails cfg q opts w :
  q <> "" ->
  limit_ok (opt_get (o_limit opts) (cfg_limit cfg)) = true ->
  offset_ok (opt_get (o_offset opts) (VInt 0)) = true ->
  rating_ok (opt_get (o_rating opts) (cfg_rating cfg)) = true ->
  retry_attempts cfg <= 0 ->
  exists info response,
    search_gifs repr response_error_str cfg (VStr q) opts w
    = (inr response, w)
    /\ success response = false
    /\ data response = NoData
    /\ error response = Some info
    /\ err_type info = ErrorType_value UNKNOWN_ERROR
    /\ err_message info = "exceptions must derive from BaseException".
Proof.
  intros Hq Hl Ho Hr Hn.
  destruct (accepted_args cfg q opts Hq Hl Ho Hr) as (l & Hmin & Hv).
  rewrite (search_gifs_accepted cfg q opts l w Hq Hmin Hv).
  unfold _make_request, attempt_numbers.
  replace (Z.to_nat (retry_attempts cfg)) with 0%nat by lia. simpl.
  eexists. eexists. split; [reflexivity|]. repeat split.
Qed.

(** X6.  Handed a [ClientResponseError] directly, [_handle_error] builds a
    failure envelope whose kind is [CLIENT_ERROR] exactly for a status in
    [400, 500), [SERVER_ERROR] exactly for a status in [500, 600), and
    [UNKNOWN_ERROR] for every other status; the world is left alone. *)
Theorem handle_error_sorts_by_status status msg method w :
  exists info,
    _handle_error response_error_str (ClientResponseError status msg) method w
    = (inr {| success := false; data := NoData; pagination := None;
              message := ""; error := Some info |}, w)
    /\ err_method info = method
    /\ (err_type info = ErrorType_value CLIENT_ERROR <-> 400 <= status < 500)
    /\ (err_type info = ErrorType_value SERVER_ERROR <-> 500 <= status < 600)
    /\ (err_type info = ErrorType_value UNKNOWN_ERROR
        <-> status < 400 \/ 600 <= status).
Proof.
  eexists. split; [reflexivity|]. split; [reflexivity|]. simpl.
  destruct (Z.leb_spec 400 status); destruct (Z.ltb_spec status 500);
    destruct (Z.leb_spec 500 status); destruct (Z.ltb_spec status 600);
    simpl; repeat split; intros; try lia; try discriminate; try reflexivity.
Qed.

(** *** The parameters of a request *)

Lemma assoc_dict_set_same k v kvs : assoc k (dict_set k v kvs) = Some v.
Proof.
  induction kvs as [|[k' v'] rest IH]; simpl.
  - rewrite String.eqb_refl. reflexivity.
  - destruct (String.eqb_spec k k') as [->|Hne]; simpl.
    + rewrite String.eqb_refl. reflexivity.
    + destruct (String.eqb_spec k k'); [contradiction|]. exact IH.
Qed.

Lemma assoc_dict_set_other k k' v kvs :
  k' <> k -> assoc k' (dict_set k v kvs) = assoc k' kvs.
Proof.
  intros Hne. induction kvs as [|[k0 v0] rest IH]; simpl.
  - destruct (String.eqb_spec k' k); [contradiction|reflexivity].
  - destruct (String.eqb_spec k k0) as [->|Hk]; simpl.
    + destruct (String.eqb_spec k' k0); [contradiction|reflexivity].
    + destruct (String.eqb_spec k' k0); [reflexivity|exact IH].
Qed.

(** X7.  Every request [_make_request] sends carries the adapter's API key
    under ["api_key"] -- overwriting a value the caller may have put there
    -- and every other parameter exactly as the caller gave it. *)
Theorem make_request_attaches_the_api_key cfg endpoint params w :
  exists evs,
    log (snd (_make_request repr response_error_str cfg endpoint params w))
    = (log w ++ evs)%list
    /\ forall p, In p (gets evs) ->
         assoc "api_key" p = Some (VStr (api_key cfg))
         /\ forall k, k <> "api_key" -> assoc k p = assoc k params.
Proof.
  destruct (make_request_run cfg endpoint params w)
    as (g & evs & r & w' & Hrun & Hlog & Hgets & _).
  exists evs. rewrite Hrun. split; [exact Hlog|].
  intros p Hin. rewrite Hgets in Hin. apply repeat_spec in Hin. subst p.
  unfold with_key. split.
  - apply assoc_dict_set_same.
  - intros k Hk. apply assoc_dict_set_other. exact Hk.
Qed.

(** *** The retry budget of a whole search *)

Lemma search_gifs_budget cfg query opts w :
  let w' := snd (search_gifs repr response_error_str cfg query opts w) in
  (sent w <= sent w' <= sent w + Z.to_nat (retry_attempts cfg))%nat
  /\ upstream w' = upstream w
  /\ clock w' = clock w.
Proof.
  destruct (search_gifs_cases cfg query opts w)
    as [(e & Hrun & _) | (q & l & -> & Hq & Hl & Hv)].
  - rewrite Hrun. simpl. repeat split; lia.
  - rewrite (search_gifs_accepted cfg q opts l w Hq Hl Hv).
    destruct (make_request_run cfg "/search"
                (search_params cfg (VStr (strip q)) l opts) w)
      as (g & evs & r & w' & Hrun & _ & _ & _ & Hg & _ & Hsent & Hup & Hck
          & _).
    rewrite Hrun. destruct r as [e|d]; simpl.
    + repeat split; try assumption; lia.
    + destruct (_transform_response d); simpl;
        repeat split; try assumption; lia.
Qed.

(** X8.  However a search or a single-GIF lookup ends -- returned envelope
    or raised exception -- it has sent at most [retry_attempts] requests. *)
Theorem searches_stay_within_the_retry_budget cfg query opts w :
  (sent w
   <= sent (snd (search_gifs repr response_error_str cfg query opts w))
   <= sent w + Z.to_nat (retry_attempts cfg))%nat
  /\ (sent w
      <= sent (snd (get_random_gif repr response_error_str cfg query opts w))
      <= sent w + Z.to_nat (retry_attempts cfg))%nat.
Proof.
  split.
  - apply search_gifs_budget.
  - rewrite get_random_gif_unfold.
    pose proof (search_gifs_budget cfg query (forced opts) w) as H.
    destruct (search_gifs _ _ cfg query (forced opts) w) as [[e|r] w'];
      simpl in *; apply H.
Qed.

(** *** [health_check] *)

(** Among the first [m] answers either one is accepted, and then there is a
    first such, or all are turned down. *)
Lemma first_accepted_or_none (up : nat -> http_outcome) (s : nat) :
  forall m,
    (exists k data,
        (k < m)%nat
        /\ verdict repr (up (s + k)%nat) = inr data
        /\ forall j, (j < k)%nat ->
             exists e, verdict repr (up (s + j)%nat) = inl e)
    \/ (forall j, (j < m)%nat ->
          exists e, verdict repr (up (s + j)%nat) = inl e).
Proof.
  induction m as [|m [(k & data & Hk & Hok & Hfail) | Hnone]].
  - right. intros j Hj. lia.
  - left. exists k, data. repeat split; try assumption. lia.
  - destruct (verdict repr (up (s + m)%nat)) as [e|data] eqn:Hv.
    + right. intros j Hj.
      destruct (Nat.eq_dec j m) as [->|Hne]; [eauto|].
      apply Hnone. lia.
    + left. exists m, data. repeat split; try assumption. lia.
Qed.

Lemma health_check_unfold cfg w :
  health_check repr response_error_str cfg w
  = match _make_request repr response_error_str cfg "/search"
            [("q", VStr "test"); ("limit", VInt 1)] w with
    | (inr _, w') =>
        (inr {| healthy := true; health_error := None;
                timestamp := clock w'; service := "giphy" |}, w')
    | (inl e, w') =>
        (inr {| healthy := false;
                health_error := Some (exn_str response_error_str e);
                timestamp := clock w'; service := "giphy" |}, w')
    end.
Proof.
  unfold health_check, bind, try.
  destruct (_make_request _ _ cfg _ _ w) as [[e|d] w']; reflexivity.
Qed.

(** X9.  [health_check] never raises.  It reports healthy exactly when one
    of the first [retry_attempts] answers is accepted, sends only the
    request [q=test, limit=1] with the API key, at most [retry_attempts]
    times, and an unhealthy report carries the text of the failure. *)
Theorem health_check_reports cfg w :
  exists h evs w',
    health_check repr response_error_str cfg w = (inr h, w')
    /\ log w' = (log w ++ evs)%list
    /\ (forall p, In p (gets evs) ->
          p = [("q", VStr "test"); ("limit", VInt 1);
               ("api_key", VStr (api_key cfg))])
    /\ (List.length (gets evs) <= Z.to_nat (retry_attempts cfg))%nat
    /\ service h = "giphy"
    /\ timestamp h = clock w
    /\ (healthy h = true
        <-> exists k data,
              Z.of_nat k < retry_attempts cfg
              /\ verdict repr (upstream w (sent w + k)) = inr data)
    /\ (healthy h = false <-> health_error h <> None).
Proof.
  rewrite health_check_unfold.
  destruct (make_request_run cfg "/search"
              [("q", VStr "test"); ("limit", VInt 1)] w)
    as (g & evs & r & w' & Hrun & Hlog & Hgets & _ & Hg & _ & Hsent & _ & Hck
        & _).
  assert (Hiff : (exists d, r = inr d)
                 <-> exists k data,
                       Z.of_nat k < retry_attempts cfg
                       /\ verdict repr (upstream w (sent w + k)) = inr data).
  { destruct (first_accepted_or_none (upstream w) (sent w)
                (Z.to_nat (retry_attempts cfg)))
      as [(k & data & Hk & Hok & Hfail) | Hnone].
    - destruct (retry_loop_first_accepted cfg (base_url ++ "/search")
                  (with_key cfg [("q", VStr "test"); ("limit", VInt 1)])
                  data k (attempt_numbers (retry_attempts cfg)) None w)
        as (w1 & Hrun1 & _); try assumption.
      { rewrite attempt_numbers_length. exact Hk. }
      unfold _make_request in Hrun.
      fold (with_key cfg [("q", VStr "test"); ("limit", VInt 1)]) in Hrun.
      rewrite Hrun1 in Hrun. injection Hrun as <- <-.
      split; intros _; [|eauto].
      exists k, data. split; [lia|exact Hok].
    - split.
      + intros (d & ->). exfalso.
        destruct (Z.to_nat (retry_attempts cfg)) as [|n'] eqn:Hn.
        * unfold _make_request, attempt_numbers in Hrun. rewrite Hn in Hrun.
          discriminate Hrun.
        * destruct (Hnone n') as (e & He); [lia|].
          destruct (retry_loop_exhausted cfg (base_url ++ "/search")
                      (with_key cfg [("q", VStr "test"); ("limit", VInt 1)])
                      (attempt_numbers (retry_attempts cfg)) None w e)
            as (w1 & Hrun1 & _).
          { apply attempt_numbers_nonempty. lia. }
          { rewrite attempt_numbers_length, Hn. exact Hnone. }
          { rewrite attempt_numbers_length, Hn. exact He. }
          unfold _make_request in Hrun.
          fold (with_key cfg [("q", VStr "test"); ("limit", VInt 1)]) in Hrun.
          rewrite Hrun1 in Hrun. discriminate Hrun.
      + intros (k & data & Hk & Hok). exfalso.
        destruct (Hnone k) as (e & He); [lia|]. congruence. }
  rewrite Hrun.
  assert (Hall : forall p, In p (gets evs) ->
                   p = [("q", VStr "test"); ("limit", VInt 1);
                        ("api_key", VStr (api_key cfg))]).
  { intros p Hin. rewrite Hgets in Hin. apply repeat_spec in Hin.
    subst p. reflexivity. }
  assert (Hlen : (List.length (gets evs) <= Z.to_nat (retry_attempts cfg))%nat).
  { rewrite Hgets, repeat_length. exact Hg. }
  destruct r as [e|d].
  - eexists. exists evs, w'. split; [reflexivity|]. simpl.
    repeat split; try assumption; try discriminate.
    intros H. apply Hiff in H. destruct H as (d & Hd). discriminate.
  - eexists. exists evs, w'. split; [reflexivity|]. simpl.
    repeat split; try assumption; try discriminate.
    + intros _. apply Hiff. eauto.
    + intros H. congruence.
Qed.

(** *** The loop over the upstream records *)

Lemma read_gifs_kept records :
  forall gifs,
    (forall r e, In r records -> read_gif r = inl e ->
       skipped e = true) ->
    read_gifs records gifs = ok (gifs ++ kept records)%list.
Proof.
  induction records as [|r rest IH]; intros gifs Hskip; simpl.
  - rewrite List.app_nil_r. reflexivity.
  - destruct (read_gif r) as [e|gif] eqn:Hr.
    + pose proof (Hskip r e (or_introl eq_refl) Hr) as He.
      destruct e; try discriminate He; simpl;
        apply IH; intros r' e' Hin; apply Hskip; right; exact Hin.
    + rewrite IH by (intros r' e' Hin; apply Hskip; right; exact Hin).
      rewrite <- List.app_assoc. reflexivity.
Qed.

Lemma read_gifs_raises records :
  forall gifs r e,
    In r records -> read_gif r = inl e -> skipped e = false ->
    exists r' e',
      In r' records /\ read_gif r' = inl e' /\ skipped e' = false
      /\ read_gifs records gifs = throw e'.
Proof.
  induction records as [|r0 rest IH]; intros gifs r e Hin Hr He;
    [destruct Hin|].
  simpl. destruct (read_gif r0) as [e0|gif0] eqn:Hr0.
  - destruct (skipped e0) eqn:Hs0.
    + destruct Hin as [->|Hin]; [congruence|].
      destruct (IH gifs r e Hin Hr He) as (r' & e' & Hin' & Hr' & He' & Hrun).
      exists r', e'. repeat split; try assumption; [right; exact Hin'|].
      destruct e0; try discriminate Hs0; exact Hrun.
    + exists r0, e0. repeat split; try assumption; [left; reflexivity|].
      destruct e0; try discriminate Hs0; reflexivity.
  - destruct Hin as [->|Hin]; [congruence|].
    destruct (IH (gifs ++ [gif0])%list r e Hin Hr He)
      as (r' & e' & Hin' & Hr' & He' & Hrun).
    exists r', e'. repeat split; try assumption. right; exact Hin'.
Qed.

Lemma kept_length records :
  (List.length (kept records) <= List.length records)%nat.
Proof.
  induction records as [|r rest IH]; simpl; [lia|].
  destruct (read_gif r); simpl; lia.
Qed.

(** X10.  The loop of [_transform_response] keeps exactly the records that
    can be read, in upstream order, and drops the ones that raise
    [ValueError] or [KeyError]; it fails only when some record raises
    another exception, and then with such an exception.  So a success never
    has more items than the upstream sent records. *)
Theorem read_gifs_keeps_the_readable_records records :
  ((forall r e, In r records -> read_gif r = inl e -> skipped e = true)
   -> read_gifs records [] = ok (kept records))
  /\ (forall gifs,
        read_gifs records [] = ok gifs ->
        gifs = kept records
        /\ (List.length gifs <= List.length records)%nat)
  /\ (forall e,
        read_gifs records [] = throw e ->
        skipped e = false
        /\ exists r, In r records /\ read_gif r = inl e).
Proof.
  assert (Hdec :
    (forall r e, In r records -> read_gif r = inl e -> skipped e = true)
    \/ exists r e, In r records /\ read_gif r = inl e
                   /\ skipped e = false).
  { induction records as [|r rest [Hall | (r' & e' & Hin & Hr & He)]].
    - left. intros r e [].
    - destruct (read_gif r) as [e|gif] eqn:Hr.
      + destruct (skipped e) eqn:He.
        * left. intros r' e' [<-|Hin] Hr'; [congruence|eauto].
        * right. exists r, e. repeat split; auto. left; reflexivity.
      + left. intros r' e' [<-|Hin] Hr'; [congruence|eauto].
    - right. exists r', e'. repeat split; auto. right; exact Hin. }
  split; [intros Hall; apply (read_gifs_kept records [] Hall)|].
  destruct Hdec as [Hall | (r & e & Hin & Hr & He)].
  - rewrite (read_gifs_kept records [] Hall). simpl. split.
    + intros gifs H. injection H as <-. split; [reflexivity|].
      apply kept_length.
    + intros e H. discriminate H.
  - destruct (read_gifs_raises records [] r e Hin Hr He)
      as (r' & e' & Hin' & Hr' & He' & Hrun).
    rewrite Hrun. split.
    + intros gifs H. discriminate H.
    + intros e0 H. injection H as <-. split; [exact He'|eauto].
Qed.

(** *** [validate_search_params] *)

Lemma validate_params_unfold params :
  validate_search_params params
  = let limit := dict_get params "limit" (VInt 10) in
    let offset := dict_get params "offset" (VInt 0) in
    if negb (isinstance_int limit) || lt_int limit 1 || gt_int limit 50 then
      throw (ValueError "Limit must be an integer between 1 and 50")
    else if negb (isinstance_int offset) || lt_int offset 0 then
      throw (ValueError "Offset must be a non-negative integer")
    else
      rbind (in_str_set (dict_get params "rating" (VStr "pg")) valid_ratings)
        (fun known =>
           if negb known then
             throw (ValueError "Rating must be one of: g, pg, pg-13, r")
           else ok tt).
Proof. reflexivity. Qed.

Lemma limit_check limit :
  negb (isinstance_int limit) || lt_int limit 1 || gt_int limit 50
  = negb (limit_in_range limit).
Proof.
  unfold limit_in_range, lt_int, gt_int.
  destruct limit as [|b|z|f|s|l|kvs]; simpl; try reflexivity.
  - destruct b; reflexivity.
  - rewrite negb_andb, !Z.leb_antisym, !negb_involutive. reflexivity.
Qed.

(** X11.  [validate_search_params] accepts a keyword dictionary exactly
    when its limit (10 when absent) is an integer from 1 to 50, its offset
    (0 when absent) is a non-negative integer and its rating (pg when
    absent) is one of g, pg, pg-13, r; what it raises otherwise is a
    [ValueError], or a [TypeError] for a rating that cannot be hashed, and
    the limit is complained about first, then the offset. *)
Theorem validate_search_params_accepts_exactly params :
  let limit := dict_get params "limit" (VInt 10) in
  let offset := dict_get params "offset" (VInt 0) in
  let rating := dict_get params "rating" (VStr "pg") in
  (validate_search_params params = ok tt
   <-> limit_in_range limit = true
       /\ offset_ok offset = true
       /\ rating_ok rating = true)
  /\ (limit_in_range limit = false ->
      validate_search_params params
      = throw (ValueError "Limit must be an integer between 1 and 50"))
  /\ (limit_in_range limit = true -> offset_ok offset = false ->
      validate_search_params params
      = throw (ValueError "Offset must be a non-negative integer"))
  /\ (forall e, validate_search_params params = throw e ->
        (exists t, e = ValueError t) \/ (exists t, e = TypeError t)).
Proof.
  cbv zeta. rewrite validate_params_unfold. cbv zeta.
  rewrite limit_check, offset_check.
  destruct (limit_in_range (dict_get params "limit" (VInt 10))); simpl.
  2:{ repeat split; try discriminate; try tauto.
      - intros (H & _). discriminate.
      - intros e H. injection H as <-. eauto. }
  destruct (offset_ok (dict_get params "offset" (VInt 0))); simpl.
  2:{ repeat split; try discriminate; try tauto.
      - intros (_ & H & _). discriminate.
      - intros e H. injection H as <-. eauto. }
  unfold in_str_set, rating_ok, rbind, ok, throw.
  destruct (dict_get params "rating" (VStr "pg")) as [|b|z|f|s|l|kvs];
    simpl; repeat split; try discriminate; try tauto;
    try (intros (_ & _ & H); discriminate);
    try (intros e H; injection H as <-; eauto).
  - destruct (_ || _); [reflexivity|discriminate].
  - intros (_ & _ & H). rewrite H. reflexivity.
  - intros e. destruct (_ || _); simpl; intros H; [discriminate|].
    injection H as <-. eauto.
Qed.

(** *** The query a search sends *)

Lemma search_gifs_requests cfg q opts w :
  exists evs,
    log (snd (search_gifs repr response_error_str cfg (VStr q) opts w))
    = (log w ++ evs)%list
    /\ (List.length (gets evs) <= Z.to_nat (retry_attempts cfg))%nat
    /\ (forall p, In p (gets evs) ->
          exists l,
            min_50 (opt_get (o_limit opts) (cfg_limit cfg)) = ok l
            /\ p = with_key cfg (search_params cfg (VStr (strip q)) l opts))
    /\ (q <> "" ->
        limit_ok (opt_get (o_limit opts) (cfg_limit cfg)) = true ->
        offset_ok (opt_get (o_offset opts) (VInt 0)) = true ->
        rating_ok (opt_get (o_rating opts) (cfg_rating cfg)) = true ->
        1 <= retry_attempts cfg ->
        gets evs <> []).
Proof.
  destruct (search_gifs_cases cfg (VStr q) opts w)
    as [(e & Hrun & _) | (q' & l & Heq & Hq & Hl & Hv)].
  - exists []. rewrite Hrun. simpl. rewrite List.app_nil_r.
    split; [reflexivity|]. split; [lia|]. split; [intros p []|].
    intros Hq Hlim Hoff Hrat _. exfalso.
    destruct (accepted_args cfg q opts Hq Hlim Hoff Hrat) as (l & Hmin & Hv).
    rewrite (search_gifs_accepted cfg q opts l w Hq Hmin Hv) in Hrun.
    destruct (_make_request _ _ _ _ _ w) as [[e1|d] w1]; [discriminate|].
    destruct (_transform_response d); discriminate.
  - injection Heq as <-.
    rewrite (search_gifs_accepted cfg q opts l w Hq Hl Hv).
    destruct (make_request_run cfg "/search"
                (search_params cfg (VStr (strip q)) l opts) w)
      as (g & evs & r & w' & Hrun & Hlog & Hgets & _ & Hg & Hg1 & _).
    exists evs. rewrite Hrun.
    assert (Hw : log (snd match r with
                          | inl e =>
                              _handle_error response_error_str e
                                "search_gifs" w'
                          | inr response_data =>
                              match _transform_response response_data with
                              | inl e =>
                                  _handle_error response_error_str e
                                    "search_gifs" w'
                              | inr response => (inr response, w')
                              end
                          end) = log w').
    { destruct r as [e|d]; [reflexivity|].
      destruct (_transform_response d); reflexivity. }
    rewrite Hw. split; [exact Hlog|]. rewrite Hgets, repeat_length.
    split; [exact Hg|]. split.
    + intros p Hin. apply repeat_spec in Hin. subst p. eauto.
    + intros _ _ _ _ Hn. specialize (Hg1 Hn).
      destruct g; [lia|]. discriminate.
Qed.

(** X16.  Every request of a search carries the stripped query under
    ["q"].  In particular a query that is not empty but strips to the empty
    string -- white space only -- passes the emptiness check and is sent
    upstream as the empty string. *)
Theorem search_sends_the_stripped_query cfg q opts w :
  exists evs,
    log (snd (search_gifs repr response_error_str cfg (VStr q) opts w))
    = (log w ++ evs)%list
    /\ (forall p, In p (gets evs) -> assoc "q" p = Some (VStr (strip q)))
    /\ (q <> "" -> strip q = "" ->
        limit_ok (opt_get (o_limit opts) (cfg_limit cfg)) = true ->
        offset_ok (opt_get (o_offset opts) (VInt 0)) = true ->
        rating_ok (opt_get (o_rating opts) (cfg_rating cfg)) = true ->
        1 <= retry_attempts cfg ->
        gets evs <> []
        /\ forall p, In p (gets evs) -> assoc "q" p = Some (VStr "")).
Proof.
  destruct (search_gifs_requests cfg q opts w)
    as (evs & Hlog & _ & Hall & Hsent).
  assert (Hq : forall p, In p (gets evs) ->
                 assoc "q" p = Some (VStr (strip q))).
  { intros p Hin. destruct (Hall p Hin) as (l & _ & ->). reflexivity. }
  exists evs. split; [exact Hlog|]. split; [exact Hq|].
  intros Hne Hblank Hl Ho Hr Hn. split.
  - apply Hsent; assumption.
  - intros p Hin. rewrite (Hq p Hin), Hblank. reflexivity.
Qed.

(** *** [GifService] *)

Lemma message_body_unfold cfg text opts w :
  GifService.message_body repr response_error_str cfg text opts w
  = match get_random_gif repr response_error_str cfg
            (VStr (extract_keywords text 3)) opts w with
    | (inl e, w') => (inl e, w')
    | (inr result, w') =>
        if success result && payload_truthy (data result) then
          match GifService.as_gif (data result) with
          | inl e => (inl e, w')
          | inr gif =>
              (inr (Some
                      {| GifService.mg_type := "gif";
                         GifService.mg_id := id gif;
                         GifService.mg_title := title gif;
                         GifService.mg_url := url (original gif);
                         GifService.mg_preview_url := url (preview gif);
                         GifService.mg_thumbnail_url := url (thumbnail gif);
                         GifService.mg_width := width (original gif);
                         GifService.mg_height := height (original gif);
                         GifService.mg_rating := rating gif;
                         GifService.mg_query_used :=
                           extract_keywords text 3 |}),
               w')
          end
        else (inr None, w')
    end.
Proof.
  unfold GifService.message_body, bind, lift, ret.
  destruct (get_random_gif _ _ cfg _ opts w) as [[e|r] w']; [reflexivity|].
  destruct (success r && payload_truthy (data r)); [|reflexivity].
  destruct (GifService.as_gif (data r)); reflexivity.
Qed.

Lemma get_gif_for_message_unfold cfg text opts w :
  text <> "" ->
  GifService.get_gif_for_message repr response_error_str cfg (VStr text) opts w
  = match GifService.message_body repr response_error_str cfg text opts w with
    | (inr answer, w') => (inr answer, w')
    | (inl _, w') => (inr None, w')
    end.
Proof.
  intros Hne. unfold GifService.get_gif_for_message. simpl.
  destruct (String.eqb_spec text ""); [contradiction|]. simpl.
  unfold bind, try, ret.
  destruct (GifService.message_body _ _ cfg text opts w) as [[e|a] w'];
    reflexivity.
Qed.

Lemma get_random_gif_blank cfg opts w :
  get_random_gif repr response_error_str cfg (VStr "") opts w
  = (inl (GiphyValidation "Query parameter is required and must be a string"),
     w).
Proof. reflexivity. Qed.

(** X17.  [get_gif_for_message] never raises, and a message that is not a
    string, is empty, or from which [extract_keywords] extracts the empty
    string (as it does from white space) gives [None] without a single
    request: the world is left as it was. *)
Theorem get_gif_for_message_never_raises cfg user_message opts w :
  (exists answer w',
      GifService.get_gif_for_message repr response_error_str cfg
        user_message opts w
      = (inr answer, w'))
  /\ ((forall text, user_message = VStr text -> text <> "" ->
         extract_keywords text 3 = "") ->
      GifService.get_gif_for_message repr response_error_str cfg
        user_message opts w
      = (inr None, w)).
Proof.
  split.
  - destruct user_message as [| | | |text| |]; try (eexists; eexists; reflexivity).
    destruct (String.eqb_spec text "") as [->|Hne];
      [eexists; eexists; reflexivity|].
    rewrite (get_gif_for_message_unfold cfg text opts w Hne).
    destruct (GifService.message_body _ _ cfg text opts w) as [[e|a] w'];
      eexists; eexists; reflexivity.
  - intros Hblank.
    destruct user_message as [| | | |text| |]; try reflexivity.
    destruct (String.eqb_spec text "") as [->|Hne]; [reflexivity|].
    rewrite (get_gif_for_message_unfold cfg text opts w Hne).
    rewrite message_body_unfold.
    rewrite (Hblank text eq_refl Hne), get_random_gif_blank. reflexivity.
Qed.

Lemma get_random_gif_world cfg query opts w :
  snd (get_random_gif repr response_error_str cfg query opts w)
  = snd (search_gifs repr response_error_str cfg query (forced opts) w).
Proof.
  rewrite get_random_gif_unfold.
  destruct (search_gifs _ _ cfg query (forced opts) w) as [[e|r] w'];
    reflexivity.
Qed.

Lemma message_body_world cfg text opts w :
  snd (GifService.message_body repr response_error_str cfg text opts w)
  = snd (get_random_gif repr response_error_str cfg
           (VStr (extract_keywords text 3)) opts w).
Proof.
  rewrite message_body_unfold.
  destruct (get_random_gif _ _ cfg _ opts w) as [[e|r] w']; [reflexivity|].
  destruct (success r && payload_truthy (data r)); [|reflexivity].
  destruct (GifService.as_gif (data r)); reflexivity.
Qed.

Lemma get_gif_for_message_world cfg text opts w :
  text <> "" ->
  snd (GifService.get_gif_for_message repr response_error_str cfg
         (VStr text) opts w)
  = snd (search_gifs repr response_error_str cfg
           (VStr (extract_keywords text 3)) (forced opts) w).
Proof.
  intros Hne.
  rewrite (get_gif_for_message_unfold cfg text opts w Hne).
  rewrite <- get_random_gif_world, <- message_body_world.
  destruct (GifService.message_body _ _ cfg text opts w) as [[e|a] w'];
    reflexivity.
Qed.

(** X18.  Every request sent for a message carries the extracted keywords,
    stripped once more by the search, under ["q"], with [limit = 1] and
    [offset = 0], and there are at most [retry_attempts] of them. *)
Theorem get_gif_for_message_requests cfg text opts w :
  exists evs,
    log (snd (GifService.get_gif_for_message repr response_error_str cfg
                (VStr text) opts w))
    = (log w ++ evs)%list
    /\ (List.length (gets evs) <= Z.to_nat (retry_attempts cfg))%nat
    /\ forall p, In p (gets evs) ->
         assoc "q" p = Some (VStr (strip (extract_keywords text 3)))
         /\ assoc "limit" p = Some (VInt 1)
         /\ assoc "offset" p = Some (VInt 0).
Proof.
  destruct (String.eqb_spec text "") as [->|Hne].
  - exists []. simpl. rewrite List.app_nil_r.
    split; [reflexivity|]. split; [lia|]. intros p [].
  - rewrite (get_gif_for_message_world cfg text opts w Hne).
    destruct (search_gifs_requests cfg (extract_keywords text 3)
                (forced opts) w)
      as (evs & Hlog & Hlen & Hall & _).
    exists evs. split; [exact Hlog|]. split; [exact Hlen|].
    intros p Hin. destruct (Hall p Hin) as (l & Hl & ->).
    simpl in Hl. injection Hl as <-. repeat split.
Qed.

Lemma forced_search_accepted cfg q opts :
  q <> "" ->
  rating_ok (opt_get (o_rating opts) (cfg_rating cfg)) = true ->
  min_50 (opt_get (o_limit (forced opts)) (cfg_limit cfg)) = ok (VInt 1)
  /\ validate_search_params
       (search_params cfg (VStr (strip q)) (VInt 1) (forced opts))
     = ok tt.
Proof.
  intros Hq Hr. split; [reflexivity|].
  apply validate_accepts; try reflexivity. exact Hr.
Qed.

(** X19.  For a message from which a query is extracted, when the first
    request is answered with records that can be read,
    [get_gif_for_message] returns
    the description of the first item -- its id, title, rating, the three
    URLs and the size of the original -- together with the query it used,
    after exactly one request. *)
Theorem get_gif_for_message_describes_the_first_gif
  cfg text opts w reason body meta pag records item others :
  text <> "" ->
  extract_keywords text 3 <> "" ->
  rating_ok (opt_get (o_rating opts) (cfg_rating cfg)) = true ->
  1 <= retry_attempts cfg ->
  upstream w (sent w) = Responds 200 reason (inr (VDict body)) ->
  assoc "meta" body = Some (VDict meta) ->
  assoc "status" meta = Some (VInt 200) ->
  assoc "data" body = Some (VList records) ->
  assoc "pagination" body = Some (VDict pag) ->
  read_gifs records [] = ok (item :: others) ->
  exists w',
    GifService.get_gif_for_message repr response_error_str cfg (VStr text)
      opts w
    = (inr (Some {| GifService.mg_type := "gif";
                    GifService.mg_id := id item;
                    GifService.mg_title := title item;
                    GifService.mg_url := url (original item);
                    GifService.mg_preview_url := url (preview item);
                    GifService.mg_thumbnail_url := url (thumbnail item);
                    GifService.mg_width := width (original item);
                    GifService.mg_height := height (original item);
                    GifService.mg_rating := rating item;
                    GifService.mg_query_used := extract_keywords text 3 |}),
       w')
    /\ sent w' = S (sent w).
Proof.
  intros Hne Hq Hr Hn Hup Hmeta Hst Hdata Hpag Hread.
  destruct (forced_search_accepted cfg _ opts Hq Hr) as [Hmin Hv].
  rewrite (get_gif_for_message_unfold cfg text opts w Hne).
  rewrite message_body_unfold, get_random_gif_unfold.
  rewrite (search_gifs_accepted cfg _ (forced opts) (VInt 1) w Hq Hmin Hv).
  rewrite (make_request_first_answer cfg "/search" _ w reason body meta
             Hn Hup Hmeta)
    by (exists (VInt 200); split; [exact Hst|reflexivity]).
  rewrite (transform_response_unfold body records pag Hdata (or_introl Hpag)).
  rewrite Hread. simpl. eexists. split; reflexivity.
Qed.

Lemma service_search_unfold cfg query opts w :
  GifService.search_gifs repr response_error_str cfg query opts w
  = match search_gifs repr response_error_str cfg query opts w with
    | (inl _, w') => (inr None, w')
    | (inr result, w') =>
        if success result && payload_truthy (data result) then
          match GifService.as_list (data result) with
          | inl _ => (inr None, w')
          | inr gifs =>
              (inr (Some
                      {| GifService.ss_query := query;
                         GifService.ss_total_results :=
                           match pagination result with
                           | Some p => total p
                           | None => VInt 0
                           end;
                         GifService.ss_returned_count :=
                           Z.of_nat (List.length gifs);
                         GifService.ss_gifs := map GifService.listed gifs |}),
               w')
          end
        else (inr None, w')
    end.
Proof.
  unfold GifService.search_gifs, GifService.search_body, bind, try, lift, ret.
  destruct (search_gifs _ _ cfg query opts w) as [[e|r] w']; [reflexivity|].
  destruct (success r && payload_truthy (data r)); [|reflexivity].
  destruct (GifService.as_list (data r)); reflexivity.
Qed.

(** X20.  [GifService.search_gifs] never raises.  Arguments the adapter
    turns down give [None] with the world untouched, and so does a search
    that ends in a failure envelope or without any item. *)
Theorem service_search_degrades_to_none cfg query opts w :
  (exists answer w',
      GifService.search_gifs repr response_error_str cfg query opts w
      = (inr answer, w'))
  /\ (query_ok query = false
      \/ limit_ok (opt_get (o_limit opts) (cfg_limit cfg)) = false
      \/ offset_ok (opt_get (o_offset opts) (VInt 0)) = false
      \/ rating_ok (opt_get (o_rating opts) (cfg_rating cfg)) = false ->
      GifService.search_gifs repr response_error_str cfg query opts w
      = (inr None, w))
  /\ (forall result w',
        search_gifs repr response_error_str cfg query opts w
        = (inr result, w') ->
        success result = false \/ data result = GifList [] ->
        GifService.search_gifs repr response_error_str cfg query opts w
        = (inr None, w')).
Proof.
  rewrite service_search_unfold. split; [|split].
  - destruct (search_gifs _ _ cfg query opts w) as [[e|r] w'];
      [eexists; eexists; reflexivity|].
    destruct (success r && payload_truthy (data r));
      [|eexists; eexists; reflexivity].
    destruct (GifService.as_list (data r)); eexists; eexists; reflexivity.
  - intros Hbad.
    destruct (violation_is_raised cfg query opts w Hbad) as (e & Hrun).
    rewrite Hrun. reflexivity.
  - intros result w' Hrun [Hs | Hd]; rewrite Hrun.
    + rewrite Hs. reflexivity.
    + rewrite Hd, andb_false_r. reflexivity.
Qed.

(** X21.  When the first request of an accepted search is answered with
    records of which at least one can be read, [GifService.search_gifs]
    returns the query as given, the upstream's total count, the items in
    upstream order, and as [returned_count] the number of items that
    survived -- not the count the upstream declared. *)
Theorem service_search_counts_the_survivors
  cfg q opts w reason body meta pag records gifs :
  q <> "" ->
  limit_ok (opt_get (o_limit opts) (cfg_limit cfg)) = true ->
  offset_ok (opt_get (o_offset opts) (VInt 0)) = true ->
  rating_ok (opt_get (o_rating opts) (cfg_rating cfg)) = true ->
  1 <= retry_attempts cfg ->
  upstream w (sent w) = Responds 200 reason (inr (VDict body)) ->
  assoc "meta" body = Some (VDict meta) ->
  assoc "status" meta = Some (VInt 200) ->
  assoc "data" body = Some (VList records) ->
  assoc "pagination" body = Some (VDict pag) ->
  read_gifs records [] = ok gifs ->
  gifs <> [] ->
  exists w',
    GifService.search_gifs repr response_error_str cfg (VStr q) opts w
    = (inr (Some {| GifService.ss_query := VStr q;
                    GifService.ss_total_results :=
                      dict_get pag "total_count" (VInt 0);
                    GifService.ss_returned_count :=
                      Z.of_nat (List.length gifs);
                    GifService.ss_gifs := map GifService.listed gifs |}),
       w')
    /\ gifs = kept records
    /\ Z.of_nat (List.length gifs) <= Z.of_nat (List.length records).
Proof.
  intros Hq Hlim Hoff Hrat Hn Hup Hmeta Hst Hdata Hpag Hread Hne.
  destruct (accepted_args cfg q opts Hq Hlim Hoff Hrat) as (l & Hmin & Hv).
  assert (Hkept : gifs = kept records).
  { assert (Hall : forall r e, In r records -> read_gif r = inl e ->
                     skipped e = true).
    { intros r e Hin Hr. destruct (skipped e) eqn:He; [reflexivity|].
      destruct (read_gifs_raises records [] r e Hin Hr He)
        as (r' & e' & _ & _ & _ & Hrun).
      rewrite Hrun in Hread. discriminate. }
    rewrite (read_gifs_kept records [] Hall) in Hread.
    injection Hread as <-. reflexivity. }
  assert (Hlen : Z.of_nat (List.length gifs) <= Z.of_nat (List.length records)).
  { rewrite Hkept. apply Nat2Z.inj_le, kept_length. }
  rewrite service_search_unfold.
  rewrite (search_gifs_accepted cfg q opts l w Hq Hmin Hv).
  rewrite (make_request_first_answer cfg "/search" _ w reason body meta
             Hn Hup Hmeta)
    by (exists (VInt 200); split; [exact Hst|reflexivity]).
  rewrite (transform_response_unfold body records pag Hdata (or_introl Hpag)).
  rewrite Hread.
  destruct gifs as [|g gs]; [congruence|].
  eexists. split; [reflexivity|]. split; assumption.
Qed.

(** *** Construction and shutdown *)

(** X22.  The service's own defaults (limit 5, rating pg, timeout 3,
    two attempts) sit between the caller's configuration and the adapter's
    defaults (language en, delay 1, 100 connections): a value the caller
    gives always wins.  Without an API key neither constructor succeeds. *)
Theorem service_configuration key config :
  (key <> "" ->
   exists cfg,
     GifService.__init__ key config = ok cfg
     /\ api_key cfg = key
     /\ cfg_limit cfg = or_default (ov_limit config) (VInt 5)
     /\ cfg_rating cfg = or_default (ov_rating config) (VStr "pg")
     /\ cfg_lang cfg = or_default (ov_lang config) (VStr "en")
     /\ timeout cfg = or_default (ov_timeout config) 3%Q
     /\ retry_attempts cfg = or_default (ov_retry_attempts config) 2
     /\ retry_delay cfg = or_default (ov_retry_delay config) 1%Q
     /\ max_concurrent_requests cfg
        = or_default (ov_max_concurrent_requests config) 100)
  /\ GifService.__init__ "" config
     = throw (GiphyValidation "API key is required")
  /\ Lifecycle.__init__ "" config
     = throw (GiphyValidation "API key is required").
Proof.
  split; [|split; reflexivity].
  intros Hkey. unfold GifService.__init__, Lifecycle.__init__. simpl.
  destruct (String.eqb_spec key ""); [contradiction|]. simpl.
  eexists. split; [reflexivity|]. simpl. repeat split.
Qed.

Lemma needs_session_closed x :
  connector_closed x = true -> needs_session x = true.
Proof.
  intros H. unfold needs_session, session_closed.
  destruct (session x); [|reflexivity]. rewrite H. apply orb_true_r.
Qed.

Lemma get_session_open x :
  connector_closed x = false -> needs_session (_get_session x) = false.
Proof.
  intros H. unfold _get_session.
  destruct (needs_session x) eqn:Hn; [|exact Hn].
  unfold needs_session, session_closed. simpl. exact H.
Qed.

Lemma get_session_closed x :
  connector_closed x = true ->
  connector_closed (_get_session x) = true
  /\ sessions_created (_get_session x) = S (sessions_created x).
Proof.
  intros H. unfold _get_session. rewrite (needs_session_closed _ H).
  split; [exact H|reflexivity].
Qed.

Lemma get_session_after_close x n :
  connector_closed x = true ->
  connector_closed (Nat.iter n _get_session x) = true
  /\ sessions_created (Nat.iter n _get_session x)
     = (sessions_created x + n)%nat.
Proof.
  intros H. induction n as [|n [IHc IHn]]; [simpl; split; [exact H|lia]|].
  change (Nat.iter (S n) _get_session x)
    with (_get_session (Nat.iter n _get_session x)).
  destruct (get_session_closed _ IHc) as [Hc Hn].
  split; [exact Hc|]. rewrite Hn, IHn. lia.
Qed.

(** X23.  While the connector is open a session that is not closed is
    reused: however often [_get_session] runs, at most one session is
    created.  [close] is idempotent and leaves the connector closed.  From
    then on no session is usable: one built on the closed connector is
    closed from the start, so every later [_get_session] creates one more
    session. *)
Theorem session_lifecycle r :
  (connector_closed r = false ->
   _get_session (_get_session r) = _get_session r
   /\ needs_session (_get_session r) = false
   /\ forall n,
        (sessions_created (Nat.iter n _get_session r)
         <= S (sessions_created r))%nat)
  /\ close (close r) = close r
  /\ connector_closed (close r) = true
  /\ needs_session (close r) = true
  /\ sessions_created (close r) = sessions_created r
  /\ (forall n,
        needs_session (Nat.iter n _get_session (close r)) = true
        /\ connector_closed (Nat.iter n _get_session (close r)) = true
        /\ sessions_created (Nat.iter n _get_session (close r))
           = (sessions_created r + n)%nat).
Proof.
  assert (Hclosed : connector_closed (close r) = true) by reflexivity.
  assert (Hcount : sessions_created (close r) = sessions_created r).
  { unfold close. destruct (needs_session r); reflexivity. }
  split; [|split; [|split; [|split; [|split]]]].
  - intros Hopen.
    pose proof (get_session_open r Hopen) as Hn.
    assert (Hidem : _get_session (_get_session r) = _get_session r).
    { unfold _get_session at 1. rewrite Hn. reflexivity. }
    split; [exact Hidem|]. split; [exact Hn|].
    intros n. destruct n as [|n]; [simpl; lia|].
    assert (Hiter : Nat.iter (S n) _get_session r = _get_session r).
    { induction n as [|n IH]; [reflexivity|].
      change (Nat.iter (S (S n)) _get_session r)
        with (_get_session (Nat.iter (S n) _get_session r)).
      rewrite IH. exact Hidem. }
    rewrite Hiter. unfold _get_session.
    destruct (needs_session r); simpl; lia.
  - clear Hclosed Hcount. unfold close, needs_session, session_closed.
    destruct r as [[[[]]|] [] n]; reflexivity.
  - exact Hclosed.
  - apply needs_session_closed, Hclosed.
  - exact Hcount.
  - intros n.
    destruct (get_session_after_close (close r) n Hclosed) as [Hc Hn].
    split; [apply needs_session_closed, Hc|]. split; [exact Hc|].
    rewrite Hn, Hcount. reflexivity.
Qed.

(** *** What an attempt accepts *)

Lemma eq_int_200 st :
  eq_int st 200 = true
  <-> st = VInt 200 \/ exists q, st = VFloat (Finite q) /\ (q == 200)%Q.
Proof.
  unfold eq_int. destruct st as [|b|z|f|s|l|kvs]; simpl;
    split; intros H;
    try discriminate;
    try (destruct H as [H | (q & H & _)]; discriminate).
  - destruct b; discriminate.
  - apply Z.eqb_eq in H. subst z. left. reflexivity.
  - destruct H as [H | (q & H & _)]; [|discriminate].
    injection H as ->. reflexivity.
  - destruct f as [q| | |]; try discriminate.
    right. exists q. split; [reflexivity|]. apply Qeq_bool_iff. exact H.
  - destruct H as [H | (q & H & Hq)]; [discriminate|].
    injection H as ->. apply Qeq_bool_iff. exact Hq.
Qed.

Lemma verdict_accepted o data :
  verdict repr o = inr data
  <-> exists reason kvs meta st,
        o = Responds 200 reason (inr (VDict kvs))
        /\ data = VDict kvs
        /\ assoc "meta" kvs = Some (VDict meta)
        /\ assoc "status" meta = Some st
        /\ eq_int st 200 = true.
Proof.
  split.
  - unfold verdict, attempt_once, bind, session_get, lift, raise, ret. simpl.
    destruct o as [e|status reason body]; [discriminate|].
    destruct (Z.eqb_spec status 200) as [->|Hne]; simpl; [|discriminate].
    destruct body as [e|d]; [discriminate|].
    destruct d as [| | | | | |kvs]; try discriminate. simpl.
    destruct (assoc "meta" kvs) as [m|] eqn:Hm; [|discriminate].
    destruct m as [| | | | | |meta]; try discriminate. simpl.
    destruct (assoc "status" meta) as [st|] eqn:Hst; [|discriminate].
    destruct (eq_int st 200) eqn:Heq; simpl.
    + intros H. injection H as <-.
      exists reason, kvs, meta, st. repeat split; assumption.
    + destruct (assoc "msg" meta); discriminate.
  - intros (reason & kvs & meta & st & -> & -> & Hm & Hst & Heq).
    unfold verdict, attempt_once, bind, session_get, lift, raise, ret. simpl.
    rewrite Hm. simpl. rewrite Hst, Heq. reflexivity.
Qed.

(** X24.  One attempt accepts an answer exactly when the HTTP status is
    200, the body is a JSON object and its [meta] entry is an object whose
    [status] equals 200 -- the integer, or a float of that value; what it
    returns then is the body itself.  A body without [meta], or with a
    [meta] without [status], is turned down. *)
Theorem attempt_accepts_exactly o data :
  verdict repr o = inr data
  <-> exists reason kvs meta st,
        o = Responds 200 reason (inr (VDict kvs))
        /\ data = VDict kvs
        /\ assoc "meta" kvs = Some (VDict meta)
        /\ assoc "status" meta = Some st
        /\ (st = VInt 200
            \/ exists q, st = VFloat (Finite q) /\ (q == 200)%Q).
Proof.
  rewrite verdict_accepted. split.
  - intros (reason & kvs & meta & st & Ho & Hd & Hm & Hst & Heq).
    exists reason, kvs, meta, st. apply eq_int_200 in Heq.
    repeat split; assumption.
  - intros (reason & kvs & meta & st & Ho & Hd & Hm & Hst & Heq).
    exists reason, kvs, meta, st. apply eq_int_200 in Heq.
    repeat split; assumption.
Qed.

(** *** [get_random_gif] on an answered request *)

(** X25.  When the first request of [get_random_gif] is answered with
    records that can be read, it returns the first of the items -- the
    upstream's order decides, nothing is drawn at random -- with the note
    "GIF found" and without the pagination, after exactly one request. *)
Theorem get_random_gif_returns_the_first_item
  cfg q opts w reason body meta pag records item others :
  q <> "" ->
  rating_ok (opt_get (o_rating opts) (cfg_rating cfg)) = true ->
  1 <= retry_attempts cfg ->
  upstream w (sent w) = Responds 200 reason (inr (VDict body)) ->
  assoc "meta" body = Some (VDict meta) ->
  assoc "status" meta = Some (VInt 200) ->
  assoc "data" body = Some (VList records) ->
  assoc "pagination" body = Some (VDict pag) ->
  read_gifs records [] = ok (item :: others) ->
  exists w',
    get_random_gif repr response_error_str cfg (VStr q) opts w
    = (inr {| success := true;
              data := OneGif item;
              pagination := None;
              message := "GIF found";
              error := None |}, w')
    /\ sent w' = S (sent w).
Proof.
  intros Hq Hr Hn Hup Hmeta Hst Hdata Hpag Hread.
  destruct (forced_search_accepted cfg q opts Hq Hr) as [Hmin Hv].
  rewrite get_random_gif_unfold.
  rewrite (search_gifs_accepted cfg q (forced opts) (VInt 1) w Hq Hmin Hv).
  rewrite (make_request_first_answer cfg "/search" _ w reason body meta
             Hn Hup Hmeta)
    by (exists (VInt 200); split; [exact Hst|reflexivity]).
  rewrite (transform_response_unfold body records pag Hdata (or_introl Hpag)).
  rewrite Hread. simpl. eexists. split; reflexivity.
Qed.

(** *** Bodies with missing entries *)

(** X26.  A body without a [data] entry is transformed into a success with
    no items and the note "Found 0 GIFs"; each pagination field that is
    absent -- or all three, when there is no [pagination] entry -- reads as
    the integer 0. *)
Theorem transform_response_defaults body :
  assoc "data" body = None ->
  (assoc "pagination" body = None ->
   _transform_response (VDict body)
   = ok {| success := true;
           data := GifList [];
           pagination := Some {| total := VInt 0; count := VInt 0;
                                 offset := VInt 0 |};
           message := "Found 0 GIFs";
           error := None |})
  /\ (forall pag,
        assoc "pagination" body = Some (VDict pag) ->
        _transform_response (VDict body)
        = ok {| success := true;
                data := GifList [];
                pagination :=
                  Some {| total := dict_get pag "total_count" (VInt 0);
                          count := dict_get pag "count" (VInt 0);
                          offset := dict_get pag "offset" (VInt 0) |};
                message := "Found 0 GIFs";
                error := None |}).
Proof.
  intros Hdata. split.
  - intros Hpag. unfold _transform_response, get, iter, rbind, ok.
    rewrite Hdata, Hpag. reflexivity.
  - intros pag Hpag. unfold _transform_response, get, iter, rbind, ok, dict_get.
    rewrite Hdata, Hpag. reflexivity.
Qed.
(** *** Where the items of a search come from *)

Lemma transform_response_data v r :
  _transform_response v = ok r -> exists gifs, data r = GifList gifs.
Proof.
  unfold _transform_response, rbind, ok.
  repeat case_step; intros H; try discriminate;
    injection H as <-; eexists; reflexivity.
Qed.

(** What a search returns holds a list of items, or nothing. *)
Lemma search_gifs_data cfg query opts w response w' :
  search_gifs repr response_error_str cfg query opts w = (inr response, w') ->
  data response = NoData \/ exists gifs, data response = GifList gifs.
Proof.
  destruct (search_gifs_cases cfg query opts w)
    as [(e & Hrun & _) | (q & l & -> & Hq & Hl & Hv)].
  - rewrite Hrun. discriminate.
  - rewrite (search_gifs_accepted cfg q opts l w Hq Hl Hv).
    destruct (_make_request _ _ _ _ _ w) as [[e|d] w1].
    + intros H. injection H as <- _. left. reflexivity.
    + destruct (_transform_response d) as [e|r] eqn:Ht.
      * intros H. injection H as <- _. left. reflexivity.
      * intros H. injection H as <- _. right.
        apply (transform_response_data _ _ Ht).
Qed.

Lemma retry_loop_source cfg url params :
  forall attempts last w d w',
    retry_loop repr response_error_str cfg url params attempts last w
    = (inr d, w') ->
    exists k,
      (k < List.length attempts)%nat
      /\ verdict repr (upstream w (sent w + k)) = inr d.
Proof.
  induction attempts as [|a rest IH]; intros last w d w' Hrun.
  - simpl in Hrun. destruct last; discriminate.
  - pose proof (attempt_once_verdict url params w) as Hone.
    destruct (verdict repr (upstream w (sent w))) as [e|d0] eqn:Hv.
    + rewrite (retry_loop_retries _ _ _ _ _ _ _ _ _ Hone) in Hrun.
      destruct (after_backoff_facts cfg a (after_get url params w))
        as (Hup & Hsent & _).
      destruct (IH _ _ _ _ Hrun) as (k & Hk & Hok).
      rewrite Hup, Hsent in Hok. simpl in Hok.
      exists (S k). split; [simpl; lia|].
      rewrite <- Hok. f_equal. f_equal. lia.
    + rewrite (retry_loop_returns _ _ _ _ _ _ _ _ _ Hone) in Hrun.
      injection Hrun as <- _.
      exists 0%nat. split; [simpl; lia|].
      rewrite Nat.add_0_r. exact Hv.
Qed.

(** A search that succeeds has transformed a body one of its requests was
    answered with. *)
Lemma search_gifs_source cfg query opts w response w' :
  search_gifs repr response_error_str cfg query opts w = (inr response, w') ->
  success response = true ->
  exists k d,
    Z.of_nat k < retry_attempts cfg
    /\ verdict repr (upstream w (sent w + k)) = inr d
    /\ _transform_response d = ok response.
Proof.
  destruct (search_gifs_cases cfg query opts w)
    as [(e & Hrun & _) | (q & l & -> & Hq & Hl & Hv)].
  - rewrite Hrun. discriminate.
  - rewrite (search_gifs_accepted cfg q opts l w Hq Hl Hv).
    destruct (_make_request _ _ _ _ _ w) as [[e|d] w1] eqn:Hreq.
    + intros H. injection H as <- _. discriminate.
    + destruct (_transform_response d) as [e|r] eqn:Ht.
      * intros H. injection H as <- _. discriminate.
      * intros H _. injection H as <- _.
        unfold _make_request in Hreq.
        destruct (retry_loop_source _ _ _ _ _ _ _ _ Hreq) as (k & Hk & Hok).
        rewrite attempt_numbers_length in Hk.
        exists k, d. split; [lia|]. split; [exact Hok|exact Ht].
Qed.

Lemma read_gifs_ok_kept records gifs :
  read_gifs records [] = ok gifs -> gifs = kept records.
Proof.
  intros Hread.
  assert (Hall : forall r e, In r records -> read_gif r = inl e ->
                   skipped e = true).
  { intros r e Hin Hr. destruct (skipped e) eqn:He; [reflexivity|].
    destruct (read_gifs_raises records [] r e Hin Hr He)
      as (r' & e' & _ & _ & _ & Hrun).
    rewrite Hrun in Hread. discriminate. }
  rewrite (read_gifs_kept records [] Hall) in Hread.
  injection Hread as <-. reflexivity.
Qed.

Lemma kept_source records item :
  In item (kept records) ->
  exists record, In record records /\ read_gif record = ok item.
Proof.
  unfold kept. intros H. apply in_flat_map in H.
  destruct H as (record & Hin & Hitem).
  exists record. split; [exact Hin|].
  destruct (read_gif record) as [e|gif]; [destruct Hitem|].
  destruct Hitem as [<-|[]]. reflexivity.
Qed.

Lemma transform_response_inv body response :
  _transform_response (VDict body) = ok response ->
  exists records pag,
    iter (dict_get body "data" (VList [])) = ok records
    /\ dict_get body "pagination" (VDict []) = VDict pag
    /\ data response = GifList (kept records)
    /\ pagination response
       = Some {| total := dict_get pag "total_count" (VInt 0);
                 count := dict_get pag "count" (VInt 0);
                 offset := dict_get pag "offset" (VInt 0) |}.
Proof.
  unfold _transform_response, get. unfold rbind at 2, ok at 1.
  fold (dict_get body "data" (VList [])).
  fold (dict_get body "pagination" (VDict [])).
  unfold rbind at 1.
  destruct (iter (dict_get body "data" (VList []))) as [e|records];
    [discriminate|].
  unfold rbind at 1.
  destruct (read_gifs records []) as [e|gifs] eqn:Hread; [discriminate|].
  apply read_gifs_ok_kept in Hread. subst gifs.
  unfold rbind at 1, ok at 1.
  destruct (dict_get body "pagination" (VDict [])) as [| | | | | |pag];
    try discriminate.
  unfold rbind, ok, dict_get. intros H. injection H as <-.
  exists records, pag. repeat split.
Qed.

(** *** Where the numbers of an item come from *)

Lemma upstream_field_dict kvs imgs sec key name default :
  dict_get kvs "images" (VDict []) = VDict imgs ->
  dict_get imgs key (VDict []) = VDict sec ->
  upstream_field (VDict kvs) key name default
  = ok (dict_get sec name default).
Proof.
  intros Hi Hs. unfold upstream_field, get. unfold rbind at 1, ok at 1.
  fold (dict_get kvs "images" (VDict [])). rewrite Hi.
  unfold rbind, ok. fold (dict_get imgs key (VDict [])). rewrite Hs.
  reflexivity.
Qed.

Lemma read_image_numbers kvs key with_size img :
  read_image (dict_get kvs "images" (VDict [])) key with_size = ok img ->
  read_from (VDict kvs) key "width" (width img)
  /\ read_from (VDict kvs) key "height" (height img)
  /\ (if with_size then read_from (VDict kvs) key "size" (size img)
      else size img = 0).
Proof.
  intros H. destruct (read_image_inv _ _ _ _ H)
    as (imgs & sec & Hi & Hsec & _ & Hw & Hh & Hs).
  unfold read_from.
  split; [|split].
  - eexists. split; [apply (upstream_field_dict _ _ _ _ _ _ Hi Hsec)|exact Hw].
  - eexists. split; [apply (upstream_field_dict _ _ _ _ _ _ Hi Hsec)|exact Hh].
  - destruct with_size; [|exact Hs].
    eexists. split; [apply (upstream_field_dict _ _ _ _ _ _ Hi Hsec)|exact Hs].
Qed.

Lemma quot_negative a b : 0 < b -> (Z.quot a b < 0 <-> a <= - b).
Proof.
  intros Hb. destruct (Z_lt_le_dec a 0) as [Ha|Ha].
  - pose proof (Z.quot_opp_l a b ltac:(lia)) as Ho.
    assert (Hq : Z.quot a b = - Z.quot (- a) b) by lia.
    rewrite Hq, Z.quot_div_nonneg by lia.
    split; intros H.
    + destruct (Z_lt_le_dec (- a) b) as [Hs|Hs]; [|lia].
      rewrite Z.div_small in H by lia. lia.
    + assert (0 < (- a) / b) by (apply Z.div_str_pos; lia).
      lia.
  - pose proof (Z.quot_pos a b Ha Hb). lia.
Qed.

Lemma int_sign v n :
  int v = ok n -> (n < 0 <-> sends_negative v = true).
Proof.
  destruct v as [|b|z|f|s|l|kvs]; simpl; try discriminate.
  - intros H. injection H as <-. destruct b; split; (lia || discriminate).
  - intros H. injection H as <-. symmetry. apply Z.ltb_lt.
  - destruct f as [q| | |]; simpl; try discriminate.
    + intros H. injection H as <-.
      rewrite (quot_negative (Qnum q) (Zpos (Qden q))) by lia.
      rewrite Qle_bool_iff. unfold Qle. simpl. lia.
    + intros H. injection H as <-. split; (lia || discriminate).
  - destruct (int_of_str s) as [text|z]; [discriminate|].
    intros H. injection H as <-. symmetry. apply Z.ltb_lt.
Qed.

(** C9 (as amended).  Every envelope [search_gifs] or [get_random_gif]
    returns is well formed: a failure carries no data, a success carries no
    error.  The items of a successful search are the readable records, in
    order, of a body one of its requests was answered with, and the
    pagination offset is that body's, passed through unchanged; the item
    [get_random_gif] returns is the first item of its search.  Width, height
    and size of the three images of an item are [int] of the upstream fields
    (the size of the preview and of the thumbnail is 0), with no check of
    the sign: a number is negative exactly when the upstream sent a negative
    integer, a float at or below -1, or a string that [int] reads as a
    negative integer. *)
Theorem envelopes_are_well_formed cfg query opts w :
  (forall response w',
      search_gifs repr response_error_str cfg query opts w
      = (inr response, w') ->
      envelope_ok response)
  /\ (forall response w',
        get_random_gif repr response_error_str cfg query opts w
        = (inr response, w') ->
        envelope_ok response
        /\ forall item,
             data response = OneGif item ->
             exists found others,
               search_gifs repr response_error_str cfg query (forced opts) w
               = (inr found, w')
               /\ success found = true
               /\ data found = GifList (item :: others))
  /\ (forall response w',
        search_gifs repr response_error_str cfg query opts w
        = (inr response, w') ->
        success response = true ->
        exists k reason body records pag,
          Z.of_nat k < retry_attempts cfg
          /\ upstream w (sent w + k) = Responds 200 reason (inr (VDict body))
          /\ iter (dict_get body "data" (VList [])) = ok records
          /\ data response = GifList (kept records)
          /\ (forall item, In item (kept records) ->
                exists record, In record records /\ read_gif record = ok item)
          /\ dict_get body "pagination" (VDict []) = VDict pag
          /\ option_map offset (pagination response)
             = Some (dict_get pag "offset" (VInt 0)))
  /\ (forall record item,
        read_gif record = ok item ->
        read_from record "original" "width" (width (original item))
        /\ read_from record "original" "height" (height (original item))
        /\ read_from record "original" "size" (size (original item))
        /\ read_from record "fixed_height_small" "width"
             (width (preview item))
        /\ read_from record "fixed_height_small" "height"
             (height (preview item))
        /\ size (preview item) = 0
        /\ read_from record "fixed_height_small_still" "width"
             (width (thumbnail item))
        /\ read_from record "fixed_height_small_still" "height"
             (height (thumbnail item))
        /\ size (thumbnail item) = 0)
  /\ (forall v n, int v = ok n -> (n < 0 <-> sends_negative v = true)).
Proof.
  split; [intros response w'; apply search_gifs_envelope|].
  split; [|split; [|split]].
  - intros response w'. rewrite get_random_gif_unfold.
    destruct (search_gifs _ _ cfg query (forced opts) w) as [[e|r] w1]
      eqn:Hrun; [discriminate|].
    intros H. injection H as <- <-.
    destruct (success r) eqn:Hs; cbn [andb].
    + destruct (data r) as [|gifs|gif] eqn:Hd; cbn [payload_truthy].
      * split; [split; simpl; [discriminate|reflexivity]|].
        intros item H. discriminate.
      * destruct gifs as [|first others].
        -- split; [split; simpl; [discriminate|reflexivity]|].
           intros item H. discriminate.
        -- split; [split; simpl; [discriminate|reflexivity]|].
           intros item H. injection H as <-.
           exists r, others. repeat split; assumption.
      * (* a search never answers with a single item *)
        destruct (search_gifs_data _ _ _ _ _ _ Hrun) as [H|(gifs & H)];
          congruence.
    + split; [split; simpl; [discriminate|reflexivity]|].
      intros item H. discriminate.
  - intros response w' Hrun Hs.
    destruct (search_gifs_source cfg query opts w response w' Hrun Hs)
      as (k & d & Hk & Hok & Ht).
    apply verdict_accepted in Hok.
    destruct Hok as (reason & body & meta & st & Hup & -> & _).
    destruct (transform_response_inv body response Ht)
      as (records & pag & Hit & Hpag & Hdata & Hp).
    exists k, reason, body, records, pag.
    split; [exact Hk|]. split; [exact Hup|]. split; [exact Hit|].
    split; [exact Hdata|]. split; [intros item; apply kept_source|].
    split; [exact Hpag|]. rewrite Hp. reflexivity.
  - intros record item Hread.
    destruct (read_gif_inv record item Hread)
      as (kvs & -> & _ & _ & _ & _ & _ & _ & Ho & Hp & Ht).
    destruct (read_image_numbers kvs _ _ _ Ho) as (H1 & H2 & H3).
    destruct (read_image_numbers kvs _ _ _ Hp) as (H4 & H5 & H6).
    destruct (read_image_numbers kvs _ _ _ Ht) as (H7 & H8 & H9).
    repeat split; assumption.
  - apply int_sign.
Qed.

End Properties.

(* ===================================================================== *)
(** ** [extract_keywords] on ASCII text                                   *)
(* ===================================================================== *)

(** First the functions of module [Plain] by themselves, then the
    interpreter's methods wherever they agree with them. *)
Section PlainText.
Import Py Keywords Plain.

Local Abbreviation keyword := (is_keyword (py := methods)).
Local Abbreviation keywords_of := (extract_keywords (py := methods)).

(** *** Words, white space and case *)

Lemma is_space_lower_char c : is_space (lower_char c) = is_space c.
Proof. destruct c as [[] [] [] [] [] [] [] []]; reflexivity. Qed.

Lemma lower_char_idem c : lower_char (lower_char c) = lower_char c.
Proof. destruct c as [[] [] [] [] [] [] [] []]; reflexivity. Qed.

Lemma lower_idem s : lower (lower s) = lower s.
Proof.
  induction s as [|c r IH]; simpl; [reflexivity|].
  rewrite lower_char_idem, IH. reflexivity.
Qed.

Lemma lstrip_lower s : lstrip (lower s) = lower (lstrip s).
Proof.
  induction s as [|c r IH]; simpl; [reflexivity|].
  rewrite is_space_lower_char. destruct (is_space c); [exact IH|reflexivity].
Qed.

Lemma rstrip_lower s : rstrip (lower s) = lower (rstrip s).
Proof.
  induction s as [|c r IH]; simpl; [reflexivity|].
  rewrite IH, is_space_lower_char.
  destruct (rstrip r); simpl; [destruct (is_space c)|]; reflexivity.
Qed.

Lemma strip_lower s : strip (lower s) = lower (strip s).
Proof. unfold strip. rewrite lstrip_lower, rstrip_lower. reflexivity. Qed.

Lemma split_space c r : is_space c = true -> split (String c r) = split r.
Proof. intros H. simpl. rewrite H. reflexivity. Qed.

(** A string that splits into nothing is empty or starts with a space. *)
Lemma split_nil_head c r : split (String c r) = [] -> is_space c = true.
Proof.
  simpl. destruct (is_space c); [reflexivity|].
  destruct r as [|c' r']; [discriminate|].
  destruct (is_space c'); [discriminate|].
  destruct (split (String c' r')); discriminate.
Qed.

Lemma split_cons_space c c' r :
  is_space c = false -> is_space c' = true ->
  split (String c (String c' r))
  = String c EmptyString :: split (String c' r).
Proof. intros Hc Hc'. simpl. rewrite Hc, Hc'. reflexivity. Qed.

Lemma split_cons_word c c' r :
  is_space c = false -> is_space c' = false ->
  split (String c (String c' r))
  = match split (String c' r) with
    | w :: ws => String c w :: ws
    | [] => [String c EmptyString]
    end.
Proof. intros Hc Hc'. simpl. rewrite Hc, Hc'. reflexivity. Qed.

Lemma split_single c :
  is_space c = false -> split (String c EmptyString) = [String c EmptyString].
Proof. intros Hc. simpl. rewrite Hc. reflexivity. Qed.

Lemma split_lstrip s : split (lstrip s) = split s.
Proof.
  induction s as [|c r IH]; [reflexivity|].
  cbn [lstrip]. destruct (is_space c) eqn:Hc; [|reflexivity].
  rewrite IH. symmetry. apply split_space. exact Hc.
Qed.

Lemma rstrip_head c r c1 r1 :
  rstrip (String c r) = String c1 r1 -> c1 = c.
Proof.
  simpl. destruct (rstrip r); [destruct (is_space c)|];
    intros H; try discriminate; injection H as <- _; reflexivity.
Qed.

Lemma split_rstrip s : split (rstrip s) = split s.
Proof.
  induction s as [|c r IH]; [reflexivity|].
  cbn [rstrip]. destruct (rstrip r) as [|c1 r1] eqn:Hr.
  - (* the tail is all white space *)
    assert (Hnil : split r = []) by (rewrite <- IH; reflexivity).
    destruct (is_space c) eqn:Hc.
    + rewrite split_space by exact Hc. rewrite Hnil. reflexivity.
    + rewrite split_single by exact Hc.
      destruct r as [|c' r']; [rewrite split_single by exact Hc; reflexivity|].
      pose proof (split_nil_head _ _ Hnil) as Hc'.
      rewrite split_cons_space, Hnil by assumption. reflexivity.
  - destruct r as [|c' r']; [discriminate|].
    pose proof (rstrip_head _ _ _ _ Hr) as ->.
    destruct (is_space c) eqn:Hc.
    + rewrite (split_space c (String c' r1) Hc),
        (split_space c (String c' r') Hc). exact IH.
    + destruct (is_space c') eqn:Hc'.
      * rewrite (split_cons_space c c' r1 Hc Hc'),
          (split_cons_space c c' r' Hc Hc'), IH. reflexivity.
      * rewrite (split_cons_word c c' r1 Hc Hc'),
          (split_cons_word c c' r' Hc Hc'), IH. reflexivity.
Qed.

Lemma split_strip s : split (strip s) = split s.
Proof. unfold strip. rewrite split_rstrip, split_lstrip. reflexivity. Qed.

Lemma split_words s : Forall (fun w => is_word w = true) (split s).
Proof.
  induction s as [|c r IH]; [constructor|].
  destruct (is_space c) eqn:Hc.
  - rewrite split_space by exact Hc. exact IH.
  - assert (Hone : is_word (String c EmptyString) = true).
    { unfold is_word. simpl. rewrite Hc. reflexivity. }
    destruct r as [|c' r'].
    + rewrite split_single by exact Hc. constructor; [exact Hone|constructor].
    + destruct (is_space c') eqn:Hc'.
      * rewrite split_cons_space by assumption. constructor; assumption.
      * rewrite split_cons_word by assumption.
        destruct (split (String c' r')) as [|w ws].
        -- constructor; [exact Hone|constructor].
        -- inversion IH as [|? ? Hw Hws]; subst. constructor; [|exact Hws].
           unfold is_word in *. simpl. rewrite Hc. simpl.
           apply andb_true_iff in Hw. apply Hw.
Qed.

Lemma split_lower s : split (lower s) = map lower (split s).
Proof.
  induction s as [|c r IH]; [reflexivity|].
  cbn [lower].
  destruct (is_space c) eqn:Hc.
  - rewrite split_space by (rewrite is_space_lower_char; exact Hc).
    rewrite split_space by exact Hc. exact IH.
  - assert (Hl : is_space (lower_char c) = false)
      by (rewrite is_space_lower_char; exact Hc).
    destruct r as [|c' r'].
    + cbn [lower]. rewrite !split_single by assumption. reflexivity.
    + cbn [lower] in *. destruct (is_space c') eqn:Hc'.
      * assert (Hl' : is_space (lower_char c') = true)
          by (rewrite is_space_lower_char; exact Hc').
        rewrite (split_cons_space _ _ _ Hl Hl'), (split_cons_space _ _ _ Hc Hc').
        rewrite IH. reflexivity.
      * assert (Hl' : is_space (lower_char c') = false)
          by (rewrite is_space_lower_char; exact Hc').
        rewrite (split_cons_word _ _ _ Hl Hl'), (split_cons_word _ _ _ Hc Hc').
        rewrite IH. destruct (split (String c' r')); reflexivity.
Qed.

Lemma split_word w : is_word w = true -> split w = [w].
Proof.
  unfold is_word. induction w as [|c r IH]; [discriminate|].
  intros H. cbn [negb String.eqb andb no_space] in H.
  apply andb_true_iff in H. destruct H as [Hc Hr].
  apply negb_true_iff in Hc.
  destruct r as [|c' r']; [apply split_single; exact Hc|].
  cbn [no_space] in Hr. apply andb_true_iff in Hr. destruct Hr as [Hc' Hr'].
  apply negb_true_iff in Hc'.
  rewrite split_cons_word by assumption.
  rewrite IH; [reflexivity|].
  cbn [negb String.eqb andb no_space]. rewrite Hc', Hr'. reflexivity.
Qed.

Lemma split_word_then_space w s :
  is_word w = true ->
  split (w ++ String " " s) = w :: split s.
Proof.
  unfold is_word. induction w as [|c r IH]; [discriminate|].
  intros H. cbn [negb String.eqb andb no_space] in H.
  apply andb_true_iff in H. destruct H as [Hc Hr].
  apply negb_true_iff in Hc.
  destruct r as [|c' r'].
  - change (String c "" ++ String " " s) with (String c (String " " s)).
    rewrite split_cons_space by (try exact Hc; reflexivity).
    rewrite split_space by reflexivity. reflexivity.
  - cbn [no_space] in Hr. apply andb_true_iff in Hr. destruct Hr as [Hc' Hr'].
    apply negb_true_iff in Hc'.
    change (String c (String c' r') ++ String " " s)
      with (String c (String c' (r' ++ String " " s))).
    rewrite split_cons_word by assumption.
    change (String c' (r' ++ String " " s))
      with (String c' r' ++ String " " s).
    rewrite IH; [reflexivity|].
    cbn [negb String.eqb andb no_space]. rewrite Hc', Hr'. reflexivity.
Qed.

Lemma split_concat ws :
  Forall (fun w => is_word w = true) ws ->
  split (String.concat " " ws) = ws.
Proof.
  induction ws as [|w rest IH]; intros H; [reflexivity|].
  inversion H as [|? ? Hw Hrest]; subst.
  destruct rest as [|w' rest'].
  - simpl. apply split_word. exact Hw.
  - change (String.concat " " (w :: w' :: rest'))
      with (w ++ String " " (String.concat " " (w' :: rest'))).
    rewrite split_word_then_space by exact Hw.
    rewrite IH by exact Hrest. reflexivity.
Qed.

Lemma rstrip_cons c r :
  rstrip (String c r)
  = match rstrip r with
    | EmptyString => if is_space c then EmptyString else String c EmptyString
    | String c1 r1 => String c (String c1 r1)
    end.
Proof. reflexivity. Qed.

Lemma rstrip_idem s : rstrip (rstrip s) = rstrip s.
Proof.
  induction s as [|c r IH]; [reflexivity|].
  rewrite (rstrip_cons c r). destruct (rstrip r) as [|c1 r1] eqn:Hr.
  - destruct (is_space c) eqn:Hc; [reflexivity|].
    rewrite rstrip_cons. simpl. rewrite Hc. reflexivity.
  - rewrite (rstrip_cons c (String c1 r1)), IH. reflexivity.
Qed.

Lemma lstrip_rstrip_lstrip s : lstrip (rstrip (lstrip s)) = rstrip (lstrip s).
Proof.
  induction s as [|c r IH]; [reflexivity|].
  cbn [lstrip]. destruct (is_space c) eqn:Hc; [exact IH|].
  rewrite rstrip_cons.
  destruct (rstrip r); rewrite ?Hc; cbn [lstrip]; rewrite Hc; reflexivity.
Qed.

Lemma strip_idem s : strip (strip s) = strip s.
Proof.
  unfold strip. rewrite lstrip_rstrip_lstrip. apply rstrip_idem.
Qed.

Lemma rstrip_app a b c r :
  rstrip b = String c r -> rstrip (a ++ b) = a ++ rstrip b.
Proof.
  intros Hb. induction a as [|x a IH]; [reflexivity|].
  change (String x a ++ b) with (String x (a ++ b)).
  rewrite rstrip_cons, IH, Hb.
  destruct a; reflexivity.
Qed.

Lemma rstrip_no_space s : no_space s = true -> rstrip s = s.
Proof.
  induction s as [|c r IH]; simpl; [reflexivity|].
  intros H. apply andb_true_iff in H. destruct H as [Hc Hr].
  rewrite (IH Hr). apply negb_true_iff in Hc. rewrite Hc.
  destruct r; reflexivity.
Qed.

(** Words joined by single spaces have no white space at either end. *)
Lemma strip_concat ws :
  Forall (fun w => is_word w = true) ws ->
  strip (String.concat " " ws) = String.concat " " ws.
Proof.
  intros H.
  assert (Hr : ws <> [] ->
               rstrip (String.concat " " ws) = String.concat " " ws
               /\ exists c r, String.concat " " ws = String c r
                              /\ is_space c = false).
  { induction H as [|w rest Hw Hrest IH]; [congruence|]. intros _.
    unfold is_word in Hw. apply andb_true_iff in Hw. destruct Hw as [Hne Hns].
    destruct w as [|c r]; [discriminate|].
    assert (Hc : is_space c = false).
    { simpl in Hns. apply andb_true_iff in Hns. destruct Hns as [Hc _].
      apply negb_true_iff in Hc. exact Hc. }
    destruct rest as [|w' rest'].
    - change (String.concat " " [String c r]) with (String c r).
      split; [|eauto]. apply rstrip_no_space. exact Hns.
    - destruct IH as (Hstable & c' & r' & Heq & Hc'); [discriminate|].
      change (String.concat " " (String c r :: w' :: rest'))
        with (String c r ++ String " " (String.concat " " (w' :: rest'))).
      split; [|simpl; eauto].
      assert (Hsp : rstrip (String " " (String.concat " " (w' :: rest')))
                    = String " " (String.concat " " (w' :: rest'))).
      { rewrite rstrip_cons, Hstable, Heq. reflexivity. }
      rewrite (rstrip_app _ _ _ _ Hsp), Hsp. reflexivity. }
  destruct ws as [|w rest]; [reflexivity|].
  destruct Hr as (Hstable & c & r & Heq & Hc); [discriminate|].
  unfold strip. rewrite Heq. cbn [lstrip]. rewrite Hc, <- Heq. exact Hstable.
Qed.

Lemma firstn_Forall {A} (P : A -> Prop) n (l : list A) :
  Forall P l -> Forall P (firstn n l).
Proof.
  intros H. revert n. induction H; intros [|n]; simpl; constructor; auto.
Qed.

Lemma firstn_incl {A} n (l : list A) x : In x (firstn n l) -> In x l.
Proof.
  intros H. rewrite <- (firstn_skipn n l). apply in_or_app. left. exact H.
Qed.

Lemma slice_to_Forall {A} (P : A -> Prop) (l : list A) k :
  Forall P l -> Forall P (slice_to l k).
Proof.
  intros H. unfold slice_to. destruct (k <? 0); apply firstn_Forall, H.
Qed.

Lemma filter_Forall {A} (f : A -> bool) (P : A -> Prop) (l : list A) :
  Forall P l -> Forall P (filter f l).
Proof.
  intros H. induction H; simpl; [constructor|].
  destruct (f x); [constructor|]; assumption.
Qed.

Lemma filter_all {A} (f : A -> bool) (l : list A) :
  Forall (fun x => f x = true) l -> filter f l = l.
Proof.
  intros H. induction H as [|x l Hx _ IH]; simpl; [reflexivity|].
  rewrite Hx, IH. reflexivity.
Qed.

Lemma filter_keeps {A} (f : A -> bool) (l : list A) :
  Forall (fun x => f x = true) (filter f l).
Proof.
  induction l as [|x l IH]; simpl; [constructor|].
  destruct (f x) eqn:Hx; [constructor|]; assumption.
Qed.

(** *** The keywords of a message *)

Lemma extract_keywords_plain message max_keywords :
  keywords_of message max_keywords
  = match filter keyword (split (strip (lower message))) with
    | _ :: _ =>
        String.concat " "
          (slice_to (filter keyword (split (strip (lower message))))
             max_keywords)
    | [] => strip message
    end.
Proof. reflexivity. Qed.

(** The words of the lower-cased message that pass the filter. *)
Lemma keywords_are_words message :
  Forall (fun w => is_word w = true)
    (filter keyword (split (strip (lower message)))).
Proof. apply filter_Forall, split_words. Qed.

Lemma plain_first_keywords message max_keywords :
  filter keyword (split (lower message)) <> [] ->
  split (keywords_of message max_keywords)
  = slice_to (filter keyword (split (lower message))) max_keywords.
Proof.
  intros Hkw. rewrite extract_keywords_plain, split_strip.
  destruct (filter keyword (split (lower message))) as [|w ws] eqn:Hf;
    [congruence|].
  apply split_concat. apply slice_to_Forall. rewrite <- Hf.
  apply filter_Forall, split_words.
Qed.

Lemma plain_blank message max_keywords :
  1 <= max_keywords ->
  (keywords_of message max_keywords = "" <-> strip message = "").
Proof.
  intros Hk. rewrite extract_keywords_plain. split.
  - destruct (filter keyword (split (strip (lower message))))
      as [|w ws] eqn:Hf; [auto|].
    pose proof (keywords_are_words message) as Hwords. rewrite Hf in Hwords.
    inversion Hwords as [|? ? Hw _]; subst.
    unfold slice_to.
    replace (max_keywords <? 0) with false by (symmetry; apply Z.ltb_ge; lia).
    destruct (Z.to_nat max_keywords) as [|n] eqn:Hn; [lia|].
    cbn [firstn]. unfold is_word in Hw. destruct w as [|c r]; [discriminate|].
    destruct (firstn n ws); simpl; discriminate.
  - intros Hblank. rewrite strip_lower, Hblank. reflexivity.
Qed.

Lemma plain_trimmed message max_keywords :
  strip (keywords_of message max_keywords) = keywords_of message max_keywords.
Proof.
  rewrite extract_keywords_plain.
  destruct (filter keyword (split (strip (lower message))))
    as [|w ws] eqn:Hf.
  - apply strip_idem.
  - apply strip_concat, slice_to_Forall. rewrite <- Hf.
    apply keywords_are_words.
Qed.

Lemma lower_concat ws :
  lower (String.concat " " ws) = String.concat " " (map lower ws).
Proof.
  assert (Happ : forall a b, lower (a ++ b) = lower a ++ lower b).
  { induction a as [|c a IH]; intros b; simpl; [reflexivity|].
    rewrite IH. reflexivity. }
  induction ws as [|w rest IH]; [reflexivity|].
  destruct rest as [|w' rest']; [reflexivity|].
  change (String.concat " " (w :: w' :: rest'))
    with (w ++ String " " (String.concat " " (w' :: rest'))).
  rewrite Happ. cbn [lower]. rewrite IH. reflexivity.
Qed.

Lemma map_fixed {A} (f : A -> A) (l : list A) :
  Forall (fun x => f x = x) l -> map f l = l.
Proof.
  intros H. induction H as [|x l Hx _ IH]; simpl; [reflexivity|].
  rewrite Hx, IH. reflexivity.
Qed.

Lemma plain_idempotent message max_keywords :
  0 <= max_keywords ->
  keywords_of (keywords_of message max_keywords) max_keywords
  = keywords_of message max_keywords.
Proof.
  intros Hk.
  rewrite (extract_keywords_plain message max_keywords).
  destruct (filter keyword (split (strip (lower message))))
    as [|w ws] eqn:Hf.
  - (* no keyword: the stripped message has none either *)
    rewrite extract_keywords_plain.
    rewrite strip_lower, strip_idem, <- strip_lower, Hf.
    reflexivity.
  - set (kw := w :: ws) in *.
    assert (Hwords : Forall (fun x => is_word x = true) (slice_to kw max_keywords)).
    { apply slice_to_Forall. rewrite <- Hf. apply keywords_are_words. }
    assert (Hkey : Forall (fun x => keyword x = true)
                     (slice_to kw max_keywords)).
    { apply slice_to_Forall. rewrite <- Hf. apply filter_keeps. }
    assert (Hlow : Forall (fun x => lower x = x) (slice_to kw max_keywords)).
    { apply slice_to_Forall. rewrite <- Hf. apply filter_Forall.
      rewrite split_strip, split_lower. apply Forall_forall.
      intros x Hin. apply in_map_iff in Hin. destruct Hin as (x0 & <- & _).
      apply lower_idem. }
    rewrite extract_keywords_plain.
    rewrite lower_concat, (map_fixed _ _ Hlow), split_strip.
    rewrite (split_concat _ Hwords), (filter_all _ _ Hkey).
    destruct (slice_to kw max_keywords) as [|x xs] eqn:Hs; [reflexivity|].
    rewrite <- Hs. f_equal.
    unfold slice_to.
    replace (max_keywords <? 0) with false by (symmetry; apply Z.ltb_ge; lia).
    rewrite firstn_firstn, Nat.min_id. reflexivity.
Qed.

(** *** ASCII text stays ASCII text *)

Lemma is_ascii_lower_char c :
  is_ascii_char (lower_char c) = is_ascii_char c.
Proof. destruct c as [[] [] [] [] [] [] [] []]; reflexivity. Qed.

Lemma is_ascii_lower s : is_ascii (lower s) = is_ascii s.
Proof.
  induction s as [|c r IH]; simpl; [reflexivity|].
  rewrite is_ascii_lower_char, IH. reflexivity.
Qed.

Lemma is_ascii_lstrip s : is_ascii s = true -> is_ascii (lstrip s) = true.
Proof.
  induction s as [|c r IH]; [reflexivity|].
  intros H. cbn [lstrip]. destruct (is_space c); [|exact H].
  apply IH. simpl in H. apply andb_true_iff in H. apply H.
Qed.

Lemma is_ascii_rstrip s : is_ascii s = true -> is_ascii (rstrip s) = true.
Proof.
  induction s as [|c r IH]; [reflexivity|].
  intros H. simpl in H. apply andb_true_iff in H. destruct H as [Hc Hr].
  rewrite rstrip_cons. specialize (IH Hr).
  destruct (rstrip r) as [|c1 r1].
  - destruct (is_space c); [reflexivity|]. simpl. rewrite Hc. reflexivity.
  - change (is_ascii (String c (String c1 r1)))
      with (is_ascii_char c && is_ascii (String c1 r1)).
    rewrite Hc, IH. reflexivity.
Qed.

Lemma is_ascii_strip s : is_ascii s = true -> is_ascii (strip s) = true.
Proof. intros H. apply is_ascii_rstrip, is_ascii_lstrip, H. Qed.

Lemma is_ascii_split s :
  is_ascii s = true -> Forall (fun w => is_ascii w = true) (split s).
Proof.
  induction s as [|c r IH]; [constructor|].
  intros H. simpl in H. apply andb_true_iff in H. destruct H as [Hc Hr].
  specialize (IH Hr).
  assert (Hone : is_ascii (String c EmptyString) = true)
    by (simpl; rewrite Hc; reflexivity).
  destruct (is_space c) eqn:Hs.
  - rewrite split_space by exact Hs. exact IH.
  - destruct r as [|c' r'].
    + rewrite split_single by exact Hs. constructor; [exact Hone|constructor].
    + destruct (is_space c') eqn:Hs'.
      * rewrite split_cons_space by assumption. constructor; assumption.
      * rewrite split_cons_word by assumption.
        destruct (split (String c' r')) as [|w ws].
        -- constructor; [exact Hone|constructor].
        -- inversion IH as [|? ? Hw Hws]; subst. constructor; [|exact Hws].
           simpl. rewrite Hc, Hw. reflexivity.
Qed.

Lemma is_ascii_app a b :
  is_ascii a = true -> is_ascii b = true -> is_ascii (a ++ b) = true.
Proof.
  intros Ha Hb. induction a as [|c a IH]; [exact Hb|].
  simpl in *. apply andb_true_iff in Ha. destruct Ha as [Hc Ha].
  rewrite Hc, (IH Ha). reflexivity.
Qed.

Lemma is_ascii_concat ws :
  Forall (fun w => is_ascii w = true) ws ->
  is_ascii (String.concat " " ws) = true.
Proof.
  induction 1 as [|w rest Hw Hrest IH]; [reflexivity|].
  destruct rest as [|w' rest']; [exact Hw|].
  change (String.concat " " (w :: w' :: rest'))
    with (w ++ String " " (String.concat " " (w' :: rest'))).
  apply is_ascii_app; [exact Hw|].
  change (is_ascii (String " " (String.concat " " (w' :: rest'))))
    with (is_ascii_char " " && is_ascii (String.concat " " (w' :: rest'))).
  rewrite IH. reflexivity.
Qed.

Lemma plain_keywords_ascii message max_keywords :
  is_ascii message = true ->
  is_ascii (keywords_of message max_keywords) = true.
Proof.
  intros H. rewrite extract_keywords_plain.
  destruct (filter keyword (split (strip (lower message))))
    as [|w ws] eqn:Hf.
  - apply is_ascii_strip, H.
  - apply is_ascii_concat, slice_to_Forall. rewrite <- Hf.
    apply filter_Forall, is_ascii_split, is_ascii_strip.
    rewrite is_ascii_lower. exact H.
Qed.

(** The functions of [Plain] are what they are taken to be. *)
Lemma plain_on_ascii : OnAscii methods.
Proof. constructor; intros s _; reflexivity. Defined.

End PlainText.

Section AsciiText.
Import Py Keywords.

Context {py : StrMethods} {on_ascii : Plain.OnAscii py}.

Local Abbreviation is_ascii := Plain.is_ascii.

(** *** The interpreter's methods on ASCII text *)

Lemma is_keyword_on_ascii w :
  is_ascii w = true -> is_keyword w = is_keyword (py := Plain.methods) w.
Proof.
  intros H. unfold is_keyword. rewrite (Plain.len_on_ascii w H). reflexivity.
Qed.

Lemma keywords_on_ascii ws :
  Forall (fun w => is_ascii w = true) ws ->
  filter is_keyword ws = filter (is_keyword (py := Plain.methods)) ws.
Proof.
  induction 1 as [|w rest Hw _ IH]; [reflexivity|].
  simpl. rewrite (is_keyword_on_ascii w Hw), IH. reflexivity.
Qed.

Lemma lowered_words_on_ascii s :
  is_ascii s = true ->
  split (lower s) = Plain.split (Plain.lower s)
  /\ split (strip (lower s)) = Plain.split (Plain.strip (Plain.lower s)).
Proof.
  intros H.
  assert (Hl : is_ascii (Plain.lower s) = true)
    by (rewrite is_ascii_lower; exact H).
  rewrite (Plain.lower_on_ascii s H).
  rewrite (Plain.split_on_ascii _ Hl).
  rewrite (Plain.strip_on_ascii _ Hl).
  rewrite (Plain.split_on_ascii _ (is_ascii_strip _ Hl)).
  split; reflexivity.
Qed.

Lemma extract_keywords_on_ascii message max_keywords :
  is_ascii message = true ->
  extract_keywords message max_keywords
  = extract_keywords (py := Plain.methods) message max_keywords.
Proof.
  intros H. rewrite extract_keywords_plain. unfold extract_keywords.
  cbv zeta.
  destruct (lowered_words_on_ascii message H) as [_ ->].
  rewrite keywords_on_ascii
    by (apply is_ascii_split, is_ascii_strip;
        rewrite is_ascii_lower; exact H).
  rewrite (Plain.strip_on_ascii message H). reflexivity.
Qed.

(** X12.  For a message of ASCII characters that has a keyword -- a word
    of more than two characters that is not a stop word, compared in lower
    case -- the words of the result are exactly the first [max_keywords]
    keywords of the message, in order and in lower case. *)
Theorem extract_keywords_returns_the_first_keywords message max_keywords :
  is_ascii message = true ->
  filter is_keyword (split (lower message)) <> [] ->
  split (extract_keywords message max_keywords)
  = slice_to (filter is_keyword (split (lower message))) max_keywords
  /\ (forall w, In w (split (extract_keywords message max_keywords)) ->
        is_keyword w = true /\ In w (split (lower message)) /\ lower w = w)
  /\ (0 <= max_keywords ->
      (List.length (split (extract_keywords message max_keywords))
       <= Z.to_nat max_keywords)%nat).
Proof.
  intros Ha Hkw.
  assert (Hl : is_ascii (Plain.lower message) = true)
    by (rewrite is_ascii_lower; exact Ha).
  pose proof (is_ascii_split _ Hl) as Hwords.
  destruct (lowered_words_on_ascii message Ha) as [Hsl _].
  rewrite Hsl in *. rewrite (keywords_on_ascii _ Hwords) in *.
  rewrite (extract_keywords_on_ascii message max_keywords Ha).
  rewrite (Plain.split_on_ascii _ (plain_keywords_ascii _ max_keywords Ha)).
  rewrite (plain_first_keywords message max_keywords Hkw).
  split; [reflexivity|]. split.
  - intros w Hin.
    assert (Hin' : In w (filter (is_keyword (py := Plain.methods))
                           (Plain.split (Plain.lower message)))).
    { unfold slice_to in Hin.
      destruct (max_keywords <? 0); eapply firstn_incl; exact Hin. }
    apply filter_In in Hin'. destruct Hin' as [Hw Hk].
    assert (Haw : is_ascii w = true).
    { rewrite Forall_forall in Hwords. apply Hwords. exact Hw. }
    rewrite (is_keyword_on_ascii w Haw), (Plain.lower_on_ascii w Haw).
    split; [exact Hk|]. split; [exact Hw|].
    rewrite split_lower in Hw. apply in_map_iff in Hw.
    destruct Hw as (w0 & <- & _). apply lower_idem.
  - intros Hk. unfold slice_to.
    replace (max_keywords <? 0) with false by (symmetry; apply Z.ltb_ge; lia).
    apply firstn_le_length.
Qed.

(** X13.  For a message of ASCII characters and room for at least one
    keyword, the result is empty exactly when the message is empty or all
    white space. *)
Theorem extract_keywords_empty_iff_blank message max_keywords :
  is_ascii message = true ->
  1 <= max_keywords ->
  (extract_keywords message max_keywords = "" <-> strip message = "").
Proof.
  intros Ha Hk.
  rewrite (extract_keywords_on_ascii message max_keywords Ha).
  rewrite (Plain.strip_on_ascii message Ha).
  apply plain_blank. exact Hk.
Qed.

(** X14.  For a message of ASCII characters the result never starts or
    ends with white space: stripping it again changes nothing, whatever
    [max_keywords] is. *)
Theorem extract_keywords_is_trimmed message max_keywords :
  is_ascii message = true ->
  strip (extract_keywords message max_keywords)
  = extract_keywords message max_keywords.
Proof.
  intros Ha.
  rewrite (extract_keywords_on_ascii message max_keywords Ha).
  rewrite (Plain.strip_on_ascii _ (plain_keywords_ascii _ max_keywords Ha)).
  apply plain_trimmed.
Qed.

(** X15.  For a message of ASCII characters, extracting keywords from an
    extracted query gives the query back (for a non-negative
    [max_keywords]). *)
Theorem extract_keywords_is_idempotent message max_keywords :
  is_ascii message = true ->
  0 <= max_keywords ->
  extract_keywords (extract_keywords message max_keywords) max_keywords
  = extract_keywords message max_keywords.
Proof.
  intros Ha Hk.
  rewrite (extract_keywords_on_ascii message max_keywords Ha).
  rewrite (extract_keywords_on_ascii _ max_keywords
             (plain_keywords_ascii _ max_keywords Ha)).
  apply plain_idempotent. exact Hk.
Qed.

End AsciiText.

(* ===================================================================== *)
(** ** The theorems on concrete inputs                                   *)
(* ===================================================================== *)

Import Py Models Utils World GiphyAdapter Notions.

(** The runs below use the [str] methods of ASCII text. *)
#[local] Existing Instance Plain.methods.

(** C3: the empty query.  The search does not return an envelope at all:
    [GiphyValidation] leaves [search_gifs], as [test_search_gifs_validation_error]
    expects. *)
Lemma empty_query_is_raised_not_returned :
  Sample.search (VStr "") no_options Sample.offline
  = (inl (GiphyValidation "Query parameter is required and must be a string"),
     Sample.offline)
  /\ ~ (exists response w',
          Sample.search (VStr "") no_options Sample.offline
          = (inr response, w')
          /\ success response = false
          /\ option_map err_type (error response)
             = Some (ErrorType_value VALIDATION_ERROR)).
Proof.
  split; [reflexivity|].
  intros (response & w' & H & _). discriminate H.
Qed.

(** A limit of 0, an offset of -1 and a rating of "x", one at a time. *)
Lemma invalid_arguments_witness :
  Sample.search (VStr "funny cats")
    {| o_limit := Some (VInt 0); o_offset := None;
       o_rating := None; o_lang := None |}
    Sample.offline
  = (inl (ValueError "Limit must be an integer between 1 and 50"),
     Sample.offline)
  /\ Sample.search (VStr "funny cats")
       {| o_limit := None; o_offset := Some (VInt (-1));
          o_rating := None; o_lang := None |}
       Sample.offline
     = (inl (ValueError "Offset must be a non-negative integer"),
        Sample.offline)
  /\ exists names,
       Sample.search (VStr "funny cats")
         {| o_limit := None; o_offset := None;
            o_rating := Some (VStr "x"); o_lang := None |}
         Sample.offline
       = (inl (ValueError ("Rating must be one of: " ++ names)),
          Sample.offline).
Proof.
  split; [|split].
  - exact (proj1 (proj2 (proj2
             (invalid_arguments_raise_before_any_request
                Sample.repr Sample.response_error_str Sample.cfg
                (VStr "funny cats")
                {| o_limit := Some (VInt 0); o_offset := None;
                   o_rating := None; o_lang := None |}
                Sample.offline)))
             eq_refl eq_refl).
  - exact (proj1 (proj2 (proj2 (proj2
             (invalid_arguments_raise_before_any_request
                Sample.repr Sample.response_error_str Sample.cfg
                (VStr "funny cats")
                {| o_limit := None; o_offset := Some (VInt (-1));
                   o_rating := None; o_lang := None |}
                Sample.offline))))
             eq_refl eq_refl eq_refl).
  - exact (proj2 (proj2 (proj2 (proj2
             (invalid_arguments_raise_before_any_request
                Sample.repr Sample.response_error_str Sample.cfg
                (VStr "funny cats")
                {| o_limit := None; o_offset := None;
                   o_rating := Some (VStr "x"); o_lang := None |}
                Sample.offline))))
             eq_refl eq_refl eq_refl eq_refl eq_refl).
Defined.

(** C4 on a body that reports 429 inside a 200 response. *)
Lemma api_level_error_witness :
  attempt_once Sample.repr (base_url ++ "/search") []
    (Sample.answering Sample.rate_limited)
  = (inl (GiphyError "Giphy API Error: Rate limited"),
     after_get (base_url ++ "/search") []
       (Sample.answering Sample.rate_limited)).
Proof.
  exact (proj1 (api_level_error_uses_up_an_attempt
                  Sample.repr Sample.response_error_str Sample.cfg
                  (base_url ++ "/search") []
                  (Sample.answering Sample.rate_limited) "OK"
                  [("data", VList []);
                   ("meta", VDict [("status", VInt 429);
                                   ("msg", VStr "Rate limited")])]
                  [("status", VInt 429); ("msg", VStr "Rate limited")]
                  (VInt 429) 1 [2; 3] None
                  eq_refl eq_refl eq_refl eq_refl)).
Defined.

(** C5: the record of the search test next to one whose width is [null];
    and next to one whose width is text, which is skipped. *)
Lemma null_width_fails_the_whole_search_witness :
  (exists info response w',
      Sample.search (VStr "funny cats") no_options
        (Sample.answering
           (Sample.envelope
              [Sample.test_gif; Sample.gif_with_width VNone] 2 0))
      = (inr response, w')
      /\ success response = false
      /\ data response = NoData
      /\ pagination response = None
      /\ error response = Some info
      /\ err_type info = "UNKNOWN_ERROR"
      /\ err_message info
         = "int() argument must be a string, a bytes-like object or a real number, not 'NoneType'"
      /\ sent w' = 1%nat)
  /\ (exists response w',
        Sample.search (VStr "funny cats") no_options
          (Sample.answering
             (Sample.envelope
                [Sample.test_gif; Sample.gif_with_width (VStr "wide")] 2 0))
        = (inr response, w')
        /\ success response = true
        /\ data response = GifList [Sample.test_item]
        /\ option_map count (pagination response) = Some (VInt 2)
        /\ message response = "Found 1 GIFs"
        /\ error response = None
        /\ sent w' = 1%nat).
Proof.
  split.
  - refine (proj2 (null_width_fails_the_whole_search
              Sample.repr Sample.response_error_str Sample.cfg
              "funny cats" no_options (VInt 10)
              (Sample.answering
                 (Sample.envelope
                    [Sample.test_gif; Sample.gif_with_width VNone] 2 0))
              "OK"
              [("data",
                VList [Sample.test_gif; Sample.gif_with_width VNone]);
               ("pagination",
                VDict [("total_count", VInt 100); ("count", VInt 2);
                       ("offset", VInt 0)]);
               ("meta", VDict [("status", VInt 200); ("msg", VStr "OK")])]
              [("status", VInt 200); ("msg", VStr "OK")]
              [("total_count", VInt 100); ("count", VInt 2);
               ("offset", VInt 0)]
              Sample.test_gif
              [("id", VStr "broken");
               ("images",
                VDict [("original",
                        VDict [("url", VStr "https://media.giphy.com/b.gif");
                               ("width", VNone);
                               ("height", VStr "270")])])]
              Sample.test_item
              _ eq_refl eq_refl _ eq_refl eq_refl eq_refl
              (or_introl eq_refl) eq_refl eq_refl eq_refl)
              [("original",
                VDict [("url", VStr "https://media.giphy.com/b.gif");
                       ("width", VNone);
                       ("height", VStr "270")])]
              [("url", VStr "https://media.giphy.com/b.gif");
               ("width", VNone);
               ("height", VStr "270")]
              eq_refl eq_refl eq_refl).
    + discriminate.
    + discriminate.
  - refine (proj1 (null_width_fails_the_whole_search
              Sample.repr Sample.response_error_str Sample.cfg
              "funny cats" no_options (VInt 10)
              (Sample.answering
                 (Sample.envelope
                    [Sample.test_gif; Sample.gif_with_width (VStr "wide")]
                    2 0))
              "OK"
              [("data",
                VList [Sample.test_gif; Sample.gif_with_width (VStr "wide")]);
               ("pagination",
                VDict [("total_count", VInt 100); ("count", VInt 2);
                       ("offset", VInt 0)]);
               ("meta", VDict [("status", VInt 200); ("msg", VStr "OK")])]
              [("status", VInt 200); ("msg", VStr "OK")]
              [("total_count", VInt 100); ("count", VInt 2);
               ("offset", VInt 0)]
              Sample.test_gif
              [("id", VStr "broken");
               ("images",
                VDict [("original",
                        VDict [("url", VStr "https://media.giphy.com/b.gif");
                               ("width", VStr "wide");
                               ("height", VStr "270")])])]
              Sample.test_item
              _ eq_refl eq_refl _ eq_refl eq_refl eq_refl
              (or_introl eq_refl) eq_refl eq_refl eq_refl)
              "invalid literal for int() with base 10: 'wide'" eq_refl).
    + discriminate.
    + discriminate.
Defined.

(** C6: a limit of 100 and the record of the search test, whose widths and
    heights are strings. *)
Lemma limit_above_50_witness :
  (exists response w' evs,
      Sample.search (VStr "funny cats") Sample.greedy
        (Sample.answering (Sample.envelope [Sample.test_gif] 1 7))
      = (inr response, w')
      /\ log w' = evs
      /\ gets evs <> []
      /\ forall p, In p (gets evs) -> assoc "limit" p = Some (VInt 50))
  /\ (exists response w',
        Sample.search (VStr "funny cats") Sample.greedy
          (Sample.answering (Sample.envelope [Sample.test_gif] 1 7))
        = (inr response, w')
        /\ success response = true
        /\ data response = GifList [Sample.test_item]
        /\ message response = "Found 1 GIFs"
        /\ sent w' = 1%nat).
Proof.
  split.
  - refine (proj1 (proj2 (limit_above_50_is_clamped
                            Sample.repr Sample.response_error_str Sample.cfg
                            "funny cats" Sample.greedy 100
                            (Sample.answering
                               (Sample.envelope [Sample.test_gif] 1 7))
                            _ eq_refl eq_refl eq_refl eq_refl _))).
    + discriminate.
    + discriminate.
  - refine (proj2 (proj2 (limit_above_50_is_clamped
                            Sample.repr Sample.response_error_str Sample.cfg
                            "funny cats" Sample.greedy 100
                            (Sample.answering
                               (Sample.envelope [Sample.test_gif] 1 7))
                            _ eq_refl eq_refl eq_refl eq_refl _))
              "OK"
              [("data", VList [Sample.test_gif]);
               ("pagination",
                VDict [("total_count", VInt 100); ("count", VInt 1);
                       ("offset", VInt 7)]);
               ("meta", VDict [("status", VInt 200); ("msg", VStr "OK")])]
              [("status", VInt 200); ("msg", VStr "OK")]
              [("total_count", VInt 100); ("count", VInt 1);
               ("offset", VInt 7)]
              [("id", VStr "test123");
               ("title", VStr "Test GIF");
               ("url", VStr "https://giphy.com/gifs/test123");
               ("rating", VStr "pg");
               ("import_datetime", VStr "2024-01-01 12:00:00");
               ("tags", VList [VStr "test"; VStr "funny"]);
               ("images",
                VDict
                  [("original",
                    VDict [("url", VStr "https://media.giphy.com/test.gif");
                           ("width", VStr "480");
                           ("height", VStr "270");
                           ("size", VStr "1000000")]);
                   ("fixed_height_small",
                    Sample.small_image
                      "https://media.giphy.com/test_small.gif" "200" "113");
                   ("fixed_height_small_still",
                    Sample.small_image
                      "https://media.giphy.com/test_thumb.gif" "200" "113")])]
              [("original",
                VDict [("url", VStr "https://media.giphy.com/test.gif");
                       ("width", VStr "480");
                       ("height", VStr "270");
                       ("size", VStr "1000000")]);
               ("fixed_height_small",
                Sample.small_image
                  "https://media.giphy.com/test_small.gif" "200" "113");
               ("fixed_height_small_still",
                Sample.small_image
                  "https://media.giphy.com/test_thumb.gif" "200" "113")]
              [("url", VStr "https://media.giphy.com/test.gif");
               ("width", VStr "480");
               ("height", VStr "270");
               ("size", VStr "1000000")]
              "480" "270" 480 270 1000000
              (preview Sample.test_item) (thumbnail Sample.test_item)
              eq_refl eq_refl eq_refl eq_refl eq_refl eq_refl eq_refl
              eq_refl eq_refl eq_refl eq_refl eq_refl eq_refl eq_refl).
    + discriminate.
    + discriminate.
Defined.

Lemma get_random_gif_delegates_witness :
  exists w',
    Sample.single (VStr "funny cats") Sample.greedy
      (Sample.answering (Sample.envelope [] 0 0))
    = (inr no_gif_found, w')
    /\ gets (log w')
       = [[("q", VStr "funny cats"); ("limit", VInt 1); ("offset", VInt 0);
           ("rating", VStr "pg"); ("lang", VStr "en");
           ("api_key", VStr "key")]].
Proof.
  destruct (get_random_gif_delegates
              Sample.repr Sample.response_error_str Sample.cfg
              (VStr "funny cats") Sample.greedy
              (Sample.answering (Sample.envelope [] 0 0)))
    as (_ & _ & _ & H).
  eexists. split.
  - eapply (fun r w a b c => proj1 (H r w a b c)).
    + cbv. reflexivity.
    + reflexivity.
    + reflexivity.
  - reflexivity.
Defined.

Lemma missing_image_sections_witness :
  exists gif,
    read_gif Sample.bare_gif = ok gif
    /\ original gif = blank_image
    /\ preview gif = blank_image
    /\ thumbnail gif = blank_image.
Proof.
  destruct (proj2 (missing_image_sections_default
                     [("id", VStr "bare"); ("title", VStr "No images")])
              (or_introl eq_refl))
    as (gif & Hread & Ho & Hp & Ht & _).
  exists gif. repeat split; assumption.
Defined.

(** C9: a negative width and a negative offset come out as they went in. *)
Lemma negative_numbers_pass_through :
  exists response w' item,
    Sample.search (VStr "funny cats") no_options
      (Sample.answering
         (Sample.envelope [Sample.gif_with_width (VInt (-5))] 1 (-1)))
    = (inr response, w')
    /\ success response = true
    /\ data response = GifList [item]
    /\ width (original item) = -5
    /\ ~ (0 <= width (original item))
    /\ option_map offset (pagination response) = Some (VInt (-1))
    /\ ~ (exists n, option_map offset (pagination response) = Some (VInt n)
                    /\ 0 <= n).
Proof.
  eexists. eexists. eexists. split; [cbv; reflexivity|].
  split; [reflexivity|]. split; [reflexivity|]. split; [reflexivity|].
  split; [simpl; lia|]. split; [reflexivity|].
  intros (n & H & Hn). simpl in H. injection H as <-. lia.
Qed.

(** C9 on the same answer: the width of the item is [int] of the upstream
    field, which is negative. *)
Lemma envelopes_are_well_formed_witness :
  (exists response w',
      Sample.search (VStr "funny cats") no_options Sample.offline
      = (inr response, w')
      /\ envelope_ok response)
  /\ read_from (Sample.gif_with_width (VInt (-5))) "original" "width" (-5)
  /\ sends_negative (VInt (-5)) = true.
Proof.
  split; [|split].
  - eexists. eexists. split; [cbv; reflexivity|].
    refine (proj1 (envelopes_are_well_formed
                     Sample.repr Sample.response_error_str Sample.cfg
                     (VStr "funny cats") no_options Sample.offline) _ _ _).
    cbv. reflexivity.
  - refine (proj1 (proj1 (proj2 (proj2 (proj2
              (envelopes_are_well_formed
                 Sample.repr Sample.response_error_str Sample.cfg
                 (VStr "funny cats") no_options Sample.offline))))
              (Sample.gif_with_width (VInt (-5))) _ eq_refl)).
  - refine (proj1 (proj2 (proj2 (proj2 (proj2
              (envelopes_are_well_formed
                 Sample.repr Sample.response_error_str Sample.cfg
                 (VStr "funny cats") no_options Sample.offline))))
              (VInt (-5)) (-5) eq_refl) _).
    reflexivity.
Defined.

Lemma get_random_gif_never_returns_failure_witness :
  exists w',
    Sample.single (VStr "funny cats") no_options Sample.offline
    = (inr no_gif_found, w').
Proof.
  destruct (get_random_gif_never_returns_failure
              Sample.repr Sample.response_error_str Sample.cfg
              (VStr "funny cats") no_options Sample.offline)
    as (_ & H).
  eexists.
  eapply (fun r w a b => proj1 (H r w a b)).
  - cbv. reflexivity.
  - reflexivity.
Defined.

(** *** The further properties on concrete inputs *)

Import Keywords Lifecycle Schedule.

(** One reset connection, then an answer: two requests, one sleep. *)
Lemma make_request_returns_first_accepted_witness :
  exists evs w',
    _make_request Sample.repr Sample.response_error_str Sample.cfg "/search"
      [("q", VStr "test")] (fresh Cases.flaky 0)
    = (inr (Sample.envelope [Sample.test_gif] 1 0), w')
    /\ log w' = evs
    /\ gets evs
       = repeat [("q", VStr "test"); ("api_key", VStr "key")] 2
    /\ sleeps evs = backoff Sample.cfg 1
    /\ sent w' = 2%nat.
Proof.
  refine (make_request_returns_first_accepted
            Sample.repr Sample.response_error_str Sample.cfg "/search"
            [("q", VStr "test")] (fresh Cases.flaky 0) 1
            (Sample.envelope [Sample.test_gif] 1 0) eq_refl _ eq_refl).
  intros j Hj. destruct j as [|j]; [|lia].
  eexists. reflexivity.
Defined.

Lemma make_request_raises_the_last_failure_witness :
  exists evs w',
    _make_request Sample.repr Sample.response_error_str Sample.cfg "/search"
      [("q", VStr "test")] Sample.offline
    = (inl (GiphyError
              "Client error: Cannot connect to host api.giphy.com, try 3"),
       w')
    /\ log w' = evs
    /\ gets evs
       = repeat [("q", VStr "test"); ("api_key", VStr "key")] 3
    /\ sleeps evs = backoff Sample.cfg 2
    /\ sent w' = 3%nat.
Proof.
  refine (make_request_raises_the_last_failure
            Sample.repr Sample.response_error_str Sample.cfg "/search"
            [("q", VStr "test")] Sample.offline
            (ClientError "Cannot connect to host api.giphy.com, try 3")
            _ _ eq_refl).
  - discriminate.
  - intros j _. eexists. reflexivity.
Defined.

Lemma search_reports_timeouts_witness :
  exists info response w',
    Sample.search (VStr "funny cats") no_options Cases.stalled
    = (inr response, w')
    /\ success response = false
    /\ data response = NoData
    /\ error response = Some info
    /\ err_type info = "TIMEOUT"
    /\ err_message info = "Request timeout"
    /\ err_method info = "search_gifs"
    /\ sent w' = 3%nat.
Proof.
  refine (search_reports_timeouts
            Sample.repr Sample.response_error_str Sample.cfg "funny cats"
            no_options Cases.stalled _ eq_refl eq_refl eq_refl _ _).
  - discriminate.
  - discriminate.
  - intros j _. reflexivity.
Defined.

Lemma search_without_attempts_fails_witness :
  exists info response,
    search_gifs Sample.repr Sample.response_error_str Cases.no_attempts
      (VStr "funny cats") no_options
      (Sample.answering (Sample.envelope [Sample.test_gif] 1 0))
    = (inr response,
       Sample.answering (Sample.envelope [Sample.test_gif] 1 0))
    /\ success response = false
    /\ data response = NoData
    /\ error response = Some info
    /\ err_type info = "UNKNOWN_ERROR"
    /\ err_message info = "exceptions must derive from BaseException".
Proof.
  refine (search_without_attempts_fails
            Sample.repr Sample.response_error_str Cases.no_attempts
            "funny cats" no_options
            (Sample.answering (Sample.envelope [Sample.test_gif] 1 0))
            _ eq_refl eq_refl eq_refl _).
  - discriminate.
  - discriminate.
Defined.

(** The messages of [test_extract_keywords]. *)
Lemma extract_keywords_returns_the_first_keywords_witness :
  split (extract_keywords "I love funny cats and dogs" 3)
  = ["love"; "funny"; "cats"].
Proof.
  refine (proj1 (extract_keywords_returns_the_first_keywords
                   (on_ascii := plain_on_ascii)
                   "I love funny cats and dogs" 3 eq_refl _)).
  vm_compute. discriminate.
Defined.

Lemma extract_keywords_empty_iff_blank_witness :
  extract_keywords "   " 3 = "" /\ extract_keywords "hi" 3 <> "".
Proof.
  split.
  - apply (proj2 (extract_keywords_empty_iff_blank
                    (on_ascii := plain_on_ascii) "   " 3 eq_refl
                    ltac:(discriminate))).
    reflexivity.
  - intros H.
    apply (proj1 (extract_keywords_empty_iff_blank
                    (on_ascii := plain_on_ascii) "hi" 3 eq_refl
                    ltac:(discriminate))) in H.
    discriminate H.
Defined.

Lemma extract_keywords_is_trimmed_witness :
  strip (extract_keywords "  The quick brown fox  " 3) = "quick brown fox".
Proof.
  rewrite (extract_keywords_is_trimmed (on_ascii := plain_on_ascii)
             "  The quick brown fox  " 3 eq_refl).
  reflexivity.
Defined.

Lemma extract_keywords_is_idempotent_witness :
  extract_keywords (extract_keywords "The quick brown fox jumps" 3) 3
  = "quick brown fox".
Proof.
  rewrite (extract_keywords_is_idempotent (on_ascii := plain_on_ascii)
             "The quick brown fox jumps" 3 eq_refl ltac:(discriminate)).
  reflexivity.
Defined.

(** [test_end_to_end_gif_search], with the record of the search test. *)
Lemma get_gif_for_message_describes_the_first_gif_witness :
  exists w',
    GifService.get_gif_for_message Sample.repr Sample.response_error_str
      Cases.service_cfg (VStr "testing integration") no_options
      (Sample.answering (Sample.envelope [Sample.test_gif] 1 0))
    = (inr (Some {| GifService.mg_type := "gif";
                    GifService.mg_id := VStr "test123";
                    GifService.mg_title := VStr "Test GIF";
                    GifService.mg_url :=
                      VStr "https://media.giphy.com/test.gif";
                    GifService.mg_preview_url :=
                      VStr "https://media.giphy.com/test_small.gif";
                    GifService.mg_thumbnail_url :=
                      VStr "https://media.giphy.com/test_thumb.gif";
                    GifService.mg_width := 480;
                    GifService.mg_height := 270;
                    GifService.mg_rating := VStr "pg";
                    GifService.mg_query_used := "testing integration" |}),
       w')
    /\ sent w' = 1%nat.
Proof.
  refine (get_gif_for_message_describes_the_first_gif
            Sample.repr Sample.response_error_str Cases.service_cfg
            "testing integration" no_options
            (Sample.answering (Sample.envelope [Sample.test_gif] 1 0))
            "OK"
            [("data", VList [Sample.test_gif]);
             ("pagination",
              VDict [("total_count", VInt 100); ("count", VInt 1);
                     ("offset", VInt 0)]);
             ("meta", VDict [("status", VInt 200); ("msg", VStr "OK")])]
            [("status", VInt 200); ("msg", VStr "OK")]
            [("total_count", VInt 100); ("count", VInt 1); ("offset", VInt 0)]
            [Sample.test_gif] Sample.test_item []
            _ _ eq_refl _ eq_refl eq_refl eq_refl eq_refl eq_refl eq_refl).
  - discriminate.
  - vm_compute. discriminate.
  - discriminate.
Defined.

(** Two records upstream, a declared count of 2, one survivor. *)
Lemma service_search_counts_the_survivors_witness :
  exists w',
    GifService.search_gifs Sample.repr Sample.response_error_str
      Cases.service_cfg (VStr "funny cats") no_options
      (Sample.answering Cases.mixed)
    = (inr (Some {| GifService.ss_query := VStr "funny cats";
                    GifService.ss_total_results := VInt 100;
                    GifService.ss_returned_count := 1;
                    GifService.ss_gifs :=
                      [GifService.listed Sample.test_item] |}),
       w').
Proof.
  destruct (service_search_counts_the_survivors
              Sample.repr Sample.response_error_str Cases.service_cfg
              "funny cats" no_options (Sample.answering Cases.mixed)
              "OK"
              [("data",
                VList [Sample.test_gif; Sample.gif_with_width (VStr "wide")]);
               ("pagination",
                VDict [("total_count", VInt 100); ("count", VInt 2);
                       ("offset", VInt 0)]);
               ("meta", VDict [("status", VInt 200); ("msg", VStr "OK")])]
              [("status", VInt 200); ("msg", VStr "OK")]
              [("total_count", VInt 100); ("count", VInt 2);
               ("offset", VInt 0)]
              [Sample.test_gif; Sample.gif_with_width (VStr "wide")]
              [Sample.test_item])
    as (w' & Hrun & _); try reflexivity; try discriminate.
  exists w'. exact Hrun.
Defined.

Lemma get_random_gif_returns_the_first_item_witness :
  exists w',
    Sample.single (VStr "funny cats") Sample.greedy
      (Sample.answering (Sample.envelope [Sample.test_gif] 1 0))
    = (inr {| success := true;
              data := OneGif Sample.test_item;
              pagination := None;
              message := "GIF found";
              error := None |}, w')
    /\ sent w' = 1%nat.
Proof.
  refine (get_random_gif_returns_the_first_item
            Sample.repr Sample.response_error_str Sample.cfg
            "funny cats" Sample.greedy
            (Sample.answering (Sample.envelope [Sample.test_gif] 1 0))
            "OK"
            [("data", VList [Sample.test_gif]);
             ("pagination",
              VDict [("total_count", VInt 100); ("count", VInt 1);
                     ("offset", VInt 0)]);
             ("meta", VDict [("status", VInt 200); ("msg", VStr "OK")])]
            [("status", VInt 200); ("msg", VStr "OK")]
            [("total_count", VInt 100); ("count", VInt 1); ("offset", VInt 0)]
            [Sample.test_gif] Sample.test_item []
            _ eq_refl _ eq_refl eq_refl eq_refl eq_refl eq_refl eq_refl).
  - discriminate.
  - discriminate.
Defined.

(** A body that only says that all is well. *)
Lemma transform_response_defaults_witness :
  _transform_response (VDict [("meta", VDict [("status", VInt 200)])])
  = ok {| success := true;
          data := GifList [];
          pagination := Some {| total := VInt 0; count := VInt 0;
                                offset := VInt 0 |};
          message := "Found 0 GIFs";
          error := None |}.
Proof.
  exact (proj1 (transform_response_defaults
                  [("meta", VDict [("status", VInt 200)])] eq_refl)
           eq_refl).
Defined.
